(** * Source.Python memory tools: CPointer and CFunction

    A shallow embedding of [src/core/modules/memory/memory_tools.cpp].

    The C++ methods read and write raw process memory, allocate wrapper
    objects with [new], and raise Python exceptions through
    [BOOST_RAISE_EXCEPTION].  They are embedded as computations in a state
    and exception monad over an explicit [state]: a store of C++ objects, a
    flat byte memory together with the trace of every access made to it, and
    the three globals of the translation unit ([g_pCallVM], [g_pHookMngr],
    [g_mapCallbacks]).  Integer arithmetic on [unsigned long] wraps modulo
    the machine word, pointer arithmetic inside one memory access is exact.
    The objects of the store are C++ objects and lie in memory as well;
    which of them lie in the bytes the methods reach is told by a [layout],
    and [resident] runs a method with the objects read back from those
    bytes. *)

From Stdlib Require Import Ascii String.
From stdpp Require Import gmap strings list.

Open Scope Z_scope.

(** ** Machine words *)

(** The width of [unsigned long] (and of a data pointer: the code casts
    freely between the two) in bytes; 4 on the 32-bit builds, 8 on LP64. *)
Class Arch := { sizeof_ulong : positive }.

Section Words.
Context `{Arch}.

Definition ULONG_MOD : Z := 256 ^ Z.pos sizeof_ulong.

(** Conversion to [unsigned long]: reduction modulo 2^w. *)
Definition ulong (z : Z) : Z := z mod ULONG_MOD.
End Words.

(** Conversions between the fixed-width integer types used by the call VM. *)
Definition to_unsigned (bits : Z) (z : Z) : Z := z mod 2 ^ bits.
Definition to_signed (bits : Z) (z : Z) : Z :=
  let u := z mod 2 ^ bits in
  if u <? 2 ^ (bits - 1) then u else u - 2 ^ bits.

(** ** Python exceptions *)

Inductive PyExc := PyExc_ValueError | PyExc_TypeError | PyExc_UnicodeDecodeError.

Record exn := PyErr { exc_type : PyExc; exc_msg : string }.

#[global] Instance PyExc_eq_dec : EqDecision PyExc.
Proof. solve_decision. Defined.
#[global] Instance exn_eq_dec : EqDecision exn.
Proof. solve_decision. Defined.

(** The failure kinds the specification names.  The code raises every one of
    them as a [ValueError] (or [TypeError]) and tells them apart by message
    only. *)
Inductive condition :=
  | InvalidPointer
  | ArgumentCountMismatch
  | UnsupportedType
  | RangeTooSmall
  | OverlapViolation
  | NotHooked.

#[global] Instance condition_eq_dec : EqDecision condition.
Proof. solve_decision. Defined.

Definition msg_pointer_null : string := "Pointer is NULL.".
Definition msg_some_pointer_null : string := "At least one pointer is NULL.".
Definition msg_function_null : string := "Function pointer is NULL.".
Definition msg_range_too_small : string := "Search range is too small.".
Definition msg_overlapping : string := "Pointers are overlapping!".
Definition msg_arg_count : string :=
  "Number of passed arguments is not equal to the required number.".
Definition msg_unknown_arg : string := "Unknown argument type.".
Definition msg_unknown_ret : string := "Unknown return type.".
Definition msg_not_hooked : string := "Function was not hooked.".

Definition condition_of (e : exn) : option condition :=
  let m := exc_msg e in
  if decide (m = msg_pointer_null) then Some InvalidPointer
  else if decide (m = msg_some_pointer_null) then Some InvalidPointer
  else if decide (m = msg_function_null) then Some InvalidPointer
  else if decide (m = msg_range_too_small) then Some RangeTooSmall
  else if decide (m = msg_overlapping) then Some OverlapViolation
  else if decide (m = msg_arg_count) then Some ArgumentCountMismatch
  else if decide (m = msg_unknown_arg) then Some UnsupportedType
  else if decide (m = msg_unknown_ret) then Some UnsupportedType
  else if decide (m = msg_not_hooked) then Some NotHooked
  else None.

(** ** Data *)

(** Handles of objects allocated with [new]. *)
Definition ref := nat.

Record CPointer := mkCPointer { m_ulAddr : Z }.

(** [CPointer::CPointer(unsigned long ulAddr = 0)]. *)
Definition CPointer_new (ulAddr : Z) : CPointer := {| m_ulAddr := ulAddr |}.
Definition CPointer_default : CPointer := CPointer_new 0.

#[global] Instance CPointer_eq_dec : EqDecision CPointer.
Proof. solve_decision. Defined.

(** A [boost::python::object] that stands for an address: either a wrapped
    [CPointer] or a plain Python integer. *)
Inductive object :=
  | PyCPointer (r : ref)
  | PyLong (z : Z).

(** Calling conventions ([Convention_t]). *)
Inductive Convention_t := CONV_CDECL | CONV_STDCALL | CONV_THISCALL.

#[global] Instance Convention_eq_dec : EqDecision Convention_t.
Proof. solve_decision. Defined.

(** Type tags are dyncall signature characters. *)
Definition Argument_t := ascii.
Definition ReturnType_t := ascii.

Definition DC_SIGCHAR_VOID : ascii := "v"%char.
Definition DC_SIGCHAR_BOOL : ascii := "B"%char.
Definition DC_SIGCHAR_CHAR : ascii := "c"%char.
Definition DC_SIGCHAR_UCHAR : ascii := "C"%char.
Definition DC_SIGCHAR_SHORT : ascii := "s"%char.
Definition DC_SIGCHAR_USHORT : ascii := "S"%char.
Definition DC_SIGCHAR_INT : ascii := "i"%char.
Definition DC_SIGCHAR_UINT : ascii := "I"%char.
Definition DC_SIGCHAR_LONG : ascii := "j"%char.
Definition DC_SIGCHAR_ULONG : ascii := "J"%char.
Definition DC_SIGCHAR_LONGLONG : ascii := "l"%char.
Definition DC_SIGCHAR_ULONGLONG : ascii := "L"%char.
Definition DC_SIGCHAR_FLOAT : ascii := "f"%char.
Definition DC_SIGCHAR_DOUBLE : ascii := "d"%char.
Definition DC_SIGCHAR_POINTER : ascii := "p"%char.
Definition DC_SIGCHAR_STRING : ascii := "Z"%char.

(** [CFunction] derives from [CPointer]: [as_CPointer] is the base object,
    which holds [m_ulAddr]. *)
Record CFunction := mkCFunction {
  as_CPointer : CPointer;
  m_eConv : Convention_t;
  m_Args : list Argument_t;
  m_ReturnType : ReturnType_t
}.

(** [m_ulAddr] of a function. *)
Definition f_ulAddr (f : CFunction) : Z := m_ulAddr (as_CPointer f).

(** [CFunction::CFunction(ulAddr, eConv, args, return_type)]. *)
Definition CFunction_new (ulAddr : Z) (eConv : Convention_t)
    (args : list Argument_t) (return_type : ReturnType_t) : CFunction :=
  {| as_CPointer := {| m_ulAddr := ulAddr |}; m_eConv := eConv; m_Args := args;
     m_ReturnType := return_type |}.

(** ** Hooks (DynamicHooks) and the call VM (dyncall) *)

Inductive HookType_t := HOOKTYPE_PRE | HOOKTYPE_POST.

#[global] Instance HookType_eq_dec : EqDecision HookType_t.
Proof. solve_decision. Defined.

#[global] Instance HookType_countable : Countable HookType_t.
Proof.
  refine (inj_countable'
            (fun t => match t with HOOKTYPE_PRE => false | HOOKTYPE_POST => true end)
            (fun b => if b then HOOKTYPE_POST else HOOKTYPE_PRE) _).
  by intros [].
Defined.

(** Native hook handlers; the only one this file registers is the address
    of [SP_HookHandler]. *)
Inductive HookHandlerFn := SP_HookHandler.

#[global] Instance HookHandlerFn_eq_dec : EqDecision HookHandlerFn.
Proof. solve_decision. Defined.

Record CHook := mkCHook {
  m_pFunc : Z;
  m_pTrampoline : Z;
  m_eConvention : Convention_t;
  m_szParams : string;
  m_hookHandler : list (HookType_t * HookHandlerFn)
}.

(** A [CHook*] is the position of the hook in the manager's list. *)
Definition CHookPtr := nat.

(** A [PyObject*]: callbacks are compared by address. *)
Definition PyObject := Z.

(** The C types [extract<T>] converts to and the call VM carries. *)
Inductive ctype :=
  | c_bool | c_char | c_uchar | c_short | c_ushort | c_int | c_uint
  | c_long | c_ulong | c_longlong | c_ulonglong | c_float | c_double
  | c_string.

#[global] Instance ctype_eq_dec : EqDecision ctype.
Proof. solve_decision. Defined.

(** One pushed argument: which [dcArg*] pushed it, and the value. *)
Inductive DCarg :=
  | dcBool (v : Z) | dcChar (v : Z) | dcShort (v : Z) | dcInt (v : Z)
  | dcLong (v : Z) | dcLongLong (v : Z) | dcFloat (v : Z) | dcDouble (v : Z)
  | dcPointer (v : Z).

Record DCCallVM := mkVM { vm_mode : option Convention_t; vm_args : list DCarg }.

(** Which [dcCall*] performed a native call. *)
Inductive DCcall :=
  | dcCallVoid | dcCallBool | dcCallChar | dcCallShort | dcCallInt
  | dcCallLong | dcCallLongLong | dcCallFloat | dcCallDouble | dcCallPointer.

(** An argument of [CFunction::Call]: an address-like object, or any other
    Python object, identified by a number. *)
Inductive pyvalue :=
  | PyAddressLike (o : object)
  | PyOpaque (id : nat).

(** What [CFunction::Call] hands back as a Python object. *)
Inductive pyresult :=
  | PyNone
  | PyOf (t : ctype) (v : Z)
  | PyPointerObject (r : ref).

(** Everything outside the translation unit that the code calls into and
    whose result it only passes on: boost.python's [extract<T>], the native
    code a call reaches, whether the C string that native code hands back
    at an address is UTF-8, and the trampoline the hook manager allocates. *)
Class Native := {
  extract : ctype -> pyvalue -> option Z;
  native_result : DCcall -> DCCallVM -> Z -> Z;
  valid_utf8 : Z -> bool;
  alloc_trampoline : Z -> Z
}.

(** ** Program state *)

(** The objects made with [new] are kept by handle in [pointers] and
    [functions]; [mem] is the raw memory the methods read and write at the
    addresses they are given.  Which objects lie in the bytes of [mem] is
    not part of the state: a [layout] tells it (see "Objects in memory"). *)

Inductive access := Load (a : Z) | Store (a : Z).

#[global] Instance access_eq_dec : EqDecision access.
Proof. solve_decision. Defined.

Record state := mkState {
  pointers : list CPointer;
  functions : list CFunction;
  mem : gmap Z Z;
  accesses : list access;
  g_pCallVM : DCCallVM;
  native_calls : list (DCcall * DCCallVM * Z);
  g_pHookMngr : list CHook;
  g_mapCallbacks : gmap CHookPtr (gmap HookType_t (list PyObject));
  stdout : list string
}.

Definition set_pointers (f : list CPointer -> list CPointer) (s : state) : state :=
  mkState (f (pointers s)) (functions s) (mem s) (accesses s) (g_pCallVM s)
    (native_calls s) (g_pHookMngr s) (g_mapCallbacks s) (stdout s).
Definition set_functions (f : list CFunction -> list CFunction) (s : state) : state :=
  mkState (pointers s) (f (functions s)) (mem s) (accesses s) (g_pCallVM s)
    (native_calls s) (g_pHookMngr s) (g_mapCallbacks s) (stdout s).
Definition set_mem (f : gmap Z Z -> gmap Z Z) (s : state) : state :=
  mkState (pointers s) (functions s) (f (mem s)) (accesses s) (g_pCallVM s)
    (native_calls s) (g_pHookMngr s) (g_mapCallbacks s) (stdout s).
Definition set_accesses (f : list access -> list access) (s : state) : state :=
  mkState (pointers s) (functions s) (mem s) (f (accesses s)) (g_pCallVM s)
    (native_calls s) (g_pHookMngr s) (g_mapCallbacks s) (stdout s).
Definition set_vm (f : DCCallVM -> DCCallVM) (s : state) : state :=
  mkState (pointers s) (functions s) (mem s) (accesses s) (f (g_pCallVM s))
    (native_calls s) (g_pHookMngr s) (g_mapCallbacks s) (stdout s).
Definition set_native_calls
    (f : list (DCcall * DCCallVM * Z) -> list (DCcall * DCCallVM * Z))
    (s : state) : state :=
  mkState (pointers s) (functions s) (mem s) (accesses s) (g_pCallVM s)
    (f (native_calls s)) (g_pHookMngr s) (g_mapCallbacks s) (stdout s).
Definition set_hooks (f : list CHook -> list CHook) (s : state) : state :=
  mkState (pointers s) (functions s) (mem s) (accesses s) (g_pCallVM s)
    (native_calls s) (f (g_pHookMngr s)) (g_mapCallbacks s) (stdout s).
Definition set_callbacks
    (f : gmap CHookPtr (gmap HookType_t (list PyObject)) ->
         gmap CHookPtr (gmap HookType_t (list PyObject)))
    (s : state) : state :=
  mkState (pointers s) (functions s) (mem s) (accesses s) (g_pCallVM s)
    (native_calls s) (g_pHookMngr s) (f (g_mapCallbacks s)) (stdout s).
Definition set_stdout (f : list string -> list string) (s : state) : state :=
  mkState (pointers s) (functions s) (mem s) (accesses s) (g_pCallVM s)
    (native_calls s) (g_pHookMngr s) (g_mapCallbacks s) (f (stdout s)).

(** The state at load time: [g_pCallVM = dcNewCallVM(4096)],
    [g_pHookMngr = new CHookManager], no objects, memory as given. *)
Definition initial_state (m : gmap Z Z) : state :=
  mkState [] [] m [] (mkVM None []) [] [] ∅ [].

(** ** The state and exception monad *)

Inductive outcome (A : Type) :=
  | Returns (a : A)
  | Raises (e : exn).
Arguments Returns {A} a.
Arguments Raises {A} e.

Definition M (A : Type) : Type := state -> outcome A * state.

Definition ret {A} (a : A) : M A := fun s => (Returns a, s).

Definition bind {A B} (c : M A) (k : A -> M B) : M B :=
  fun s => match c s with
           | (Returns a, s') => k a s'
           | (Raises e, s') => (Raises e, s')
           end.

Notation "x <- c ;; k" := (bind c (fun x => k))
  (at level 100, c at next level, right associativity).
Notation "c ;;; k" := (bind c (fun _ => k))
  (at level 100, right associativity).

Definition gets {A} (f : state -> A) : M A := fun s => (Returns (f s), s).
Definition modify (f : state -> state) : M unit := fun s => (Returns tt, f s).

(** [BOOST_RAISE_EXCEPTION(exc, msg)]. *)
Definition BOOST_RAISE_EXCEPTION {A} (exc : PyExc) (msg : string) : M A :=
  fun s => (Raises (PyErr exc msg), s).

(** A conversion failure inside boost.python ([error_already_set]). *)
Definition conversion_error : exn := PyErr PyExc_TypeError "No registered converter.".

(** The failure of building a Python [str] from bytes that are not UTF-8
    ([error_already_set] as well, raised by the constructor of [object]). *)
Definition decoding_error : exn :=
  PyErr PyExc_UnicodeDecodeError "utf-8 codec cannot decode the bytes.".

Definition raises_condition {A} (o : outcome A) (c : condition) : Prop :=
  match o with
  | Raises e => condition_of e = Some c
  | Returns _ => False
  end.

#[global] Instance raises_condition_dec {A} (o : outcome A) c :
  Decision (raises_condition o c).
Proof. destruct o; simpl; apply _. Defined.

(** ** Raw memory *)

(** Memory is a flat store of bytes; a byte never written reads as 0.  Every
    access is recorded, newest first. *)
Definition load_byte (a : Z) : M Z :=
  fun s => (Returns (default 0 (mem s !! a)), set_accesses (cons (Load a)) s).

Definition store_byte (a v : Z) : M unit :=
  fun s => (Returns tt, set_accesses (cons (Store a)) (set_mem <[a := v mod 256]> s)).

Fixpoint read_bytes (n : nat) (a : Z) : M (list Z) :=
  match n with
  | O => ret []
  | S k => b <- load_byte a ;; bs <- read_bytes k (a + 1) ;; ret (b :: bs)
  end.

Fixpoint write_bytes (bs : list Z) (a : Z) : M unit :=
  match bs with
  | [] => ret tt
  | b :: rest => store_byte a b ;;; write_bytes rest (a + 1)
  end.

(** Little-endian machine words of [n] bytes. *)
Fixpoint load_le (n : nat) (a : Z) : M Z :=
  match n with
  | O => ret 0
  | S k => b <- load_byte a ;; hi <- load_le k (a + 1) ;; ret (b + 256 * hi)
  end.

Fixpoint store_le (n : nat) (a v : Z) : M unit :=
  match n with
  | O => ret tt
  | S k => store_byte a (v mod 256) ;;; store_le k (a + 1) (v / 256)
  end.

(** [memcmp(p, q, n)]: the difference of the first two bytes that differ. *)
Fixpoint memcmp (p q : Z) (n : nat) : M Z :=
  match n with
  | O => ret 0
  | S k =>
      a <- load_byte p ;;
      b <- load_byte q ;;
      if a =? b then memcmp (p + 1) (q + 1) k else ret (a - b)
  end.

(** [memmove(dst, src, n)]: as if through a temporary buffer. *)
Definition memmove (dst src : Z) (n : nat) : M unit :=
  bs <- read_bytes n src ;; write_bytes bs dst.

(** [memcpy(dst, src, n)]: on ranges that do not overlap, the same copy
    (C leaves the overlapping case undefined). *)
Definition memcpy (dst src : Z) (n : nat) : M unit :=
  bs <- read_bytes n src ;; write_bytes bs dst.

(** The C string a [char*] argument points to: the bytes up to the first
    NUL, and the terminator. *)
Fixpoint c_str (text : list Z) : list Z :=
  match text with
  | [] => [0]
  | c :: rest => if c =? 0 then [0] else c :: c_str rest
  end.

(** [strcpy(dst, szText)]. *)
Definition strcpy (dst : Z) (szText : list Z) : M unit :=
  write_bytes (c_str szText) dst.

(** ** Object store *)

(** [this->...] and [ptr->...]: the object behind a handle.  Handles come
    from [new]; any other number reads as a default-constructed pointer. *)
Definition deref (r : ref) : M CPointer :=
  gets (fun s => default CPointer_default (pointers s !! r)).

(** [new CPointer(ulAddr)]. *)
Definition new_CPointer (ulAddr : Z) : M ref :=
  fun s => (Returns (length (pointers s)),
            set_pointers (fun l => l ++ [CPointer_new ulAddr]) s).

(** [new CFunction(...)]. *)
Definition new_CFunction (f : CFunction) : M ref :=
  fun s => (Returns (length (functions s)),
            set_functions (fun l => l ++ [f]) s).

(** Modelled from the spec: [CPointer::IsValid] is declared inline in
    memory_tools.h, which is not among the sources; the specification gives
    it as "address ≠ 0". *)
Definition IsValid (p : CPointer) : bool := negb (m_ulAddr p =? 0).

(** Modelled from the spec: [ExtractPyPtr] lives in utility/sp_util.h, which
    is not among the sources; the specification describes its argument as
    "either a wrapped pointer or a raw numeric address" with one extraction
    function to the address. *)
Definition ExtractPyPtr (o : object) : M Z :=
  match o with
  | PyCPointer r => p <- deref r ;; ret (m_ulAddr p)
  | PyLong z => ret z
  end.

(** ** CPointer *)

Section CPointer_methods.
Context `{Arch}.

Definition load_ulong (a : Z) : M Z := load_le (Pos.to_nat sizeof_ulong) a.
Definition store_ulong (a v : Z) : M unit := store_le (Pos.to_nat sizeof_ulong) a v.

(** [void CPointer::SetStringPtr(char* szText, int iOffset)]. *)
Definition SetStringPtr (this : ref) (szText : list Z) (iOffset : Z) : M unit :=
  self <- deref this ;;
  if negb (IsValid self) then BOOST_RAISE_EXCEPTION PyExc_ValueError "Pointer is NULL."
  else
    dst <- load_ulong (ulong (m_ulAddr self + iOffset)) ;;
    strcpy dst szText.

(** [const char* CPointer::GetStringArray(int iOffset)]: the address of
    the string, which the caller reads; as a pointer it is a machine
    word. *)
Definition GetStringArray (this : ref) (iOffset : Z) : M Z :=
  self <- deref this ;;
  if negb (IsValid self) then BOOST_RAISE_EXCEPTION PyExc_ValueError "Pointer is NULL."
  else ret (ulong (m_ulAddr self + iOffset)).

(** [void CPointer::SetStringArray(char* szText, int iOffset)]. *)
Definition SetStringArray (this : ref) (szText : list Z) (iOffset : Z) : M unit :=
  self <- deref this ;;
  if negb (IsValid self) then BOOST_RAISE_EXCEPTION PyExc_ValueError "Pointer is NULL."
  else strcpy (ulong (m_ulAddr self + iOffset)) szText.

(** [CPointer* CPointer::GetPtr(int iOffset)]. *)
Definition GetPtr (this : ref) (iOffset : Z) : M ref :=
  self <- deref this ;;
  if negb (IsValid self) then BOOST_RAISE_EXCEPTION PyExc_ValueError "Pointer is NULL."
  else
    v <- load_ulong (ulong (m_ulAddr self + iOffset)) ;;
    new_CPointer v.

(** [void CPointer::SetPtr(CPointer* ptr, int iOffset)]: the store goes to
    [m_ulAddr]; [iOffset] is not used. *)
Definition SetPtr (this : ref) (ptr : ref) (iOffset : Z) : M unit :=
  self <- deref this ;;
  if negb (IsValid self) then BOOST_RAISE_EXCEPTION PyExc_ValueError "Pointer is NULL."
  else
    other <- deref ptr ;;
    store_ulong (m_ulAddr self) (m_ulAddr other).

(** [int CPointer::Compare(object oOther, unsigned long ulNum)]. *)
Definition Compare (this : ref) (oOther : object) (ulNum : Z) : M Z :=
  ulOther <- ExtractPyPtr oOther ;;
  self <- deref this ;;
  if (m_ulAddr self =? 0) || (ulOther =? 0)
  then BOOST_RAISE_EXCEPTION PyExc_ValueError "At least one pointer is NULL."
  else memcmp (m_ulAddr self) ulOther (Z.to_nat ulNum).

(** [bool CPointer::IsOverlapping(object oOther, unsigned long ulNumBytes)]. *)
Definition IsOverlapping (this : ref) (oOther : object) (ulNumBytes : Z) : M bool :=
  ulOther <- ExtractPyPtr oOther ;;
  self <- deref this ;;
  if m_ulAddr self <=? ulOther
  then ret (ulong (m_ulAddr self + ulNumBytes) >? ulOther)
  else ret (ulong (ulOther + ulNumBytes) >? m_ulAddr self).

(** The inner [for] loop of [SearchBytes], from index [i] on; [bytes] is
    what is left of the pattern.  The result is the value of [i] when the
    loop is left. *)
Fixpoint SearchBytes_for (bytes : list Z) (base i : Z) : M Z :=
  match bytes with
  | [] => ret i
  | b :: rest =>
      m <- load_byte (base + i) ;;
      if m =? 42 then SearchBytes_for rest base (i + 1)
      else if negb (b =? m) then ret i
      else SearchBytes_for rest base (i + 1)
  end.

(** The [while (base < end)] loop of [SearchBytes]; [n] is [end - base],
    the number of times the condition can still hold. *)
Fixpoint SearchBytes_while (n : nat) (bytes : list Z) (iByteLen base : Z)
    : M (option ref) :=
  match n with
  | O => ret None
  | S k =>
      i <- SearchBytes_for bytes base 0 ;;
      if i =? iByteLen
      then r <- new_CPointer base ;; ret (Some r)
      else SearchBytes_while k bytes iByteLen (base + 1)
  end.

(** [CPointer* CPointer::SearchBytes(object oBytes, unsigned long ulNumBytes)];
    [None] is the [NULL] result.  [oBytes] is the content of the bytes
    object, which is shorter than the address space.  [bytes] is taken to
    be that content, which is what [PyArg_Parse] with the format [y] hands
    over for a bytes object without a NUL byte.  For one with a NUL byte
    [PyArg_Parse] fails and leaves [bytes] NULL, the code does not look at
    what it returns, and the scan reads through the NULL pointer: the two
    checks before it are as here, the scan is not. *)
Definition SearchBytes (this : ref) (oBytes : list Z) (ulNumBytes : Z)
    : M (option ref) :=
  self <- deref this ;;
  if m_ulAddr self =? 0 then BOOST_RAISE_EXCEPTION PyExc_ValueError "Pointer is NULL."
  else
    let iByteLen := Z.of_nat (length oBytes) in
    if ulNumBytes <? iByteLen
    then BOOST_RAISE_EXCEPTION PyExc_ValueError "Search range is too small."
    else
      let base := m_ulAddr self in
      let end_ := ulong (ulong (m_ulAddr self + ulNumBytes) - ulong (iByteLen - 1)) in
      SearchBytes_while (Z.to_nat (end_ - base)) oBytes iByteLen base.

(** [void CPointer::Copy(object oDest, unsigned long ulNumBytes)]; the
    guard is [!m_ulAddr || ulDest]. *)
Definition Copy (this : ref) (oDest : object) (ulNumBytes : Z) : M unit :=
  ulDest <- ExtractPyPtr oDest ;;
  self <- deref this ;;
  if (m_ulAddr self =? 0) || negb (ulDest =? 0)
  then BOOST_RAISE_EXCEPTION PyExc_ValueError "At least one pointer is NULL."
  else
    overlapping <- IsOverlapping this oDest ulNumBytes ;;
    if (overlapping : bool)
    then BOOST_RAISE_EXCEPTION PyExc_ValueError "Pointers are overlapping!"
    else memcpy ulDest (m_ulAddr self) (Z.to_nat ulNumBytes).

(** [void CPointer::Move(object oDest, unsigned long ulNumBytes)]. *)
Definition Move (this : ref) (oDest : object) (ulNumBytes : Z) : M unit :=
  ulDest <- ExtractPyPtr oDest ;;
  self <- deref this ;;
  if (m_ulAddr self =? 0) || (ulDest =? 0)
  then BOOST_RAISE_EXCEPTION PyExc_ValueError "At least one pointer is NULL."
  else memmove ulDest (m_ulAddr self) (Z.to_nat ulNumBytes).

(** [CPointer* CPointer::GetVirtualFunc(int iIndex)]. *)
Definition GetVirtualFunc (this : ref) (iIndex : Z) : M ref :=
  self <- deref this ;;
  if negb (IsValid self) then BOOST_RAISE_EXCEPTION PyExc_ValueError "Pointer is NULL."
  else
    vtable <- load_ulong (m_ulAddr self) ;;
    if vtable =? 0 then new_CPointer 0
    else
      entry <- load_ulong (vtable + iIndex * Z.pos sizeof_ulong) ;;
      new_CPointer entry.

(** [CFunction* CPointer::MakeFunction(eConv, args, return_type)]. *)
Definition MakeFunction (this : ref) (eConv : Convention_t)
    (args : list Argument_t) (return_type : ReturnType_t) : M ref :=
  self <- deref this ;;
  if negb (IsValid self) then BOOST_RAISE_EXCEPTION PyExc_ValueError "Pointer is NULL."
  else new_CFunction (CFunction_new (m_ulAddr self) eConv args return_type).

(** [CFunction* CPointer::MakeVirtualFunction(iIndex, eConv, args, return_type)]. *)
Definition MakeVirtualFunction (this : ref) (iIndex : Z) (eConv : Convention_t)
    (args : list Argument_t) (return_type : ReturnType_t) : M ref :=
  func <- GetVirtualFunc this iIndex ;;
  MakeFunction func eConv args return_type.
End CPointer_methods.

(** ** Hook manager and callback registry *)

(** Modelled from the spec: [CHookManager::FindHook] belongs to the
    DynamicHooks library, which is not among the sources; the specification
    gives it as the lookup of the record of a hooked address. *)
Fixpoint find_hook_from (i : nat) (hooks : list CHook) (pFunc : Z)
    : option (CHookPtr * CHook) :=
  match hooks with
  | [] => None
  | h :: rest => if m_pFunc h =? pFunc then Some (i, h) else find_hook_from (S i) rest pFunc
  end.

(** The result is the [CHook*] together with the record it points to;
    [None] is [NULL]. *)
Definition FindHook (pFunc : Z) : M (option (CHookPtr * CHook)) :=
  gets (fun s => find_hook_from 0 (g_pHookMngr s) pFunc).

(** [g_mapCallbacks[pHook][eType]] read; [operator[]] of [std::map] yields
    an empty list where no entry exists. *)
Definition callbacks_at (m : gmap CHookPtr (gmap HookType_t (list PyObject)))
    (pHook : CHookPtr) (eType : HookType_t) : list PyObject :=
  default [] (default ∅ (m !! pHook) !! eType).

(** [g_mapCallbacks[pHook][eType].f()] for a mutating [f]; [operator[]]
    creates the entries on the way. *)
Definition update_callbacks (pHook : CHookPtr) (eType : HookType_t)
    (f : list PyObject -> list PyObject)
    (m : gmap CHookPtr (gmap HookType_t (list PyObject)))
    : gmap CHookPtr (gmap HookType_t (list PyObject)) :=
  <[pHook := <[eType := f (callbacks_at m pHook eType)]> (default ∅ (m !! pHook))]> m.

(** [std::list::remove(value)]: erases every element equal to [value]. *)
Definition list_remove (value : PyObject) (l : list PyObject) : list PyObject :=
  filter (fun x => x ≠ value) l.

(** [puts]. *)
Definition puts (line : string) : M unit :=
  modify (set_stdout (fun out => out ++ [line])).

Section CFunction_methods.
Context `{Arch} `{Native}.

(** Modelled from the spec: [CHookManager::HookFunction] belongs to the
    DynamicHooks library, which is not among the sources; the
    specification says a record is created on the first hook of an
    address, with its trampoline, and reused afterwards. *)
Definition HookFunction (pFunc : Z) (eConv : Convention_t) (szParams : string)
    : M CHookPtr :=
  found <- FindHook pFunc ;;
  match found with
  | Some (pHook, _) => ret pHook
  | None =>
      fun s => (Returns (length (g_pHookMngr s)),
                set_hooks (fun l => l ++ [mkCHook pFunc (alloc_trampoline pFunc)
                                            eConv szParams []]) s)
  end.

(** Modelled from the spec: [CHook::AddCallback] belongs to the
    DynamicHooks library, which is not among the sources; of it the code
    says "If it's already added, it won't be added twice". *)
Definition AddCallback (pHook : CHookPtr) (eType : HookType_t)
    (pFunc : HookHandlerFn) : M unit :=
  modify (set_hooks (alter (fun h =>
    if decide ((eType, pFunc) ∈ m_hookHandler h) then h
    else mkCHook (m_pFunc h) (m_pTrampoline h) (m_eConvention h) (m_szParams h)
           (m_hookHandler h ++ [(eType, pFunc)])) pHook)).

(** The call VM. *)
Definition dcReset : M unit :=
  modify (set_vm (fun vm => mkVM (vm_mode vm) [])).
Definition dcMode (mode : Convention_t) : M unit :=
  modify (set_vm (fun vm => mkVM (Some mode) (vm_args vm))).
Definition dcArg (a : DCarg) : M unit :=
  modify (set_vm (fun vm => mkVM (vm_mode vm) (vm_args vm ++ [a]))).

Definition long_bits : Z := 8 * Z.pos sizeof_ulong.

Definition dcArgBool (v : Z) : M unit := dcArg (dcBool v).
Definition dcArgChar (v : Z) : M unit := dcArg (dcChar (to_signed 8 v)).
Definition dcArgShort (v : Z) : M unit := dcArg (dcShort (to_signed 16 v)).
Definition dcArgInt (v : Z) : M unit := dcArg (dcInt (to_signed 32 v)).
Definition dcArgLong (v : Z) : M unit := dcArg (dcLong (to_signed long_bits v)).
Definition dcArgLongLong (v : Z) : M unit := dcArg (dcLongLong (to_signed 64 v)).
Definition dcArgFloat (v : Z) : M unit := dcArg (dcFloat v).
Definition dcArgDouble (v : Z) : M unit := dcArg (dcDouble v).
Definition dcArgPointer (v : Z) : M unit := dcArg (dcPointer v).

(** [dcCall*(g_pCallVM, target)]: the native call is recorded with the
    VM it was made from.  What the native code does to memory, or to the
    hooks, while it runs is outside this embedding; only its result is
    taken. *)
Definition dcCall (kind : DCcall) (target : Z) : M Z :=
  fun s => (Returns (native_result kind (g_pCallVM s) target),
            set_native_calls (fun l => l ++ [(kind, g_pCallVM s, target)]) s).

(** [extract<T>(arg)]. *)
Definition extract_as (t : ctype) (arg : pyvalue) : M Z :=
  match extract t arg with
  | Some v => ret v
  | None => fun s => (Raises conversion_error, s)
  end.

(** [ExtractPyPtr(arg)] on an argument of [Call]. *)
Definition ExtractPyPtr_arg (arg : pyvalue) : M Z :=
  match arg with
  | PyAddressLike o => ExtractPyPtr o
  | PyOpaque _ => fun s => (Raises conversion_error, s)
  end.
End CFunction_methods.

(** ** CFunction *)

Section CFunction_class.
Context `{Arch} `{Native}.

Definition tag_is (t c : ascii) : bool := Ascii.eqb t c.

(** The body of the argument loop of [CFunction::Call]: the [switch] on
    [m_Args[i]] for the argument [arg = args[i]]. *)
Definition Call_push_arg (t : Argument_t) (arg : pyvalue) : M unit :=
  if tag_is t DC_SIGCHAR_BOOL then v <- extract_as c_bool arg ;; dcArgBool v
  else if tag_is t DC_SIGCHAR_CHAR then v <- extract_as c_char arg ;; dcArgChar v
  else if tag_is t DC_SIGCHAR_UCHAR then v <- extract_as c_uchar arg ;; dcArgChar v
  else if tag_is t DC_SIGCHAR_SHORT then v <- extract_as c_short arg ;; dcArgShort v
  else if tag_is t DC_SIGCHAR_USHORT then v <- extract_as c_ushort arg ;; dcArgShort v
  else if tag_is t DC_SIGCHAR_INT then v <- extract_as c_int arg ;; dcArgInt v
  else if tag_is t DC_SIGCHAR_UINT then v <- extract_as c_uint arg ;; dcArgInt v
  else if tag_is t DC_SIGCHAR_LONG then v <- extract_as c_long arg ;; dcArgLong v
  else if tag_is t DC_SIGCHAR_ULONG then v <- extract_as c_ulong arg ;; dcArgLong v
  else if tag_is t DC_SIGCHAR_LONGLONG then v <- extract_as c_longlong arg ;; dcArgLongLong v
  else if tag_is t DC_SIGCHAR_ULONGLONG then v <- extract_as c_ulonglong arg ;; dcArgLongLong v
  else if tag_is t DC_SIGCHAR_FLOAT then v <- extract_as c_float arg ;; dcArgFloat v
  else if tag_is t DC_SIGCHAR_DOUBLE then v <- extract_as c_double arg ;; dcArgDouble v
  else if tag_is t DC_SIGCHAR_POINTER then v <- ExtractPyPtr_arg arg ;; dcArgPointer v
  else if tag_is t DC_SIGCHAR_STRING then v <- extract_as c_string arg ;; dcArgPointer v
  else BOOST_RAISE_EXCEPTION PyExc_ValueError "Unknown argument type.".

(** The loop [for (i = 0; i < len(args); i++)] over [args[i]] and
    [m_Args[i]]; it is entered with both of the same length. *)
Fixpoint Call_push_args (args : list pyvalue) (tags : list Argument_t) : M unit :=
  match args, tags with
  | arg :: args', t :: tags' => Call_push_arg t arg ;;; Call_push_args args' tags'
  | _, _ => ret tt
  end.

(** [object(c)] for a [char]: a Python [str] of the one byte, which has to
    be ASCII to be UTF-8. *)
Definition object_of_char (v : Z) : M pyresult :=
  if to_unsigned 8 v <? 128 then ret (PyOf c_char v)
  else fun s => (Raises decoding_error, s).

(** [object(p)] for a [const char*]: [None] for the NULL pointer, else a
    Python [str] decoded from the C string at [p]. *)
Definition object_of_string (v : Z) : M pyresult :=
  if v =? 0 then ret PyNone
  else if valid_utf8 v then ret (PyOf c_string v)
  else fun s => (Raises decoding_error, s).

(** The [switch (m_ReturnType)] that performs the call and builds the
    Python object of its result. *)
Definition Call_invoke (target : Z) (r : ReturnType_t) : M pyresult :=
  if tag_is r DC_SIGCHAR_VOID then dcCall dcCallVoid target ;;; ret PyNone
  else if tag_is r DC_SIGCHAR_BOOL then v <- dcCall dcCallBool target ;; ret (PyOf c_bool v)
  else if tag_is r DC_SIGCHAR_CHAR then v <- dcCall dcCallChar target ;; object_of_char v
  else if tag_is r DC_SIGCHAR_UCHAR then
    v <- dcCall dcCallChar target ;; ret (PyOf c_uchar (to_unsigned 8 v))
  else if tag_is r DC_SIGCHAR_SHORT then v <- dcCall dcCallShort target ;; ret (PyOf c_short v)
  else if tag_is r DC_SIGCHAR_USHORT then
    v <- dcCall dcCallShort target ;; ret (PyOf c_ushort (to_unsigned 16 v))
  else if tag_is r DC_SIGCHAR_INT then v <- dcCall dcCallInt target ;; ret (PyOf c_int v)
  else if tag_is r DC_SIGCHAR_UINT then
    v <- dcCall dcCallInt target ;; ret (PyOf c_uint (to_unsigned 32 v))
  else if tag_is r DC_SIGCHAR_LONG then v <- dcCall dcCallLong target ;; ret (PyOf c_long v)
  else if tag_is r DC_SIGCHAR_ULONG then
    v <- dcCall dcCallLong target ;; ret (PyOf c_ulong (to_unsigned long_bits v))
  else if tag_is r DC_SIGCHAR_LONGLONG then
    v <- dcCall dcCallLongLong target ;; ret (PyOf c_longlong v)
  else if tag_is r DC_SIGCHAR_ULONGLONG then
    v <- dcCall dcCallLongLong target ;; ret (PyOf c_ulonglong (to_unsigned 64 v))
  else if tag_is r DC_SIGCHAR_FLOAT then v <- dcCall dcCallFloat target ;; ret (PyOf c_float v)
  else if tag_is r DC_SIGCHAR_DOUBLE then v <- dcCall dcCallDouble target ;; ret (PyOf c_double v)
  else if tag_is r DC_SIGCHAR_POINTER then
    v <- dcCall dcCallPointer target ;; p <- new_CPointer v ;; ret (PyPointerObject p)
  else if tag_is r DC_SIGCHAR_STRING then
    v <- dcCall dcCallPointer target ;; object_of_string v
  else BOOST_RAISE_EXCEPTION PyExc_TypeError "Unknown return type.".

(** [object CFunction::Call(tuple args, dict kw)]. *)
Definition Call (this : CFunction) (args : list pyvalue) : M pyresult :=
  if negb (IsValid (as_CPointer this))
  then BOOST_RAISE_EXCEPTION PyExc_ValueError "Function pointer is NULL."
  else if negb (length args =? length (m_Args this))%nat
  then BOOST_RAISE_EXCEPTION PyExc_ValueError
         "Number of passed arguments is not equal to the required number."
  else
    dcReset ;;;
    dcMode (m_eConv this) ;;;
    Call_push_args args (m_Args this) ;;;
    Call_invoke (f_ulAddr this) (m_ReturnType this).

(** [object CFunction::CallTrampoline(tuple args, dict kw)]. *)
Definition CallTrampoline (this : CFunction) (args : list pyvalue) : M pyresult :=
  if negb (IsValid (as_CPointer this))
  then BOOST_RAISE_EXCEPTION PyExc_ValueError "Function pointer is NULL."
  else
    pHook <- FindHook (f_ulAddr this) ;;
    match pHook with
    | None => BOOST_RAISE_EXCEPTION PyExc_ValueError "Function was not hooked."
    | Some (_, hook) =>
        Call (CFunction_new (m_pTrampoline hook) (m_eConv this) (m_Args this)
                (m_ReturnType this)) args
    end.

(** The string the Python lambda of [AddHook] builds:
    [''.join(map(chr, args)) + ')' + chr(ret)]. *)
Definition signature_string (args : list Argument_t) (r : ReturnType_t) : string :=
  string_of_list_ascii (args ++ [")"%char; r]).

(** [handle<> CFunction::AddHook(HookType_t eType, PyObject* pCallable)]. *)
Definition AddHook (this : CFunction) (eType : HookType_t) (pCallable : PyObject)
    : M PyObject :=
  if negb (IsValid (as_CPointer this))
  then BOOST_RAISE_EXCEPTION PyExc_ValueError "Function pointer is NULL."
  else
    let szParams := signature_string (m_Args this) (m_ReturnType this) in
    puts szParams ;;;
    pHook <- HookFunction (f_ulAddr this) (m_eConv this) szParams ;;
    AddCallback pHook eType SP_HookHandler ;;;
    modify (set_callbacks (update_callbacks pHook eType (fun l => l ++ [pCallable]))) ;;;
    ret pCallable.

(** [void CFunction::RemoveHook(HookType_t eType, PyObject* pCallable)]. *)
Definition RemoveHook (this : CFunction) (eType : HookType_t) (pCallable : PyObject)
    : M unit :=
  if negb (IsValid (as_CPointer this))
  then BOOST_RAISE_EXCEPTION PyExc_ValueError "Function pointer is NULL."
  else
    pHook <- FindHook (f_ulAddr this) ;;
    match pHook with
    | None => ret tt
    | Some (h, _) =>
        modify (set_callbacks (update_callbacks h eType (list_remove pCallable)))
    end.
End CFunction_class.

(** ** The CPointer interface as a whole *)

(** One constructor per method of [CPointer], with its arguments. *)
Inductive method :=
  | m_IsValid
  | m_SetStringPtr (szText : list Z) (iOffset : Z)
  | m_GetStringArray (iOffset : Z)
  | m_SetStringArray (szText : list Z) (iOffset : Z)
  | m_GetPtr (iOffset : Z)
  | m_SetPtr (ptr : ref) (iOffset : Z)
  | m_Compare (oOther : object) (ulNum : Z)
  | m_IsOverlapping (oOther : object) (ulNumBytes : Z)
  | m_SearchBytes (oBytes : list Z) (ulNumBytes : Z)
  | m_Copy (oDest : object) (ulNumBytes : Z)
  | m_Move (oDest : object) (ulNumBytes : Z)
  | m_GetVirtualFunc (iIndex : Z)
  | m_MakeFunction (eConv : Convention_t) (args : list Argument_t) (return_type : ReturnType_t)
  | m_MakeVirtualFunction (iIndex : Z) (eConv : Convention_t) (args : list Argument_t)
      (return_type : ReturnType_t).

(** What a method hands back. *)
Inductive value :=
  | VVoid
  | VBool (b : bool)
  | VInt (z : Z)
  | VCharPtr (a : Z)
  | VPointer (p : option ref)
  | VFunction (f : ref).

Section Invoke.
Context `{Arch}.

Definition returning {A} (f : A -> value) (c : M A) : M value :=
  a <- c ;; ret (f a).

Definition invoke (m : method) (this : ref) : M value :=
  match m with
  | m_IsValid => returning VBool (self <- deref this ;; ret (IsValid self))
  | m_SetStringPtr szText iOffset =>
      returning (fun _ => VVoid) (SetStringPtr this szText iOffset)
  | m_GetStringArray iOffset => returning VCharPtr (GetStringArray this iOffset)
  | m_SetStringArray szText iOffset =>
      returning (fun _ => VVoid) (SetStringArray this szText iOffset)
  | m_GetPtr iOffset => returning (fun r => VPointer (Some r)) (GetPtr this iOffset)
  | m_SetPtr ptr iOffset => returning (fun _ => VVoid) (SetPtr this ptr iOffset)
  | m_Compare oOther ulNum => returning VInt (Compare this oOther ulNum)
  | m_IsOverlapping oOther ulNumBytes =>
      returning VBool (IsOverlapping this oOther ulNumBytes)
  | m_SearchBytes oBytes ulNumBytes =>
      returning VPointer (SearchBytes this oBytes ulNumBytes)
  | m_Copy oDest ulNumBytes => returning (fun _ => VVoid) (Copy this oDest ulNumBytes)
  | m_Move oDest ulNumBytes => returning (fun _ => VVoid) (Move this oDest ulNumBytes)
  | m_GetVirtualFunc iIndex =>
      returning (fun r => VPointer (Some r)) (GetVirtualFunc this iIndex)
  | m_MakeFunction eConv args return_type =>
      returning VFunction (MakeFunction this eConv args return_type)
  | m_MakeVirtualFunction iIndex eConv args return_type =>
      returning VFunction (MakeVirtualFunction this iIndex eConv args return_type)
  end.
End Invoke.

(** The methods that begin with a test of the address they are invoked on.
    [IsValid] is that test; [IsOverlapping] computes on the two addresses
    and has none. *)
Definition checks_validity (m : method) : bool :=
  match m with
  | m_IsValid | m_IsOverlapping _ _ => false
  | _ => true
  end.

(** The address an object of the store wraps. *)
Definition address_of (s : state) (r : ref) : Z :=
  m_ulAddr (default CPointer_default (pointers s !! r)).

(** The address an address-like object stands for. *)
Definition address_like (s : state) (o : object) : Z :=
  match o with
  | PyCPointer r => address_of s r
  | PyLong z => z
  end.

(** The byte of memory at an address. *)
Definition byte_at (s : state) (a : Z) : Z := default 0 (mem s !! a).

(** The half-open byte ranges [[a, a+n)] and [[b, b+n)] intersect. *)
Definition ranges_intersect (a b n : Z) : Prop :=
  exists x, (a <= x < a + n) /\ (b <= x < b + n).

(** Removal of the first element equal to [value] only. *)
Fixpoint remove_first (value : PyObject) (l : list PyObject) : list PyObject :=
  match l with
  | [] => []
  | x :: rest => if decide (x = value) then rest else x :: remove_first value rest
  end.

(** ** Vocabulary of the statements *)

(** [c] always returns, and changes nothing but the bytes of memory and the
    access trace. *)
Definition memory_only {A} (c : M A) : Prop :=
  forall s, exists a m tr,
    c s = (Returns a, set_accesses (fun _ => tr) (set_mem (fun _ => m) s)).

(** The little-endian number held by [n] bytes of a memory from [a] on. *)
Fixpoint word_at (m : gmap Z Z) (n : nat) (a : Z) : Z :=
  match n with
  | O => 0
  | S k => default 0 (m !! a) + 256 * word_at m k (a + 1)
  end.

(** The memory after [n] bytes of [v] were stored from [a] on. *)
Fixpoint word_stored (n : nat) (a v : Z) (m : gmap Z Z) : gmap Z Z :=
  match n with
  | O => m
  | S k => word_stored k (a + 1) (v / 256) (<[a := v mod 256]> m)
  end.

(** [c] leaves every object of the store as it is and at most allocates
    new ones behind them. *)
Definition grows {A} (c : M A) : Prop :=
  forall s, pointers s `prefix_of` pointers (snd (c s)).

(** A pointer handle that [c] returns (seen through [proj]) was allocated
    by [c]. *)
Definition fresh_by {A} (proj : A -> option ref) (c : M A) : Prop :=
  forall s a r, fst (c s) = Returns a -> proj a = Some r ->
    (length (pointers s) <= r < length (pointers (snd (c s))))%nat.

(** The pointer a result carries, if any. *)
Definition returned_pointer (v : value) : option ref :=
  match v with
  | VPointer p => p
  | _ => None
  end.

(** The outcome is not the argument-count error. *)
Definition no_count_error {A} (o : outcome A) : Prop :=
  ~ raises_condition o ArgumentCountMismatch.

(** ** Objects in memory *)

(** The [CPointer] objects of the store are C++ objects: each occupies
    memory, and [m_ulAddr] is a machine word of it.  A [layout] gives, for
    the objects that lie in the bytes of [mem], the address of that word;
    an object without an entry lies elsewhere in the process. *)
Definition layout := gmap nat Z.

Section Resident.
Context `{Arch}.

(** For an object that lies in memory, the field and the word at its
    address are one and the same. *)
Definition coherent (lay : layout) (s : state) : Prop :=
  forall (r : nat) (a : Z), lay !! r = Some a ->
    exists p, pointers s !! r = Some p /\
              m_ulAddr p = word_at (mem s) (Pos.to_nat sizeof_ulong) a.

(** The objects as the bytes of memory have them. *)
Definition reload (lay : layout) (s : state) : state :=
  set_pointers
    (imap (fun (r : nat) p => match lay !! r with
                      | Some a => CPointer_new (word_at (mem s) (Pos.to_nat sizeof_ulong) a)
                      | None => p
                      end)) s.

(** A call on objects that lie in memory.  Every method of [CPointer]
    reads the fields of [this] and of its arguments before its first store
    ([strcpy], [memcpy], [memmove] and the assignment of [SetPtr] come
    last, with their arguments evaluated), so what the stores did to the
    objects shows when the method is left. *)
Definition resident {A} (lay : layout) (c : M A) : M A :=
  fun s => let (o, s') := c s in (o, reload lay s').
End Resident.

(** The methods that store to memory. *)
Definition writes_memory (m : method) : bool :=
  match m with
  | m_SetStringPtr _ _ | m_SetStringArray _ _ | m_SetPtr _ _
  | m_Copy _ _ | m_Move _ _ => true
  | _ => false
  end.

(** What [c] does to memory is in its access trace: the accesses of [c] are
    put in front of the trace, a byte that no store of them names keeps its
    value, and with [w = false] there is no store among them. *)
Definition effect (w : bool) {A} (c : M A) : Prop :=
  forall s, exists tr,
    accesses (snd (c s)) = tr ++ accesses s /\
    (forall x, Store x ∉ tr -> mem (snd (c s)) !! x = mem s !! x) /\
    (w = false -> forall x, Store x ∉ tr).

(** ** Concrete settings for evaluation *)

Definition ILP32 : Arch := {| sizeof_ulong := 4 |}.
Definition LP64 : Arch := {| sizeof_ulong := 8 |}.

(** A native side for evaluation: Python integers convert to every C
    type, nothing else converts; native code returns the number of pushed
    arguments; the strings it hands back are UTF-8 except at the address 2;
    the trampoline of a function sits 4096 bytes above it. *)
Definition sample_native : Native := {|
  extract := fun _ v => match v with PyAddressLike (PyLong z) => Some z | _ => None end;
  native_result := fun _ vm _ => Z.of_nat (length (vm_args vm));
  valid_utf8 := fun a => negb (a =? 2);
  alloc_trampoline := fun a => a + 4096
|}.

(** A store with pointers to 0x1000, 0x2000 and NULL over empty memory. *)
Definition sample_state : state :=
  set_pointers (fun _ => [CPointer_new 4096; CPointer_new 8192; CPointer_new 0])
    (initial_state ∅).

(** The same store over a memory whose byte at 0x1000 is 0x2A. *)
Definition asterisk_state : state := set_mem (fun _ => {[4096 := 42]}) sample_state.

(** Two pointer objects on 32-bit words: the first lies in memory at
    0x3000 and points to 0x1000, where the word 0x2000 is stored; the
    second lies elsewhere and points to 0x3000, the first object. *)
Definition resident_layout : layout := {[ 0%nat := 12288 ]}.

Definition resident_state : state :=
  set_mem (fun _ => word_stored 4 12288 4096 (word_stored 4 4096 8192 ∅))
    (set_pointers (fun _ => [CPointer_new 4096; CPointer_new 12288]) (initial_state ∅)).

(** A function at 0x4000 taking [(int, pointer)] and returning [int]. *)
Definition sample_function : CFunction :=
  CFunction_new 16384 CONV_CDECL [DC_SIGCHAR_INT; DC_SIGCHAR_POINTER] DC_SIGCHAR_INT.

(** The registry after the handle 7 was hooked twice, before the call, on
    the sample function. *)
Definition hooked_twice : state :=
  snd (@AddHook sample_native sample_function HOOKTYPE_PRE 7
         (snd (@AddHook sample_native sample_function HOOKTYPE_PRE 7 sample_state))).

(** ** Vocabulary of the further properties *)

(** The [n] bytes a memory holds from [a] on. *)
Fixpoint bytes_at (m : gmap Z Z) (n : nat) (a : Z) : list Z :=
  match n with
  | O => []
  | S k => default 0 (m !! a) :: bytes_at m k (a + 1)
  end.

(** The memory after the bytes [bs] were stored from [a] on. *)
Fixpoint bytes_stored (bs : list Z) (a : Z) (m : gmap Z Z) : gmap Z Z :=
  match bs with
  | [] => m
  | b :: rest => bytes_stored rest (a + 1) (<[a := b mod 256]> m)
  end.

(** Every cell of the memory holds a byte. *)
Definition memory_bytes (s : state) : Prop :=
  map_Forall (fun _ v => 0 <= v < 256) (mem s).

(** [c] always returns, and changes nothing but the access trace. *)
Definition read_only {A} (c : M A) : Prop :=
  forall s, exists a tr, c s = (Returns a, set_accesses (fun _ => tr) s).

(** The window of memory at [p] is one the inner loop of [SearchBytes] runs
    through for the pattern [bytes]. *)
Definition window_accepted (s : state) (bytes : list Z) (p : Z) : Prop :=
  forall (k : nat) b, bytes !! k = Some b ->
    byte_at s (p + Z.of_nat k) = 42 \/ b = byte_at s (p + Z.of_nat k).

(** The entry [iIndex] of the virtual table of the object at [a]: the word
    at [a] is the address of the table, the entries are words; 0 where the
    object has no table. *)
Definition vtable_entry `{Arch} (m : gmap Z Z) (a iIndex : Z) : Z :=
  let vtable := word_at m (Pos.to_nat sizeof_ulong) a in
  if vtable =? 0 then 0
  else word_at m (Pos.to_nat sizeof_ulong) (vtable + iIndex * Z.pos sizeof_ulong).

(** The tags [CFunction::Call] has a case for: as a parameter, and as the
    return type. *)
Definition supported_argument (t : Argument_t) : bool :=
  existsb (Ascii.eqb t)
    [DC_SIGCHAR_BOOL; DC_SIGCHAR_CHAR; DC_SIGCHAR_UCHAR; DC_SIGCHAR_SHORT;
     DC_SIGCHAR_USHORT; DC_SIGCHAR_INT; DC_SIGCHAR_UINT; DC_SIGCHAR_LONG;
     DC_SIGCHAR_ULONG; DC_SIGCHAR_LONGLONG; DC_SIGCHAR_ULONGLONG; DC_SIGCHAR_FLOAT;
     DC_SIGCHAR_DOUBLE; DC_SIGCHAR_POINTER; DC_SIGCHAR_STRING].

Definition supported_return (t : ReturnType_t) : bool :=
  Ascii.eqb t DC_SIGCHAR_VOID || supported_argument t.

(** The exceptions that leave [CFunction::Call]. *)
Definition Call_exceptions : list exn :=
  [PyErr PyExc_ValueError "Function pointer is NULL.";
   PyErr PyExc_ValueError "Number of passed arguments is not equal to the required number.";
   PyErr PyExc_ValueError "Unknown argument type.";
   PyErr PyExc_TypeError "Unknown return type.";
   conversion_error;
   decoding_error].

(** Between [s] and [s'] one native call was made: to the address of the
    function, in its convention, from a call VM that holds one argument per
    argument of [args]. *)
Definition one_native_call (this : CFunction) (args : list pyvalue) (s s' : state)
    : Prop :=
  exists kind vm,
    native_calls s' = native_calls s ++ [(kind, vm, f_ulAddr this)] /\
    vm_mode vm = Some (m_eConv this) /\
    length (vm_args vm) = length args.

(** A function at 0x4000 taking [(int, pointer)] and returning a C
    string. *)
Definition string_function : CFunction :=
  CFunction_new 16384 CONV_CDECL [DC_SIGCHAR_INT; DC_SIGCHAR_POINTER] DC_SIGCHAR_STRING.

(** The exceptions that pushing an argument can end in. *)
Definition marshalling_exceptions : list exn :=
  [PyErr PyExc_ValueError "Unknown argument type."; conversion_error].

(** What one step of marshalling does to the state: no native call is made,
    the mode of the call VM stays, and when the step returns, [k] arguments
    were appended to those of the VM. *)
Definition pushes (k : nat) (c : M unit) : Prop :=
  forall s,
    native_calls (snd (c s)) = native_calls s /\
    vm_mode (g_pCallVM (snd (c s))) = vm_mode (g_pCallVM s) /\
    (forall e, fst (c s) = Raises e -> e ∈ marshalling_exceptions) /\
    (fst (c s) = Returns tt ->
       exists new, vm_args (g_pCallVM (snd (c s))) = vm_args (g_pCallVM s) ++ new /\
                   length new = k).

(** * Properties *)

(** ** Running computations *)

Lemma bind_returns {A B} (c : M A) (k : A -> M B) s a s' :
  c s = (Returns a, s') -> bind c k s = k a s'.
Proof. unfold bind. by intros ->. Qed.

Lemma bind_raises {A B} (c : M A) (k : A -> M B) s e s' :
  c s = (Raises e, s') -> bind c k s = (Raises e, s').
Proof. unfold bind. by intros ->. Qed.

Lemma deref_run r s : deref r s = (Returns (mkCPointer (address_of s r)), s).
Proof.
  unfold deref, gets, address_of.
  by destruct (default CPointer_default (pointers s !! r)).
Qed.

Lemma ExtractPyPtr_run o s : ExtractPyPtr o s = (Returns (address_like s o), s).
Proof.
  destruct o as [r|z]; simpl; [|done].
  by rewrite (bind_returns _ _ _ _ _ (deref_run r s)).
Qed.

Ltac run_prefix :=
  repeat first
    [ rewrite (bind_returns _ _ _ _ _ (ExtractPyPtr_run _ _))
    | rewrite (bind_returns _ _ _ _ _ (deref_run _ _)) ];
  cbn beta iota delta [m_ulAddr].

Section Word_facts.
Context `{Arch}.

Lemma ULONG_MOD_ge : 256 <= ULONG_MOD.
Proof.
  unfold ULONG_MOD.
  change 256 with (256 ^ 1) at 1.
  apply Z.pow_le_mono_r; lia.
Qed.

Lemma ulong_small z : 0 <= z < ULONG_MOD -> ulong z = z.
Proof. intros. unfold ulong. by apply Z.mod_small. Qed.

End Word_facts.

(** ** Validity checks (C4) *)

Section Validity.
Context `{Arch}.

Lemma IsOverlapping_run this oOther n s :
  IsOverlapping this oOther n s =
    (Returns (if address_of s this <=? address_like s oOther
              then ulong (address_of s this + n) >? address_like s oOther
              else ulong (address_like s oOther + n) >? address_of s this), s).
Proof.
  unfold IsOverlapping. run_prefix.
  by destruct (address_of s this <=? address_like s oOther).
Qed.

Lemma returning_raises {A} (f : A -> value) (c : M A) s e cond :
  c s = (Raises e, s) -> condition_of e = Some cond ->
  raises_condition (fst (returning f c s)) cond /\ snd (returning f c s) = s.
Proof.
  intros Hc He. unfold returning.
  rewrite (bind_raises _ _ _ _ _ Hc). by split.
Qed.

(** C4, as amended: on a pointer whose address is 0, every method that
    tests the address it is invoked on (all but [IsValid] and
    [IsOverlapping]) raises the NULL-pointer error and leaves the whole
    state, memory and access trace included, as it was; [IsOverlapping]
    has no such test and returns a boolean, also without touching
    memory. *)
Theorem null_pointer_rejected (m : method) (this : ref) (s : state) :
  address_of s this = 0 ->
  (checks_validity m = true ->
     raises_condition (fst (invoke m this s)) InvalidPointer /\
     snd (invoke m this s) = s) /\
  (forall oOther n, m = m_IsOverlapping oOther n ->
     exists b, invoke m this s = (Returns (VBool b), s)).
Proof.
  intros Hnull. split.
  - intros Hchk.
    destruct m; try discriminate Hchk; cbn [invoke];
      (eapply returning_raises;
       [ unfold SetStringPtr, GetStringArray, SetStringArray, GetPtr, SetPtr,
           Compare, SearchBytes, Copy, Move, MakeFunction, MakeVirtualFunction;
         try (erewrite (bind_raises (GetVirtualFunc _ _)); [reflexivity|]);
         unfold GetVirtualFunc, IsValid;
         run_prefix; rewrite Hnull; reflexivity
       | reflexivity ]).
  - intros oOther n ->. cbn [invoke]. unfold returning.
    rewrite (bind_returns _ _ _ _ _ (IsOverlapping_run _ _ _ _)).
    by eexists.
Qed.
End Validity.

(** C4, as stated, fails on [IsOverlapping]: invoked on the NULL pointer of
    the sample store it returns [false] and raises nothing. *)
Lemma IsOverlapping_on_null_returns :
  address_of sample_state 2%nat = 0 /\
  @invoke ILP32 (m_IsOverlapping (PyCPointer 1%nat) 4) 2%nat sample_state =
    (Returns (VBool false), sample_state) /\
  ~ raises_condition
      (fst (@invoke ILP32 (m_IsOverlapping (PyCPointer 1%nat) 4) 2%nat sample_state))
      InvalidPointer.
Proof. repeat split. vm_compute. tauto. Qed.

(** A witness of C4: [GetPtr(8)] on the NULL pointer of the sample store. *)
Lemma null_pointer_rejected_witness :
  raises_condition (fst (@invoke ILP32 (m_GetPtr 8) 2%nat sample_state)) InvalidPointer /\
  snd (@invoke ILP32 (m_GetPtr 8) 2%nat sample_state) = sample_state.
Proof.
  apply (@null_pointer_rejected ILP32 (m_GetPtr 8) 2%nat sample_state); reflexivity.
Defined.

(** ** SearchBytes (C2, C8) *)

Section Search.
Context `{Arch}.

Lemma load_byte_run a s :
  load_byte a s = (Returns (byte_at s a), set_accesses (cons (Load a)) s).
Proof. reflexivity. Qed.

(** The inner loop always runs to an index; it never raises. *)
Lemma SearchBytes_for_total bytes base i s :
  exists j s', SearchBytes_for bytes base i s = (Returns j, s').
Proof.
  revert i s. induction bytes as [|b rest IH]; intros i s; cbn [SearchBytes_for].
  - by eexists _, _.
  - rewrite (bind_returns _ _ _ _ _ (load_byte_run _ _)).
    destruct (byte_at s (base + i) =? 42); [apply IH|].
    destruct (negb (b =? byte_at s (base + i))); [by eexists _, _|apply IH].
Qed.

(** What the inner loop accepts: it runs to the end of the pattern exactly
    when every memory byte is 0x2A or equal to its pattern byte. *)
Lemma SearchBytes_for_accepts bytes base i s :
  fst (SearchBytes_for bytes base i s) = Returns (i + Z.of_nat (length bytes)) <->
  (forall (k : nat) b, bytes !! k = Some b ->
     byte_at s (base + i + Z.of_nat k) = 42 \/ b = byte_at s (base + i + Z.of_nat k)).
Proof.
  revert i s. induction bytes as [|b rest IH]; intros i s; cbn [SearchBytes_for].
  - cbn. rewrite Z.add_0_r. split; [intros _ k b Hk; by destruct k|done].
  - rewrite (bind_returns _ _ _ _ _ (load_byte_run _ _)).
    assert (Hstep : forall P : nat -> Z -> Prop,
              (forall (k : nat) c, (b :: rest) !! k = Some c -> P k c) <->
              P 0%nat b /\ (forall (k : nat) c, rest !! k = Some c -> P (S k) c)).
    { intros P. split.
      - intros HP. split; [by apply HP|]. intros k c Hk. by apply (HP (S k)).
      - intros [H0 HS] [|k] c Hk; cbn in Hk; [by simplify_eq|by apply HS]. }
    rewrite Hstep. rewrite Z.add_0_r.
    replace (i + Z.of_nat (length (b :: rest)))
      with (i + 1 + Z.of_nat (length rest)) by (cbn [length]; lia).
    assert (Hshift : forall k : nat, base + i + Z.of_nat (S k) = base + (i + 1) + Z.of_nat k)
      by (intros; lia).
    setoid_rewrite Hshift.
    destruct (Z.eqb_spec (byte_at s (base + i)) 42) as [Hstar|Hplain].
    + rewrite IH. cbn [byte_at set_accesses mem]. tauto.
    + destruct (Z.eqb_spec b (byte_at s (base + i))) as [Heq|Hne]; cbn [negb].
      * rewrite IH. cbn [byte_at set_accesses mem]. tauto.
      * cbn. split; [intros ?; simplify_eq; lia|]. intros [[?|?] _]; done.
Qed.

(** The scan always comes back with a pointer or with NULL. *)
Lemma SearchBytes_while_total n bytes iByteLen base s :
  exists r s', SearchBytes_while n bytes iByteLen base s = (Returns r, s').
Proof.
  revert base s. induction n as [|k IH]; intros base s; cbn [SearchBytes_while].
  - by eexists _, _.
  - destruct (SearchBytes_for_total bytes base 0 s) as (j & s1 & Hj).
    rewrite (bind_returns _ _ _ _ _ Hj).
    destruct (j =? iByteLen); [|apply IH].
    unfold bind, new_CPointer. by eexists _, _.
Qed.

(** C8: on a valid pointer, [SearchBytes] fails with the range-too-small
    error exactly when the search length is smaller than the length of
    the pattern, and then nothing of the state has changed: no byte of
    memory was read. *)
Theorem SearchBytes_range_too_small (this : ref) (oBytes : list Z) (n : Z) (s : state) :
  address_of s this <> 0 ->
  (raises_condition (fst (SearchBytes this oBytes n s)) RangeTooSmall <->
     n < Z.of_nat (length oBytes)) /\
  (n < Z.of_nat (length oBytes) -> snd (SearchBytes this oBytes n s) = s).
Proof.
  intros Hvalid. unfold SearchBytes. run_prefix.
  apply Z.eqb_neq in Hvalid. rewrite Hvalid.
  destruct (Z.ltb_spec n (Z.of_nat (length oBytes))) as [Hlt|Hge].
  - by repeat split.
  - destruct (SearchBytes_while_total
                (Z.to_nat
                   (ulong (ulong (address_of s this + n)
                           - ulong (Z.of_nat (length oBytes) - 1))
                    - address_of s this))
                oBytes (Z.of_nat (length oBytes)) (address_of s this) s)
      as (r & s' & Hrun).
    rewrite Hrun. cbn. split; [split|]; [done|lia|lia].
Qed.
End Search.

(** C2, at the failing input: the memory byte at the pointer is 0x00 and the
    pattern is the single wildcard byte 0x2A, searched over one byte.  The
    code tests the memory byte, not the pattern byte, against 0x2A, so the
    all-wildcard pattern is not found: the result is NULL, on 32-bit and on
    64-bit words alike.  The other way round, a memory byte 0x2A is taken
    for a match of the pattern byte 0x07. *)
Theorem SearchBytes_wildcard_pattern_not_found :
  address_of sample_state 0%nat = 4096 /\
  byte_at sample_state 4096 = 0 /\
  fst (@SearchBytes ILP32 0%nat [42] 1 sample_state) = Returns None /\
  fst (@SearchBytes LP64 0%nat [42] 1 sample_state) = Returns None /\
  byte_at asterisk_state 4096 = 42 /\
  fst (@SearchBytes ILP32 0%nat [7] 1 asterisk_state) = Returns (Some 3%nat) /\
  address_of (snd (@SearchBytes ILP32 0%nat [7] 1 asterisk_state)) 3%nat = 4096.
Proof. repeat split; vm_compute; reflexivity. Qed.

(** A witness of C8: the pattern has three bytes, the range two. *)
Lemma SearchBytes_range_too_small_witness :
  raises_condition (fst (@SearchBytes ILP32 0%nat [1; 2; 3] 2 sample_state)) RangeTooSmall /\
  snd (@SearchBytes ILP32 0%nat [1; 2; 3] 2 sample_state) = sample_state.
Proof.
  assert (Hvalid : address_of sample_state 0%nat <> 0) by (vm_compute; discriminate).
  destruct (@SearchBytes_range_too_small ILP32 0%nat [1; 2; 3] 2 sample_state Hvalid)
    as [[_ Hraise] Hstate].
  split; [apply Hraise | apply Hstate]; simpl; lia.
Defined.

(** ** Computations that only touch raw memory *)

Lemma memory_only_ret {A} (a : A) : memory_only (ret a).
Proof. intros s. exists a, (mem s), (accesses s). by destruct s. Qed.

Lemma memory_only_bind {A B} (c : M A) (k : A -> M B) :
  memory_only c -> (forall a, memory_only (k a)) -> memory_only (bind c k).
Proof.
  intros Hc Hk s. destruct (Hc s) as (a & m & tr & Hrun).
  rewrite (bind_returns _ _ _ _ _ Hrun).
  destruct (Hk a (set_accesses (fun _ => tr) (set_mem (fun _ => m) s)))
    as (b & m' & tr' & Hrun').
  exists b, m', tr'. rewrite Hrun'. by destruct s.
Qed.

Lemma memory_only_load_byte a : memory_only (load_byte a).
Proof.
  intros s. exists (byte_at s a), (mem s), (Load a :: accesses s). by destruct s.
Qed.

Lemma memory_only_store_byte a v : memory_only (store_byte a v).
Proof.
  intros s. exists tt, (<[a := v mod 256]> (mem s)), (Store a :: accesses s).
  by destruct s.
Qed.

Create HintDb memory_only.
#[global] Hint Resolve memory_only_ret memory_only_load_byte memory_only_store_byte
  : memory_only.

Ltac memory_only_step :=
  lazymatch goal with
  | |- memory_only (bind _ _) => apply memory_only_bind; [|intros ?]
  | |- memory_only _ => solve [auto with memory_only]
  end.

Lemma memory_only_read_bytes n a : memory_only (read_bytes n a).
Proof.
  revert a. induction n as [|k IH]; intros a; cbn [read_bytes];
    repeat memory_only_step.
Qed.

Lemma memory_only_write_bytes bs a : memory_only (write_bytes bs a).
Proof.
  revert a. induction bs as [|b rest IH]; intros a; cbn [write_bytes];
    repeat memory_only_step.
Qed.

Lemma memory_only_load_le n a : memory_only (load_le n a).
Proof.
  revert a. induction n as [|k IH]; intros a; cbn [load_le];
    repeat memory_only_step.
Qed.

Lemma memory_only_store_le n a v : memory_only (store_le n a v).
Proof.
  revert a v. induction n as [|k IH]; intros a v; cbn [store_le];
    repeat memory_only_step.
Qed.

Lemma memory_only_memcmp p q n : memory_only (memcmp p q n).
Proof.
  revert p q. induction n as [|k IH]; intros p q; cbn [memcmp];
    repeat memory_only_step.
  destruct (_ =? _); repeat memory_only_step.
Qed.

#[global] Hint Resolve memory_only_read_bytes memory_only_write_bytes
  memory_only_load_le memory_only_store_le memory_only_memcmp : memory_only.

Lemma memory_only_memmove dst src n : memory_only (memmove dst src n).
Proof. unfold memmove. repeat memory_only_step. Qed.

Lemma memory_only_memcpy dst src n : memory_only (memcpy dst src n).
Proof. unfold memcpy. repeat memory_only_step. Qed.

Lemma memory_only_strcpy dst szText : memory_only (strcpy dst szText).
Proof. unfold strcpy. repeat memory_only_step. Qed.

#[global] Hint Resolve memory_only_memmove memory_only_memcpy memory_only_strcpy
  : memory_only.

Lemma memory_only_returns {A} (c : M A) s :
  memory_only c -> exists a s', c s = (Returns a, s') /\ pointers s' = pointers s.
Proof.
  intros Hc. destruct (Hc s) as (a & m & tr & Hrun).
  eexists _, _. split; [exact Hrun|]. by destruct s.
Qed.

(** ** Copy and Move (C1) *)

Section Copy_guard.
Context `{Arch}.

(** What the guard [!m_ulAddr || ulDest] of [Copy] does: any destination
    other than NULL is turned away with the NULL-pointer error. *)
Lemma Copy_nonnull_destination this oDest n s :
  address_like s oDest <> 0 ->
  Copy this oDest n s =
    (Raises (PyErr PyExc_ValueError "At least one pointer is NULL."), s).
Proof.
  intros Hd. unfold Copy. run_prefix.
  apply Z.eqb_neq in Hd. rewrite Hd.
  by rewrite orb_true_r.
Qed.

(** And a NULL destination passes the guard: with a valid source the
    NULL-pointer error is not raised for it. *)
Lemma Copy_null_destination this oDest n s :
  address_of s this <> 0 -> address_like s oDest = 0 ->
  ~ raises_condition (fst (Copy this oDest n s)) InvalidPointer.
Proof.
  intros Hsrc Hd. unfold Copy. run_prefix.
  apply Z.eqb_neq in Hsrc. rewrite Hsrc, Hd. cbn [orb negb Z.eqb].
  rewrite (bind_returns _ _ _ _ _ (IsOverlapping_run _ _ _ _)).
  match goal with |- context [if ?b then _ else _] => destruct b end; [by cbn|].
  destruct (memory_only_returns (memcpy 0 (address_of s this) (Z.to_nat n)) s)
    as (u & s' & -> & _); [auto with memory_only|].
  cbn. tauto.
Qed.

(** [Move] has the guard [!m_ulAddr || ulDest == 0] and goes through on
    two valid pointers. *)
Lemma Move_valid this oDest n s :
  address_of s this <> 0 -> address_like s oDest <> 0 ->
  fst (Move this oDest n s) = Returns tt.
Proof.
  intros Hsrc Hd. unfold Move. run_prefix.
  apply Z.eqb_neq in Hsrc, Hd. rewrite Hsrc, Hd. cbn [orb].
  destruct (memory_only_returns (memmove (address_like s oDest) (address_of s this)
                                   (Z.to_nat n)) s)
    as ([] & s' & -> & _); [auto with memory_only|done].
Qed.
End Copy_guard.

(** C1, at the failing input: source 0x1000, destination 0x2000, four bytes.
    Both addresses are non-zero and the ranges are disjoint, yet [Copy]
    raises "At least one pointer is NULL." and copies nothing; [Move] on
    the same input goes through, and so does [Copy] to the address 0. *)
Theorem Copy_fails_on_valid_pointers :
  address_of sample_state 0%nat = 4096 /\
  address_of sample_state 1%nat = 8192 /\
  @Copy ILP32 0%nat (PyCPointer 1%nat) 4 sample_state =
    (Raises (PyErr PyExc_ValueError "At least one pointer is NULL."), sample_state) /\
  raises_condition (fst (@Copy ILP32 0%nat (PyCPointer 1%nat) 4 sample_state))
    InvalidPointer /\
  fst (@IsOverlapping ILP32 0%nat (PyCPointer 1%nat) 4 sample_state) = Returns false /\
  fst (Move 0%nat (PyCPointer 1%nat) 4 sample_state) = Returns tt /\
  fst (@Copy ILP32 0%nat (PyLong 0) 4 sample_state) = Returns tt.
Proof. repeat split; vm_compute; reflexivity. Qed.

(** ** Machine words in memory (C3) *)

Lemma load_le_value n a s :
  fst (load_le n a s) = Returns (word_at (mem s) n a) /\
  mem (snd (load_le n a s)) = mem s /\
  pointers (snd (load_le n a s)) = pointers s.
Proof.
  revert a s. induction n as [|k IH]; intros a s; cbn [load_le word_at]; [done|].
  rewrite (bind_returns _ _ _ _ _ (eq_refl : load_byte a s = (_, _))).
  destruct (IH (a + 1) (set_accesses (cons (Load a)) s)) as (Hv & Hm & Hp).
  unfold bind.
  destruct (load_le k (a + 1) (set_accesses (cons (Load a)) s)) as [[hi|e] s1];
    cbn in Hv, Hm, Hp |- *; [|done].
  by simplify_eq.
Qed.

Lemma store_le_memory n a v s :
  fst (store_le n a v s) = Returns tt /\
  mem (snd (store_le n a v s)) = word_stored n a v (mem s) /\
  pointers (snd (store_le n a v s)) = pointers s.
Proof.
  revert a v s. induction n as [|k IH]; intros a v s; cbn [store_le word_stored]; [done|].
  rewrite (bind_returns _ _ _ _ _ (eq_refl : store_byte a (v mod 256) s = (_, _))).
  destruct (IH (a + 1) (v / 256)
              (set_accesses (cons (Store a)) (set_mem <[a := v mod 256 mod 256]> s)))
    as (Hr & Hm & Hp).
  rewrite Hr, Hm, Hp. cbn. by rewrite Z.mod_mod by lia.
Qed.

Lemma word_stored_below n a v m x :
  x < a -> word_stored n a v m !! x = m !! x.
Proof.
  revert a v m. induction n as [|k IH]; intros a v m Hx; cbn [word_stored]; [done|].
  rewrite IH by lia. apply lookup_insert_ne. lia.
Qed.

Lemma word_at_stored n a v m :
  word_at (word_stored n a v m) n a = v mod 256 ^ Z.of_nat n.
Proof.
  revert a v m. induction n as [|k IH]; intros a v m; cbn [word_at word_stored].
  - by rewrite Z.mod_1_r.
  - rewrite IH, word_stored_below, lookup_insert_eq by lia. cbn [default].
    rewrite Nat2Z.inj_succ, Z.pow_succ_r by lia.
    rewrite Z.rem_mul_r by lia. reflexivity.
Qed.

Section Pointer_round_trip.
Context `{Arch}.

Lemma ULONG_MOD_nat : 256 ^ Z.of_nat (Pos.to_nat sizeof_ulong) = ULONG_MOD.
Proof. unfold ULONG_MOD. by rewrite positive_nat_Z. Qed.

(** [SetPtr] never looks at its offset. *)
Lemma SetPtr_ignores_offset this ptr iOffset :
  SetPtr this ptr iOffset = SetPtr this ptr 0.
Proof. reflexivity. Qed.

(** At offset 0 the pair does round-trip: after [SetPtr(P, _)] on a valid
    pointer, [GetPtr(0)] is a pointer to the address of [P]. *)
Lemma SetPtr_GetPtr_offset_0 this ptr iOffset s :
  address_of s this <> 0 ->
  0 <= address_of s this < ULONG_MOD ->
  0 <= address_of s ptr < ULONG_MOD ->
  exists s1 r s2,
    SetPtr this ptr iOffset s = (Returns tt, s1) /\
    GetPtr this 0 s1 = (Returns r, s2) /\
    address_of s2 r = address_of s ptr.
Proof.
  intros Hvalid Hthis Hptr.
  unfold SetPtr, GetPtr, IsValid. run_prefix.
  apply Z.eqb_neq in Hvalid. rewrite Hvalid. cbn [negb].
  run_prefix. unfold store_ulong, load_ulong.
  pose proof (store_le_memory (Pos.to_nat sizeof_ulong) (address_of s this)
                (address_of s ptr) s) as (Hret & Hmem & Hptrs).
  destruct (store_le _ _ _ s) as [[[]|e] s1]; cbn in Hret, Hmem, Hptrs; [|done].
  exists s1. 
  assert (Haddr : address_of s1 this = address_of s this)
    by (unfold address_of; by rewrite Hptrs).
  run_prefix. rewrite Haddr, Hvalid. cbn [negb].
  rewrite Z.add_0_r, ulong_small by done.
  pose proof (load_le_value (Pos.to_nat sizeof_ulong) (address_of s this) s1)
    as (Hv & _ & Hptrs2).
  unfold bind. destruct (load_le _ _ s1) as [[v|e] s2]; cbn in Hv, Hptrs2; [|done].
  eexists _, _. split; [done|]. split; [done|].
  unfold new_CPointer, address_of. cbn.
  rewrite lookup_app_r, Nat.sub_diag by done. cbn.
  simplify_eq. rewrite Hmem, word_at_stored, ULONG_MOD_nat.
  by apply Z.mod_small.
Qed.
End Pointer_round_trip.

(** C3, at the failing input: [this] points to 0x1000, [P] to 0x2000, the
    offset is 4, memory is blank.  [SetPtr(P, 4)] stores the word at 0x1000
    (offset 0), so [GetPtr(4)] reads the untouched word at 0x1004 and yields
    a pointer to 0, not to the address of [P]. *)
Theorem SetPtr_GetPtr_offset_4 :
  let stored := @SetPtr ILP32 0%nat 1%nat 4 sample_state in
  let loaded := @GetPtr ILP32 0%nat 4 (snd stored) in
  address_of sample_state 0%nat = 4096 /\
  address_of sample_state 1%nat = 8192 /\
  fst stored = Returns tt /\
  fst loaded = Returns 3%nat /\
  address_of (snd loaded) 3%nat = 0 /\
  word_at (mem (snd stored)) 4 4096 = 8192 /\
  word_at (mem (snd stored)) 4 4100 = 0.
Proof. repeat split; vm_compute; reflexivity. Qed.

(** ** IsOverlapping (C9) *)

Section Overlap.
Context `{Arch}.

(** C9, as amended: [IsOverlapping] gives the same answer with the two
    pointers exchanged, whatever the addresses and the length; and when
    the lower range ends inside the address space (the sum of the lower
    address and the length does not wrap), the answer is whether the
    half-open ranges [[a, a+n)] and [[b, b+n)] intersect. *)
Theorem IsOverlapping_symmetric (this other : ref) (n : Z) (s : state) :
  IsOverlapping this (PyCPointer other) n s
    = IsOverlapping other (PyCPointer this) n s /\
  (0 <= address_of s this -> 0 <= address_of s other -> 0 <= n ->
   Z.min (address_of s this) (address_of s other) + n < ULONG_MOD ->
   (fst (IsOverlapping this (PyCPointer other) n s) = Returns true <->
      ranges_intersect (address_of s this) (address_of s other) n) /\
   (fst (IsOverlapping this (PyCPointer other) n s) = Returns false <->
      ~ ranges_intersect (address_of s this) (address_of s other) n)).
Proof.
  rewrite !IsOverlapping_run. cbn [address_like fst].
  set (a := address_of s this). set (b := address_of s other).
  split.
  - destruct (Z.leb_spec a b), (Z.leb_spec b a); try reflexivity; try lia.
    by replace b with a by lia.
  - intros Ha Hb Hn Hmin.
    assert (Hexact :
      (if a <=? b then ulong (a + n) >? b else ulong (b + n) >? a) = true <->
      ranges_intersect a b n).
    { unfold ranges_intersect.
      destruct (Z.leb_spec a b).
      - rewrite ulong_small by lia. rewrite Z.gtb_gt.
        split; [intros; exists b; lia | intros (x & ? & ?); lia].
      - rewrite ulong_small by lia. rewrite Z.gtb_gt.
        split; [intros; exists a; lia | intros (x & ? & ?); lia]. }
    destruct (if a <=? b then ulong (a + n) >? b else ulong (b + n) >? a).
    + split; [tauto|]. split; [done|]. intros Hno. destruct Hno. by apply Hexact.
    + split; [|split; [|done]].
      * rewrite <- Hexact. split; intros; simplify_eq.
      * intros _ Hyes. apply Hexact in Hyes. done.
Qed.
End Overlap.

(** C9, as stated, fails when the sum wraps: the ranges of 2^32 - 4096 bytes
    from 0x1000 and from 0x2000 share the byte at 0x2000, but
    0x1000 + (2^32 - 4096) is 0 in 32-bit arithmetic and the answer is
    [false]; likewise with 2^64 - 4096 bytes on 64-bit words. *)
Lemma IsOverlapping_wraps_around :
  address_of sample_state 0%nat = 4096 /\
  address_of sample_state 1%nat = 8192 /\
  fst (@IsOverlapping ILP32 0%nat (PyCPointer 1%nat) 4294963200 sample_state)
    = Returns false /\
  ranges_intersect 4096 8192 4294963200 /\
  fst (@IsOverlapping LP64 0%nat (PyCPointer 1%nat) 18446744073709547520 sample_state)
    = Returns false /\
  ranges_intersect 4096 8192 18446744073709547520.
Proof.
  split; [reflexivity|]. split; [reflexivity|]. split; [vm_compute; reflexivity|].
  split; [exists 8192; lia|]. split; [vm_compute; reflexivity|].
  exists 8192. lia.
Qed.

(** A witness of C9: eight bytes from 0x1000 and from 0x2000 are apart. *)
Lemma IsOverlapping_symmetric_witness :
  @IsOverlapping ILP32 0%nat (PyCPointer 1%nat) 8 sample_state
    = @IsOverlapping ILP32 1%nat (PyCPointer 0%nat) 8 sample_state /\
  (fst (@IsOverlapping ILP32 0%nat (PyCPointer 1%nat) 8 sample_state) = Returns true <->
     ranges_intersect 4096 8192 8) /\
  (fst (@IsOverlapping ILP32 0%nat (PyCPointer 1%nat) 8 sample_state) = Returns false <->
     ~ ranges_intersect 4096 8192 8).
Proof.
  destruct (@IsOverlapping_symmetric ILP32 0%nat 1%nat 8 sample_state) as [Hsym Hexact].
  split; [exact Hsym|].
  apply Hexact; vm_compute; congruence.
Defined.

(** ** The object store under the methods *)

Lemma grows_ret {A} (a : A) : grows (ret a).
Proof. by intros s. Qed.

Lemma grows_raise {A} exc msg : grows (@BOOST_RAISE_EXCEPTION A exc msg).
Proof. by intros s. Qed.

Lemma grows_deref r : grows (deref r).
Proof. by intros s. Qed.

Lemma grows_bind {A B} (c : M A) (k : A -> M B) :
  grows c -> (forall a, grows (k a)) -> grows (bind c k).
Proof.
  intros Hc Hk s. unfold bind. specialize (Hc s).
  destruct (c s) as [[a|e] s1]; [|done].
  etrans; [exact Hc|apply Hk].
Qed.

Lemma grows_memory_only {A} (c : M A) : memory_only c -> grows c.
Proof.
  intros Hc s. destruct (memory_only_returns c s Hc) as (a & s' & -> & Hp).
  cbn. by rewrite Hp.
Qed.

Lemma grows_new_CPointer a : grows (new_CPointer a).
Proof. intros s. cbn. by apply prefix_app_r. Qed.

Lemma grows_new_CFunction f : grows (new_CFunction f).
Proof. by intros s. Qed.

Lemma grows_ExtractPyPtr o : grows (ExtractPyPtr o).
Proof. intros s. by rewrite ExtractPyPtr_run. Qed.

Lemma grows_if {A} (b : bool) (c1 c2 : M A) :
  grows c1 -> grows c2 -> grows (if b then c1 else c2).
Proof. by destruct b. Qed.

Create HintDb grows.
#[global] Hint Resolve grows_ret grows_raise grows_deref grows_new_CPointer
  grows_new_CFunction grows_ExtractPyPtr : grows.
#[global] Hint Extern 2 (grows _) =>
  apply grows_memory_only; solve [auto with memory_only] : grows.

Ltac grows_step :=
  lazymatch goal with
  | |- grows (bind _ _) => apply grows_bind; [|intros ?]
  | |- grows (if _ then _ else _) => apply grows_if
  | |- grows _ => solve [auto with grows]
  end.

Lemma fresh_by_bind {A B} proj (c : M A) (k : A -> M B) :
  grows c -> (forall a, fresh_by proj (k a)) -> fresh_by proj (bind c k).
Proof.
  intros Hc Hk s b r. unfold bind. specialize (Hc s).
  destruct (c s) as [[a|e] s1] eqn:Hrun; [|done].
  intros Hb Hproj. specialize (Hk a s1 b r Hb Hproj).
  apply prefix_length in Hc. cbn in Hc. lia.
Qed.

Lemma fresh_by_raise {A} proj exc msg : fresh_by proj (@BOOST_RAISE_EXCEPTION A exc msg).
Proof. by intros s a r. Qed.

Lemma fresh_by_if {A} proj (b : bool) (c1 c2 : M A) :
  fresh_by proj c1 -> fresh_by proj c2 -> fresh_by proj (if b then c1 else c2).
Proof. by destruct b. Qed.

Lemma fresh_by_new_CPointer a : fresh_by Some (new_CPointer a).
Proof.
  intros s r' r Hr Hproj. cbn in *. simplify_eq.
  rewrite length_app. cbn. lia.
Qed.

Lemma fresh_by_returning {A B} (proj : B -> option ref) (f : A -> B) (c : M A) :
  fresh_by (fun a => proj (f a)) c -> fresh_by proj (bind c (fun a => ret (f a))).
Proof.
  intros Hc s b r. unfold bind. specialize (Hc s).
  destruct (c s) as [[a|e] s1]; [|done].
  cbn. intros ? ?. simplify_eq. by eapply Hc.
Qed.

Lemma fresh_by_none {A} (c : M A) : fresh_by (fun _ => None) c.
Proof. by intros s a r. Qed.

Section Frame.
Context `{Arch}.

Lemma memory_only_SearchBytes_for bytes base i :
  memory_only (SearchBytes_for bytes base i).
Proof.
  revert i. induction bytes as [|b rest IH]; intros i; cbn [SearchBytes_for];
    repeat memory_only_step.
  destruct (_ =? 42); [apply IH|].
  destruct (negb _); [|apply IH]. repeat memory_only_step.
Qed.

Lemma grows_SearchBytes_while n bytes iByteLen base :
  grows (SearchBytes_while n bytes iByteLen base).
Proof.
  revert base. induction n as [|k IH]; intros base; cbn [SearchBytes_while].
  - apply grows_ret.
  - apply grows_bind; [apply grows_memory_only, memory_only_SearchBytes_for|].
    intros i. apply grows_if; [|apply IH]. repeat grows_step.
Qed.

Lemma fresh_SearchBytes_while n bytes iByteLen base :
  fresh_by id (SearchBytes_while n bytes iByteLen base).
Proof.
  revert base. induction n as [|k IH]; intros base; cbn [SearchBytes_while].
  - intros s a r Ha Hproj. cbn in Ha. unfold id in Hproj. by simplify_eq.
  - apply fresh_by_bind; [apply grows_memory_only, memory_only_SearchBytes_for|].
    intros i. apply fresh_by_if; [|apply IH].
    apply (fresh_by_returning id Some), fresh_by_new_CPointer.
Qed.

Lemma grows_load_ulong a : grows (load_ulong a).
Proof. apply grows_memory_only, memory_only_load_le. Qed.

Lemma grows_store_ulong a v : grows (store_ulong a v).
Proof. apply grows_memory_only, memory_only_store_le. Qed.

Hint Resolve grows_load_ulong grows_store_ulong grows_SearchBytes_while : grows.

Lemma grows_GetVirtualFunc this iIndex : grows (GetVirtualFunc this iIndex).
Proof. unfold GetVirtualFunc. repeat grows_step. Qed.

Lemma grows_IsOverlapping this oOther n : grows (IsOverlapping this oOther n).
Proof. intros s. by rewrite IsOverlapping_run. Qed.

Hint Resolve grows_GetVirtualFunc grows_IsOverlapping : grows.

Lemma grows_invoke m this : grows (invoke m this).
Proof.
  destruct m; cbn [invoke]; unfold returning;
    unfold SetStringPtr, GetStringArray, SetStringArray, GetPtr, SetPtr,
      Compare, SearchBytes, Copy, Move, MakeFunction, MakeVirtualFunction;
    cbv zeta; repeat grows_step;
    unfold MakeFunction; repeat grows_step.
Qed.

Lemma fresh_invoke m this : fresh_by returned_pointer (invoke m this).
Proof.
  destruct m; cbn [invoke]; unfold returning;
    try (apply fresh_by_returning, fresh_by_none).
  - (* GetPtr *)
    apply fresh_by_returning. unfold GetPtr.
    apply fresh_by_bind; [auto with grows|intros self].
    apply fresh_by_if; [apply fresh_by_raise|].
    apply fresh_by_bind; [auto with grows|intros v].
    apply fresh_by_new_CPointer.
  - (* SearchBytes *)
    apply fresh_by_returning. unfold SearchBytes. cbv zeta.
    apply fresh_by_bind; [auto with grows|intros self].
    apply fresh_by_if; [apply fresh_by_raise|].
    apply fresh_by_if; [apply fresh_by_raise|].
    apply fresh_SearchBytes_while.
  - (* GetVirtualFunc *)
    apply fresh_by_returning. unfold GetVirtualFunc.
    apply fresh_by_bind; [auto with grows|intros self].
    apply fresh_by_if; [apply fresh_by_raise|].
    apply fresh_by_bind; [auto with grows|intros vtable].
    apply fresh_by_if; [apply fresh_by_new_CPointer|].
    apply fresh_by_bind; [auto with grows|intros entry].
    apply fresh_by_new_CPointer.
Qed.

End Frame.

(** ** CFunction::Call (C7) *)

Ltac solve_no_count_error :=
  unfold no_count_error;
  let Hx := fresh in
  intros Hx; vm_compute in Hx; first [contradiction | discriminate].

Section Call_facts.
Context `{Arch} `{Native}.

Lemma extract_as_no_count_error {B} t arg (k : Z -> M B) s :
  (forall v s', no_count_error (fst (k v s'))) ->
  no_count_error (fst (bind (extract_as t arg) k s)).
Proof.
  intros Hk. unfold bind, extract_as.
  destruct (extract t arg); cbn; [apply Hk|]. solve_no_count_error.
Qed.

Lemma ExtractPyPtr_arg_no_count_error {B} arg (k : Z -> M B) s :
  (forall v s', no_count_error (fst (k v s'))) ->
  no_count_error (fst (bind (ExtractPyPtr_arg arg) k s)).
Proof.
  intros Hk. destruct arg as [o|id]; cbn [ExtractPyPtr_arg].
  - rewrite (bind_returns _ _ _ _ _ (ExtractPyPtr_run _ _)). apply Hk.
  - unfold bind. solve_no_count_error.
Qed.

Lemma Call_push_arg_no_count_error t arg s :
  no_count_error (fst (Call_push_arg t arg s)).
Proof.
  unfold Call_push_arg.
  repeat match goal with
         | |- context [if tag_is ?a ?b then _ else _] => destruct (tag_is a b)
         end;
    first [ apply extract_as_no_count_error
          | apply ExtractPyPtr_arg_no_count_error
          | solve_no_count_error ];
    intros v s'; solve_no_count_error.
Qed.

Lemma Call_push_args_no_count_error args tags s :
  no_count_error (fst (Call_push_args args tags s)).
Proof.
  revert tags s. induction args as [|arg args' IH]; intros tags s.
  - solve_no_count_error.
  - destruct tags as [|t tags']; cbn [Call_push_args].
    + solve_no_count_error.
    + unfold bind. pose proof (Call_push_arg_no_count_error t arg s) as Harg.
      destruct (Call_push_arg t arg s) as [[[]|e] s1]; [apply IH|exact Harg].
Qed.

Lemma Call_invoke_no_count_error target r s :
  no_count_error (fst (Call_invoke target r s)).
Proof.
  unfold Call_invoke, object_of_char, object_of_string.
  repeat match goal with
         | |- context [if tag_is ?a ?b then _ else _] => destruct (tag_is a b)
         end;
    unfold bind; cbn [dcCall new_CPointer ret fst];
    repeat match goal with
           | |- context [if ?b then _ else _] => destruct b
           end;
    solve_no_count_error.
Qed.

(** C7: on a function with a non-zero address, [Call] fails with the
    argument-count error exactly when the number of arguments differs from
    the number of declared parameter tags; and then the state is what it
    was: the call VM was not reset and no native call was made. *)
Theorem Call_argument_count (this : CFunction) (args : list pyvalue) (s : state) :
  f_ulAddr this <> 0 ->
  (raises_condition (fst (Call this args s)) ArgumentCountMismatch <->
     length args <> length (m_Args this)) /\
  (length args <> length (m_Args this) -> snd (Call this args s) = s).
Proof.
  intros Hvalid. unfold Call, IsValid. fold (f_ulAddr this).
  apply Z.eqb_neq in Hvalid. rewrite Hvalid. cbn [negb].
  destruct (Nat.eqb_spec (length args) (length (m_Args this))) as [Heq|Hne];
    cbn [negb].
  - split; [|done]. split; [|done]. intros Hraise. exfalso. revert Hraise.
    unfold bind at 1. cbn [dcReset modify]. unfold bind at 1. cbn [dcMode modify].
    unfold bind at 1.
    match goal with
    | |- context [Call_push_args ?a ?t ?s0] =>
        pose proof (Call_push_args_no_count_error a t s0) as Hpush;
        destruct (Call_push_args a t s0) as [[[]|e] s1]
    end; [apply Call_invoke_no_count_error|exact Hpush].
  - by repeat split.
Qed.
End Call_facts.

(** A witness of C7: the sample function declares two parameters and is
    called with one argument. *)
Lemma Call_argument_count_witness :
  raises_condition
    (fst (@Call ILP32 sample_native sample_function [PyAddressLike (PyLong 5)] sample_state))
    ArgumentCountMismatch /\
  snd (@Call ILP32 sample_native sample_function [PyAddressLike (PyLong 5)] sample_state)
    = sample_state.
Proof.
  assert (Hvalid : f_ulAddr sample_function <> 0) by (vm_compute; discriminate).
  destruct (@Call_argument_count ILP32 sample_native sample_function
              [PyAddressLike (PyLong 5)] sample_state Hvalid) as [[_ Hraise] Hstate].
  split; [apply Hraise | apply Hstate]; cbn; lia.
Defined.

(** The scenario of the specification: parameters [(int, pointer)], return
    [int]; two arguments go through to the native call, one or three are
    refused. *)
Example Call_scenario :
  let call args := fst (@Call ILP32 sample_native sample_function args sample_state) in
  call [PyAddressLike (PyLong 5); PyAddressLike (PyCPointer 0%nat)]
    = Returns (PyOf c_int 2) /\
  raises_condition (call [PyAddressLike (PyLong 5)]) ArgumentCountMismatch /\
  raises_condition
    (call [PyAddressLike (PyLong 5); PyAddressLike (PyCPointer 0%nat);
           PyAddressLike (PyLong 7)])
    ArgumentCountMismatch.
Proof. cbv zeta. split; [vm_compute; reflexivity|]. split; vm_compute; reflexivity. Qed.

(** ** Hooks (C5, C6) *)

Lemma callbacks_at_update_eq pHook eType f m :
  callbacks_at (update_callbacks pHook eType f m) pHook eType
    = f (callbacks_at m pHook eType).
Proof.
  unfold callbacks_at at 1, update_callbacks.
  by rewrite lookup_insert_eq; cbn; rewrite lookup_insert_eq.
Qed.

Lemma callbacks_at_update_ne pHook eType f m h t :
  (h, t) <> (pHook, eType) ->
  callbacks_at (update_callbacks pHook eType f m) h t = callbacks_at m h t.
Proof.
  intros Hne. unfold callbacks_at, update_callbacks.
  destruct (decide (h = pHook)) as [->|Hh].
  - rewrite lookup_insert_eq. cbn.
    rewrite lookup_insert_ne by congruence. done.
  - by rewrite lookup_insert_ne.
Qed.

Lemma list_remove_absent value l : value ∉ l -> list_remove value l = l.
Proof.
  unfold list_remove. induction l as [|x rest IH]; intros Hnotin; [done|].
  apply not_elem_of_cons in Hnotin as [Hne Hrest].
  rewrite filter_cons_True by congruence. by rewrite IH.
Qed.

Lemma find_hook_from_app_new i hooks h :
  find_hook_from i hooks (m_pFunc h) = None ->
  find_hook_from i (hooks ++ [h]) (m_pFunc h) = Some ((i + length hooks)%nat, h).
Proof.
  revert i. induction hooks as [|h0 rest IH]; intros i; cbn.
  - rewrite Z.eqb_refl. intros _. do 2 f_equal. lia.
  - destruct (m_pFunc h0 =? m_pFunc h); [done|].
    intros Hnone. rewrite (IH _ Hnone). do 2 f_equal. lia.
Qed.

Lemma find_hook_from_alter (f : CHook -> CHook) i j hooks a k h :
  (forall h0, m_pFunc (f h0) = m_pFunc h0) ->
  find_hook_from i hooks a = Some (k, h) ->
  exists h', find_hook_from i (alter f j hooks) a = Some (k, h').
Proof.
  intros Hf. revert i j. induction hooks as [|h0 rest IH]; intros i j; cbn; [done|].
  destruct j as [|j']; cbn.
  - rewrite Hf. destruct (m_pFunc h0 =? a).
    + intros ?. simplify_eq. by eexists.
    + intros Hrest. by eexists.
  - destruct (m_pFunc h0 =? a).
    + intros ?. simplify_eq. by eexists.
    + apply IH.
Qed.

Lemma find_hook_from_alter_found (f : CHook -> CHook) i hooks a k h :
  (forall h0, m_pFunc (f h0) = m_pFunc h0) ->
  find_hook_from i hooks a = Some (k, h) ->
  (i <= k)%nat /\ hooks !! (k - i)%nat = Some h /\
  find_hook_from i (alter f (k - i)%nat hooks) a = Some (k, f h).
Proof.
  intros Hf. revert i. induction hooks as [|h0 rest IH]; intros i; cbn; [done|].
  destruct (m_pFunc h0 =? a) eqn:Hhere.
  - intros ?. simplify_eq. rewrite Nat.sub_diag. cbn. rewrite Hf, Hhere. done.
  - intros Hrest. destruct (IH _ Hrest) as (Hle & Hlook & Hfind).
    replace (k - i)%nat with (S (k - S i)) by lia. cbn.
    rewrite Hhere. split; [lia|]. split; [exact Hlook|exact Hfind].
Qed.

Section Hook_facts.
Context `{Arch} `{Native}.

Lemma HookFunction_run a conv p s :
  exists pHook hook s',
    HookFunction a conv p s = (Returns pHook, s') /\
    find_hook_from 0 (g_pHookMngr s') a = Some (pHook, hook) /\
    g_mapCallbacks s' = g_mapCallbacks s /\
    (forall h0 k0, find_hook_from 0 (g_pHookMngr s) a = Some (h0, k0) ->
       pHook = h0 /\ s' = s).
Proof.
  unfold HookFunction, bind, FindHook, gets.
  destruct (find_hook_from 0 (g_pHookMngr s) a) as [[h0 k0]|] eqn:Hfind.
  - exists h0, k0, s. repeat split; try done. all: intros; by simplify_eq.
  - eexists _, _, _. split; [reflexivity|]. split; [|split; [done|done]].
    cbn. apply (find_hook_from_app_new 0 (g_pHookMngr s)
                  (mkCHook a (alloc_trampoline a) conv p [])).
    exact Hfind.
Qed.

(** C6, as amended: on a function with a non-zero address, [AddHook]
    returns the handle it was given and puts it at the end of the callback
    list of the hook of that address for the given phase, whether or not
    the handle is in that list already; every other list is as before,
    and a hook that exists for the address is the one used.  Only the
    native dispatcher [SP_HookHandler] is not added twice: it is
    registered on the hook for the phase after the call, a hook that has
    it for the phase already is left exactly as it is, one that has not
    gets it appended once, and a new hook (made at the end of the
    manager's list, with the trampoline, the convention and the signature
    string) has it as its only handler.  No other hook changes, one line
    is printed, and nothing else of the state changes. *)
Theorem AddHook_appends (this : CFunction) (eType : HookType_t) (pCallable : PyObject)
    (s : state) :
  f_ulAddr this <> 0 ->
  exists pHook hook,
    fst (AddHook this eType pCallable s) = Returns pCallable /\
    find_hook_from 0 (g_pHookMngr (snd (AddHook this eType pCallable s))) (f_ulAddr this)
      = Some (pHook, hook) /\
    callbacks_at (g_mapCallbacks (snd (AddHook this eType pCallable s))) pHook eType
      = callbacks_at (g_mapCallbacks s) pHook eType ++ [pCallable] /\
    (forall h t, (h, t) <> (pHook, eType) ->
       callbacks_at (g_mapCallbacks (snd (AddHook this eType pCallable s))) h t
         = callbacks_at (g_mapCallbacks s) h t) /\
    (forall h0 k0, find_hook_from 0 (g_pHookMngr s) (f_ulAddr this) = Some (h0, k0) ->
       pHook = h0) /\
    (eType, SP_HookHandler) ∈ m_hookHandler hook /\
    g_pHookMngr (snd (AddHook this eType pCallable s)) !! pHook = Some hook /\
    (forall j, j <> pHook ->
       g_pHookMngr (snd (AddHook this eType pCallable s)) !! j = g_pHookMngr s !! j) /\
    (forall h0 k0, find_hook_from 0 (g_pHookMngr s) (f_ulAddr this) = Some (h0, k0) ->
       ((eType, SP_HookHandler) ∈ m_hookHandler k0 -> hook = k0) /\
       ((eType, SP_HookHandler) ∉ m_hookHandler k0 ->
          hook = mkCHook (m_pFunc k0) (m_pTrampoline k0) (m_eConvention k0) (m_szParams k0)
                   (m_hookHandler k0 ++ [(eType, SP_HookHandler)]))) /\
    (find_hook_from 0 (g_pHookMngr s) (f_ulAddr this) = None ->
       pHook = length (g_pHookMngr s) /\
       hook = mkCHook (f_ulAddr this) (alloc_trampoline (f_ulAddr this)) (m_eConv this)
                (signature_string (m_Args this) (m_ReturnType this))
                [(eType, SP_HookHandler)]) /\
    stdout (snd (AddHook this eType pCallable s))
      = stdout s ++ [signature_string (m_Args this) (m_ReturnType this)] /\
    snd (AddHook this eType pCallable s)
      = set_callbacks (fun _ => g_mapCallbacks (snd (AddHook this eType pCallable s)))
          (set_hooks (fun _ => g_pHookMngr (snd (AddHook this eType pCallable s)))
             (set_stdout (fun _ => stdout (snd (AddHook this eType pCallable s))) s)).
Proof.
  intros Hvalid.
  set (sig := signature_string (m_Args this) (m_ReturnType this)).
  set (s0 := set_stdout (fun out => out ++ [sig]) s).
  set (register := fun h : CHook =>
         if decide ((eType, SP_HookHandler) ∈ m_hookHandler h) then h
         else mkCHook (m_pFunc h) (m_pTrampoline h) (m_eConvention h)
                (m_szParams h) (m_hookHandler h ++ [(eType, SP_HookHandler)])).
  assert (Hregister : forall h, m_pFunc (register h) = m_pFunc h)
    by (intros h; unfold register; by destruct (decide _)).
  assert (Hhandler : forall h, (eType, SP_HookHandler) ∈ m_hookHandler (register h)).
  { intros h. unfold register. destruct (decide _) as [Hin|Hnotin]; [exact Hin|].
    cbn. apply elem_of_app. right. apply list_elem_of_singleton. done. }
  assert (Hadd : forall pHook s1,
            HookFunction (f_ulAddr this) (m_eConv this) sig s0 = (Returns pHook, s1) ->
            AddHook this eType pCallable s =
              (Returns pCallable,
               set_callbacks (update_callbacks pHook eType (fun l => l ++ [pCallable]))
                 (set_hooks (alter register pHook) s1))).
  { intros pHook s1 Hrun. unfold AddHook, IsValid. fold (f_ulAddr this).
    apply Z.eqb_neq in Hvalid. rewrite Hvalid. cbn [negb]. cbv zeta.
    rewrite (bind_returns _ _ _ _ _ (eq_refl : puts _ s = (Returns tt, s0))).
    fold sig. rewrite (bind_returns _ _ _ _ _ Hrun). reflexivity. }
  destruct (find_hook_from 0 (g_pHookMngr s) (f_ulAddr this)) as [[h0 k0]|] eqn:Hfind.
  - assert (Hrun : HookFunction (f_ulAddr this) (m_eConv this) sig s0 = (Returns h0, s0)).
    { unfold HookFunction, bind, FindHook, gets.
      replace (g_pHookMngr s0) with (g_pHookMngr s) by done. by rewrite Hfind. }
    rewrite (Hadd _ _ Hrun). cbn [fst snd].
    destruct (find_hook_from_alter_found register 0 (g_pHookMngr s) (f_ulAddr this)
                h0 k0 Hregister Hfind) as (_ & Hlook & Hfound).
    rewrite Nat.sub_0_r in Hlook, Hfound.
    exists h0, (register k0).
    split; [done|]. split; [exact Hfound|].
    split; [apply callbacks_at_update_eq|].
    split; [intros h t Hne; by apply callbacks_at_update_ne|].
    split; [intros ? ? ?; by simplify_eq|].
    split; [apply Hhandler|].
    split; [cbn; by rewrite list_lookup_alter_eq, Hlook|].
    split; [intros j Hj; cbn; by rewrite list_lookup_alter_ne|].
    split.
    { intros ? ? ?. simplify_eq. unfold register.
      split; intros Hin; by destruct (decide _). }
    split; [done|]. split; [done|]. by destruct s.
  - set (new := mkCHook (f_ulAddr this) (alloc_trampoline (f_ulAddr this)) (m_eConv this)
                  sig []).
    assert (Hrun : HookFunction (f_ulAddr this) (m_eConv this) sig s0
                   = (Returns (length (g_pHookMngr s)),
                      set_hooks (fun l => l ++ [new]) s0)).
    { unfold HookFunction, bind, FindHook, gets.
      replace (g_pHookMngr s0) with (g_pHookMngr s) by done. by rewrite Hfind. }
    rewrite (Hadd _ _ Hrun). cbn [fst snd].
    assert (Hhooks : alter register (length (g_pHookMngr s)) (g_pHookMngr s ++ [new])
                     = g_pHookMngr s ++ [register new]).
    { rewrite <- (Nat.add_0_r (length (g_pHookMngr s))). by rewrite alter_app_r. }
    assert (Hnew : register new
                   = mkCHook (f_ulAddr this) (alloc_trampoline (f_ulAddr this))
                       (m_eConv this) sig [(eType, SP_HookHandler)]).
    { unfold register, new. cbn. destruct (decide _) as [Hin|_]; [|done].
      by apply elem_of_nil in Hin. }
    exists (length (g_pHookMngr s)), (register new).
    match goal with
    | |- context [g_pHookMngr ?s2] =>
        assert (Hafter : g_pHookMngr s2 = g_pHookMngr s ++ [register new])
          by (rewrite <- Hhooks; reflexivity)
    end.
    split; [done|].
    split.
    { rewrite Hafter.
      pose proof (find_hook_from_app_new 0 (g_pHookMngr s) (register new)) as Happ.
      rewrite Hregister in Happ. apply Happ. exact Hfind. }
    split; [apply callbacks_at_update_eq|].
    split; [intros h t Hne; by apply callbacks_at_update_ne|].
    split; [done|].
    split; [apply Hhandler|].
    split; [by rewrite Hafter, lookup_app_r, Nat.sub_diag|].
    split.
    { intros j Hj. rewrite Hafter.
      destruct (decide (j < length (g_pHookMngr s))%nat) as [Hlt|Hge].
      - by rewrite lookup_app_l.
      - rewrite lookup_ge_None_2 by (rewrite length_app; cbn; lia).
        symmetry. apply lookup_ge_None_2. lia. }
    split; [done|]. split; [intros _; split; [done|exact Hnew]|].
    split; [done|]. by destruct s.
Qed.

(** C5, as amended: on a function with a non-zero address, [RemoveHook]
    returns normally and changes nothing but the callback registry.  With
    no hook on the address the state is unchanged.  Otherwise every entry
    equal to the handle, not only the first, leaves the callback list of
    that phase, the other entries keep their order, and every other list
    is as before; a handle that is not in the list leaves all lists as
    they were, and the whole state as it was when the registry has a list
    for the phase (where it has none, [operator[]] makes an empty one). *)
Theorem RemoveHook_removes_all (this : CFunction) (eType : HookType_t)
    (pCallable : PyObject) (s : state) :
  f_ulAddr this <> 0 ->
  fst (RemoveHook this eType pCallable s) = Returns tt /\
  snd (RemoveHook this eType pCallable s)
    = set_callbacks (fun _ => g_mapCallbacks (snd (RemoveHook this eType pCallable s))) s /\
  match find_hook_from 0 (g_pHookMngr s) (f_ulAddr this) with
  | None => snd (RemoveHook this eType pCallable s) = s
  | Some (pHook, _) =>
      g_pHookMngr (snd (RemoveHook this eType pCallable s)) = g_pHookMngr s /\
      callbacks_at (g_mapCallbacks (snd (RemoveHook this eType pCallable s))) pHook eType
        = filter (fun x => x <> pCallable) (callbacks_at (g_mapCallbacks s) pHook eType) /\
      (pCallable ∉
         callbacks_at (g_mapCallbacks (snd (RemoveHook this eType pCallable s)))
           pHook eType) /\
      (forall h t, (h, t) <> (pHook, eType) ->
         callbacks_at (g_mapCallbacks (snd (RemoveHook this eType pCallable s))) h t
           = callbacks_at (g_mapCallbacks s) h t) /\
      (pCallable ∉ callbacks_at (g_mapCallbacks s) pHook eType ->
       (forall h t,
          callbacks_at (g_mapCallbacks (snd (RemoveHook this eType pCallable s))) h t
            = callbacks_at (g_mapCallbacks s) h t) /\
       (forall phases, g_mapCallbacks s !! pHook = Some phases ->
          is_Some (phases !! eType) ->
          snd (RemoveHook this eType pCallable s) = s))
  end.
Proof.
  intros Hvalid. unfold RemoveHook, IsValid. fold (f_ulAddr this).
  apply Z.eqb_neq in Hvalid. rewrite Hvalid. cbn [negb].
  unfold bind, FindHook, gets.
  destruct (find_hook_from 0 (g_pHookMngr s) (f_ulAddr this)) as [[pHook hook]|];
    [|split; [done|]; split; [by destruct s|done]].
  cbn [modify fst snd]. split; [done|]. split; [by destruct s|].
  cbn [g_pHookMngr g_mapCallbacks set_callbacks].
  split; [done|].
  rewrite callbacks_at_update_eq.
  split; [done|]. split.
  { unfold list_remove. rewrite list_elem_of_filter. tauto. }
  split; [intros h t Hne; by apply callbacks_at_update_ne|].
  intros Hnotin. split.
  - intros h t.
    destruct (decide ((h, t) = (pHook, eType))) as [Heq|Hne];
      [|by apply callbacks_at_update_ne].
    simplify_eq. rewrite callbacks_at_update_eq.
    by apply list_remove_absent.
  - intros phases Hphases [l Hl].
    assert (Hsame : update_callbacks pHook eType (list_remove pCallable) (g_mapCallbacks s)
                    = g_mapCallbacks s).
    { unfold update_callbacks.
      assert (Hlist : callbacks_at (g_mapCallbacks s) pHook eType = l)
        by (unfold callbacks_at; by rewrite Hphases; cbn; rewrite Hl).
      rewrite Hlist in Hnotin |- *. rewrite list_remove_absent by done.
      rewrite Hphases. cbn [default from_option]. unfold id.
      by rewrite (insert_id phases), insert_id. }
    unfold set_callbacks. rewrite Hsame. by destruct s.
Qed.
End Hook_facts.

(** C6, as stated, fails: two [AddHook] calls with one handle leave the
    handle twice in the list of the phase. *)
Lemma AddHook_twice_duplicates :
  fst (@AddHook sample_native sample_function HOOKTYPE_PRE 7 sample_state) = Returns 7 /\
  callbacks_at (g_mapCallbacks hooked_twice) 0%nat HOOKTYPE_PRE = [7; 7] /\
  ~ NoDup (callbacks_at (g_mapCallbacks hooked_twice) 0%nat HOOKTYPE_PRE).
Proof.
  assert (Hlist : callbacks_at (g_mapCallbacks hooked_twice) 0%nat HOOKTYPE_PRE = [7; 7])
    by (vm_compute; reflexivity).
  split; [vm_compute; reflexivity|]. split; [exact Hlist|].
  rewrite Hlist. intros Hnodup. apply NoDup_cons in Hnodup as [Hnotin _].
  apply Hnotin. left.
Qed.

(** A witness of C6: the first hook on the sample function. *)
Lemma AddHook_appends_witness :
  exists pHook hook,
    fst (@AddHook sample_native sample_function HOOKTYPE_POST 9 sample_state) = Returns 9 /\
    find_hook_from 0
      (g_pHookMngr (snd (@AddHook sample_native sample_function HOOKTYPE_POST 9 sample_state)))
      (f_ulAddr sample_function) = Some (pHook, hook) /\
    callbacks_at
      (g_mapCallbacks (snd (@AddHook sample_native sample_function HOOKTYPE_POST 9 sample_state)))
      pHook HOOKTYPE_POST
      = callbacks_at (g_mapCallbacks sample_state) pHook HOOKTYPE_POST ++ [9] /\
    (HOOKTYPE_POST, SP_HookHandler) ∈ m_hookHandler hook.
Proof.
  assert (Hvalid : f_ulAddr sample_function <> 0) by (vm_compute; discriminate).
  destruct (@AddHook_appends sample_native sample_function HOOKTYPE_POST 9
              sample_state Hvalid)
    as (pHook & hook & Hret & Hfind & Hlist & _ & _ & Hhandler & _).
  by exists pHook, hook.
Defined.

(** The handle is in the list twice, the native dispatcher on the hook
    once. *)
Example AddHook_twice_one_dispatcher :
  callbacks_at (g_mapCallbacks hooked_twice) 0%nat HOOKTYPE_PRE = [7; 7] /\
  m_hookHandler <$> g_pHookMngr hooked_twice = [[(HOOKTYPE_PRE, SP_HookHandler)]].
Proof. split; vm_compute; reflexivity. Qed.

(** C5, as stated, fails: with the handle twice in the list, [RemoveHook]
    empties the list, where removal of the first match would leave one. *)
Lemma RemoveHook_removes_duplicates :
  callbacks_at (g_mapCallbacks hooked_twice) 0%nat HOOKTYPE_PRE = [7; 7] /\
  callbacks_at
    (g_mapCallbacks (snd (RemoveHook sample_function HOOKTYPE_PRE 7 hooked_twice)))
    0%nat HOOKTYPE_PRE = [] /\
  remove_first 7 [7; 7] = [7].
Proof. split; [|split]; vm_compute; reflexivity. Qed.

(** A witness of C5: the handle 7 is removed from the list [7; 7]. *)
Lemma RemoveHook_removes_all_witness :
  fst (RemoveHook sample_function HOOKTYPE_PRE 7 hooked_twice) = Returns tt /\
  (7 ∉ callbacks_at
         (g_mapCallbacks (snd (RemoveHook sample_function HOOKTYPE_PRE 7 hooked_twice)))
         0%nat HOOKTYPE_PRE).
Proof.
  assert (Hvalid : f_ulAddr sample_function <> 0) by (vm_compute; discriminate).
  pose proof (RemoveHook_removes_all sample_function HOOKTYPE_PRE 7 hooked_twice Hvalid)
    as (Hret & _ & Hhook).
  split; [exact Hret|].
  assert (Hfind : exists hook,
            find_hook_from 0 (g_pHookMngr hooked_twice) (f_ulAddr sample_function)
              = Some (0%nat, hook)) by (eexists; vm_compute; reflexivity).
  destruct Hfind as [hook Hfind]. rewrite Hfind in Hhook.
  by destruct Hhook as (_ & _ & Hnotin & _).
Defined.

(** * Further properties of the code *)

(** ** Bytes in memory *)

Lemma set_accesses_set_mem tr tr' m m' s :
  set_accesses (fun _ => tr') (set_mem (fun _ => m')
    (set_accesses (fun _ => tr) (set_mem (fun _ => m) s)))
  = set_accesses (fun _ => tr') (set_mem (fun _ => m') s).
Proof. by destruct s. Qed.

Lemma read_bytes_run n a s :
  exists tr, read_bytes n a s
             = (Returns (bytes_at (mem s) n a), set_accesses (fun _ => tr) s).
Proof.
  revert a s. induction n as [|k IH]; intros a s; cbn [read_bytes bytes_at].
  - exists (accesses s). by destruct s.
  - rewrite (bind_returns _ _ _ _ _ (eq_refl : load_byte a s = (_, _))).
    destruct (IH (a + 1) (set_accesses (cons (Load a)) s)) as [tr Hrun].
    rewrite (bind_returns _ _ _ _ _ Hrun). exists tr. by destruct s.
Qed.

Lemma write_bytes_run bs a s :
  exists tr, write_bytes bs a s
             = (Returns tt, set_accesses (fun _ => tr)
                              (set_mem (fun _ => bytes_stored bs a (mem s)) s)).
Proof.
  revert a s. induction bs as [|b rest IH]; intros a s; cbn [write_bytes bytes_stored].
  - exists (accesses s). by destruct s.
  - rewrite (bind_returns _ _ _ _ _ (eq_refl : store_byte a b s = (_, _))).
    destruct (IH (a + 1) (set_accesses (cons (Store a)) (set_mem <[a := b mod 256]> s)))
      as [tr Hrun].
    rewrite Hrun. exists tr. by destruct s.
Qed.

Lemma bytes_stored_outside bs a m x :
  x < a \/ a + Z.of_nat (length bs) <= x -> bytes_stored bs a m !! x = m !! x.
Proof.
  revert a m. induction bs as [|b rest IH]; intros a m Hx; cbn [bytes_stored]; [done|].
  cbn [length] in Hx. rewrite IH by lia. apply lookup_insert_ne. lia.
Qed.

Lemma bytes_stored_inside bs a m (k : nat) b :
  bs !! k = Some b -> bytes_stored bs a m !! (a + Z.of_nat k) = Some (b mod 256).
Proof.
  revert a m k. induction bs as [|b0 rest IH]; intros a m k Hk; [done|].
  cbn [bytes_stored]. destruct k as [|k']; cbn in Hk.
  - simplify_eq. rewrite Z.add_0_r, bytes_stored_outside by lia.
    apply lookup_insert_eq.
  - replace (a + Z.of_nat (S k')) with (a + 1 + Z.of_nat k') by lia. by apply IH.
Qed.

Lemma bytes_at_lookup m n a (k : nat) :
  (k < n)%nat -> bytes_at m n a !! k = Some (default 0 (m !! (a + Z.of_nat k))).
Proof.
  revert a k. induction n as [|n' IH]; intros a k Hk; [lia|].
  cbn [bytes_at]. destruct k as [|k']; cbn.
  - by rewrite Z.add_0_r.
  - rewrite IH by lia. do 3 f_equal. lia.
Qed.

Lemma bytes_at_length m n a : length (bytes_at m n a) = n.
Proof. revert a. induction n as [|n' IH]; intros a; cbn; [done|]. by rewrite IH. Qed.

Lemma memory_bytes_byte_at s a : memory_bytes s -> 0 <= byte_at s a < 256.
Proof.
  intros Hm. unfold byte_at. destruct (mem s !! a) as [v|] eqn:Hv; cbn; [|lia].
  exact (Hm a v Hv).
Qed.

(** ** Move *)

Lemma byte_at_set_accesses f s a : byte_at (set_accesses f s) a = byte_at s a.
Proof. reflexivity. Qed.

Lemma memmove_run dst src n s :
  exists tr, memmove dst src n s
             = (Returns tt, set_accesses (fun _ => tr)
                              (set_mem (fun _ => bytes_stored (bytes_at (mem s) n src)
                                                   dst (mem s)) s)).
Proof.
  unfold memmove.
  destruct (read_bytes_run n src s) as [tr Hread].
  rewrite (bind_returns _ _ _ _ _ Hread).
  destruct (write_bytes_run (bytes_at (mem s) n src) dst (set_accesses (fun _ => tr) s))
    as [tr' Hwrite].
  rewrite Hwrite. exists tr'. by destruct s.
Qed.

(** X1: [Move] on two valid pointers returns normally; afterwards each of the
    [n] bytes of the destination range is the byte the source range held at
    the same offset before the call, also when the two ranges overlap, and
    every byte outside the destination range is as before. *)
Theorem Move_copies_bytes (this : ref) (oDest : object) (n : Z) (s : state) :
  address_of s this <> 0 -> address_like s oDest <> 0 -> memory_bytes s ->
  fst (Move this oDest n s) = Returns tt /\
  (forall k, 0 <= k < n ->
     byte_at (snd (Move this oDest n s)) (address_like s oDest + k)
       = byte_at s (address_of s this + k)) /\
  (forall x, x < address_like s oDest \/ address_like s oDest + n <= x ->
     byte_at (snd (Move this oDest n s)) x = byte_at s x).
Proof.
  intros Hsrc Hdst Hbytes. unfold Move. run_prefix.
  apply Z.eqb_neq in Hsrc, Hdst. rewrite Hsrc, Hdst. cbn [orb].
  destruct (memmove_run (address_like s oDest) (address_of s this) (Z.to_nat n) s)
    as [tr ->].
  cbn [fst snd]. split; [done|]. unfold byte_at at 1 3. cbn [mem set_accesses set_mem].
  split.
  - intros k Hk.
    replace k with (Z.of_nat (Z.to_nat k)) at 1 by lia.
    erewrite bytes_stored_inside by (apply bytes_at_lookup; lia).
    cbn [default]. rewrite Z2Nat.id by lia.
    apply Z.mod_small, (memory_bytes_byte_at s), Hbytes.
  - intros x Hx. rewrite bytes_stored_outside; [done|].
    rewrite bytes_at_length. lia.
Qed.

(** A witness: six bytes moved from 0x1000 to 0x1002 within the blank sample
    memory, the ranges overlapping. *)
Lemma Move_copies_bytes_witness :
  fst (Move 0%nat (PyLong 4098) 6 sample_state) = Returns tt /\
  (forall k, 0 <= k < 6 ->
     byte_at (snd (Move 0%nat (PyLong 4098) 6 sample_state)) (4098 + k)
       = byte_at sample_state (4096 + k)).
Proof.
  assert (Hsrc : address_of sample_state 0%nat <> 0) by (vm_compute; discriminate).
  assert (Hdst : address_like sample_state (PyLong 4098) <> 0) by (vm_compute; discriminate).
  assert (Hbytes : memory_bytes sample_state) by apply map_Forall_empty.
  destruct (Move_copies_bytes 0%nat (PyLong 4098) 6 sample_state Hsrc Hdst Hbytes)
    as (Hret & Hcopy & _).
  split; [exact Hret|exact Hcopy].
Defined.

(** ** Compare *)

Lemma memcmp_run p q n s :
  exists v tr,
    memcmp p q n s = (Returns v, set_accesses (fun _ => tr) s) /\
    (v = 0 <-> forall k : nat, (k < n)%nat ->
                 byte_at s (p + Z.of_nat k) = byte_at s (q + Z.of_nat k)) /\
    (v <> 0 -> exists k : nat, (k < n)%nat /\
                 v = byte_at s (p + Z.of_nat k) - byte_at s (q + Z.of_nat k) /\
                 forall j : nat, (j < k)%nat ->
                   byte_at s (p + Z.of_nat j) = byte_at s (q + Z.of_nat j)).
Proof.
  unfold byte_at. revert p q s.
  induction n as [|n' IH]; intros p q s; cbn [memcmp].
  - exists 0, (accesses s). split; [by destruct s|]. split; [|done].
    split; [intros _ k Hk; lia|done].
  - rewrite (bind_returns _ _ _ _ _ (eq_refl : load_byte p s = (_, _))).
    rewrite (bind_returns _ _ _ _ _ (eq_refl : load_byte q _ = (_, _))).
    cbn [mem set_accesses].
    set (bp := default 0 (mem s !! p)). set (bq := default 0 (mem s !! q)).
    destruct (Z.eqb_spec bp bq) as [Heq|Hne].
    + destruct (IH (p + 1) (q + 1)
                  (set_accesses (cons (Load q)) (set_accesses (cons (Load p)) s)))
        as (v & tr & Hrun & Hzero & Hdiff).
      exists v, tr. split; [rewrite Hrun; by destruct s|].
      cbn [mem set_accesses] in Hzero, Hdiff. split.
      * rewrite Hzero. split.
        -- intros Hall [|k] Hk; [by rewrite !Z.add_0_r|].
           replace (p + Z.of_nat (S k)) with (p + 1 + Z.of_nat k) by lia.
           replace (q + Z.of_nat (S k)) with (q + 1 + Z.of_nat k) by lia.
           apply Hall. lia.
        -- intros Hall k Hk.
           replace (p + 1 + Z.of_nat k) with (p + Z.of_nat (S k)) by lia.
           replace (q + 1 + Z.of_nat k) with (q + Z.of_nat (S k)) by lia.
           apply Hall. lia.
      * intros Hv. destruct (Hdiff Hv) as (k & Hk & Hval & Hbefore).
        exists (S k). split; [lia|].
        replace (p + Z.of_nat (S k)) with (p + 1 + Z.of_nat k) by lia.
        replace (q + Z.of_nat (S k)) with (q + 1 + Z.of_nat k) by lia.
        split; [exact Hval|].
        intros [|j] Hj; [by rewrite !Z.add_0_r|].
        replace (p + Z.of_nat (S j)) with (p + 1 + Z.of_nat j) by lia.
        replace (q + Z.of_nat (S j)) with (q + 1 + Z.of_nat j) by lia.
        apply Hbefore. lia.
    + exists (bp - bq), (Load q :: Load p :: accesses s).
      split; [by destruct s|]. split.
      * split; [lia|]. intros Hall. specialize (Hall 0%nat).
        rewrite !Z.add_0_r in Hall. specialize (Hall ltac:(lia)). subst bp bq. lia.
      * intros _. exists 0%nat. rewrite !Z.add_0_r.
        split; [lia|]. split; [done|]. intros j Hj. lia.
Qed.

(** X2: [Compare] on two valid pointers returns a number that is 0 exactly when
    the two ranges of [n] bytes hold the same bytes; a result other than 0
    has the sign of the comparison of the first two bytes that differ:
    negative when the byte on the side of the pointer is the smaller one.
    Memory is only read. *)
Theorem Compare_result (this : ref) (oOther : object) (n : Z) (s : state) :
  address_of s this <> 0 -> address_like s oOther <> 0 ->
  exists v,
    fst (Compare this oOther n s) = Returns v /\
    mem (snd (Compare this oOther n s)) = mem s /\
    (v = 0 <-> forall k, 0 <= k < n ->
                 byte_at s (address_of s this + k) = byte_at s (address_like s oOther + k)) /\
    (v <> 0 -> exists k, 0 <= k < n /\
                 (v < 0 <-> byte_at s (address_of s this + k)
                            < byte_at s (address_like s oOther + k)) /\
                 (0 < v <-> byte_at s (address_like s oOther + k)
                            < byte_at s (address_of s this + k)) /\
                 forall j, 0 <= j < k ->
                   byte_at s (address_of s this + j)
                     = byte_at s (address_like s oOther + j)).
Proof.
  intros Hthis Hother. unfold Compare. run_prefix.
  apply Z.eqb_neq in Hthis, Hother. rewrite Hthis, Hother. cbn [orb].
  destruct (memcmp_run (address_of s this) (address_like s oOther) (Z.to_nat n) s)
    as (v & tr & -> & Hzero & Hdiff).
  exists v. split; [done|]. split; [by destruct s|]. split.
  - rewrite Hzero. split.
    + intros Hall k Hk. specialize (Hall (Z.to_nat k) ltac:(lia)).
      by rewrite Z2Nat.id in Hall by lia.
    + intros Hall k Hk. apply Hall. lia.
  - intros Hv. destruct (Hdiff Hv) as (k & Hk & Hval & Hbefore).
    exists (Z.of_nat k). split; [lia|]. split; [lia|]. split; [lia|].
    intros j Hj. specialize (Hbefore (Z.to_nat j) ltac:(lia)).
    by rewrite Z2Nat.id in Hbefore by lia.
Qed.

(** A witness: the first four bytes at 0x1000 and at 0x2000 of the blank
    sample memory compare equal. *)
Lemma Compare_result_witness :
  exists v,
    fst (Compare 0%nat (PyCPointer 1%nat) 4 sample_state) = Returns v /\
    (v = 0 <-> forall k, 0 <= k < 4 ->
                 byte_at sample_state (4096 + k) = byte_at sample_state (8192 + k)).
Proof.
  assert (Hthis : address_of sample_state 0%nat <> 0) by (vm_compute; discriminate).
  assert (Hother : address_like sample_state (PyCPointer 1%nat) <> 0)
    by (vm_compute; discriminate).
  destruct (Compare_result 0%nat (PyCPointer 1%nat) 4 sample_state Hthis Hother)
    as (v & Hret & _ & Hzero & _).
  exists v. split; [exact Hret|exact Hzero].
Defined.

(** X3: [Compare] raises "At least one pointer is NULL." exactly when the
    address it is invoked on or the address of the other operand is 0, and
    then it has read no memory: the state is as before. *)
Theorem Compare_null_check (this : ref) (oOther : object) (n : Z) (s : state) :
  (raises_condition (fst (Compare this oOther n s)) InvalidPointer <->
     address_of s this = 0 \/ address_like s oOther = 0) /\
  (forall e, fst (Compare this oOther n s) = Raises e ->
     e = PyErr PyExc_ValueError "At least one pointer is NULL." /\
     snd (Compare this oOther n s) = s).
Proof.
  unfold Compare. run_prefix.
  destruct (Z.eqb_spec (address_of s this) 0) as [Hthis|Hthis];
    [|destruct (Z.eqb_spec (address_like s oOther) 0) as [Hother|Hother]];
    cbn [orb].
  - split; [split; [by left|done]|]. intros e He. cbn in He. by simplify_eq.
  - split; [split; [by right|done]|]. intros e He. cbn in He. by simplify_eq.
  - destruct (memcmp_run (address_of s this) (address_like s oOther) (Z.to_nat n) s)
      as (v & tr & -> & _). cbn.
    split; [split; [done|intros [?|?]; done]|]. intros e He. discriminate He.
Qed.

(** ** Strings *)

Lemma bytes_at_stored bs a m :
  bytes_at (bytes_stored bs a m) (length bs) a = (fun b => b mod 256) <$> bs.
Proof.
  apply list_eq. intros i. rewrite list_lookup_fmap.
  destruct (bs !! i) as [b|] eqn:Hb; cbn.
  - rewrite bytes_at_lookup by (by eapply lookup_lt_Some).
    by rewrite (bytes_stored_inside _ _ _ _ _ Hb).
  - apply lookup_ge_None. rewrite bytes_at_length. by apply lookup_ge_None.
Qed.

Lemma fmap_mod_bytes (bs : list Z) :
  Forall (fun b => 0 <= b < 256) bs -> (fun b => b mod 256) <$> bs = bs.
Proof.
  induction 1 as [|b rest Hb _ IH]; cbn; [done|].
  by rewrite IH, Z.mod_small.
Qed.

Lemma c_str_without_NUL text :
  Forall (fun b => 0 < b < 256) text -> c_str text = text ++ [0].
Proof.
  induction 1 as [|b rest Hb _ IH]; cbn; [done|].
  destruct (Z.eqb_spec b 0); [lia|]. by rewrite IH.
Qed.

Lemma c_str_up_to_NUL pre post :
  Forall (fun b => 0 < b < 256) pre -> c_str (pre ++ 0 :: post) = pre ++ [0].
Proof.
  induction 1 as [|b rest Hb _ IH]; cbn; [done|].
  destruct (Z.eqb_spec b 0); [lia|]. by rewrite IH.
Qed.

Lemma string_bytes_in_range (text : list Z) :
  Forall (fun b => 0 < b < 256) text -> Forall (fun b => 0 <= b < 256) (text ++ [0]).
Proof.
  intros Htext. apply Forall_app. split.
  - eapply Forall_impl; [exact Htext|]. intros b Hb. cbn in Hb. lia.
  - apply Forall_singleton. lia.
Qed.

Section Strings.
Context `{Arch}.

Lemma SetStringArray_run this text iOffset s :
  address_of s this <> 0 ->
  0 <= address_of s this + iOffset < ULONG_MOD ->
  exists tr,
    SetStringArray this text iOffset s
      = (Returns tt,
         set_accesses (fun _ => tr)
           (set_mem (fun _ => bytes_stored (c_str text) (address_of s this + iOffset)
                                (mem s)) s)).
Proof.
  intros Hvalid Hrange. unfold SetStringArray, IsValid. run_prefix.
  apply Z.eqb_neq in Hvalid. rewrite Hvalid. cbn [negb].
  rewrite ulong_small by done. unfold strcpy. apply write_bytes_run.
Qed.


(** X5: [SetStringArray] stops at the first NUL of its text: of
    [pre ++ 0 :: post] only [pre] and one terminator are written, and the
    bytes behind them keep their value whatever [post] is. *)
Theorem SetStringArray_stops_at_NUL (this : ref) (pre post : list Z) (iOffset : Z)
    (s : state) :
  address_of s this <> 0 ->
  0 <= address_of s this + iOffset < ULONG_MOD ->
  Forall (fun b => 0 < b < 256) pre ->
  bytes_at (mem (snd (SetStringArray this (pre ++ 0 :: post) iOffset s)))
    (S (length pre)) (address_of s this + iOffset) = pre ++ [0] /\
  (forall x, address_of s this + iOffset + Z.of_nat (length pre) + 1 <= x ->
     byte_at (snd (SetStringArray this (pre ++ 0 :: post) iOffset s)) x = byte_at s x).
Proof.
  intros Hvalid Hrange Hpre.
  destruct (SetStringArray_run this (pre ++ 0 :: post) iOffset s Hvalid Hrange)
    as [tr ->].
  cbn [snd mem set_accesses set_mem]. rewrite c_str_up_to_NUL by done. split.
  - replace (S (length pre)) with (length (pre ++ [0]))
      by (rewrite length_app; cbn; lia).
    rewrite bytes_at_stored. by apply fmap_mod_bytes, string_bytes_in_range.
  - intros x Hx. unfold byte_at. cbn [mem set_accesses set_mem].
    rewrite bytes_stored_outside; [done|]. rewrite length_app. cbn [length]. lia.
Qed.
End Strings.


(** A witness: of "Hi\0there" only "Hi" and the terminator are written. *)
Lemma SetStringArray_stops_at_NUL_witness :
  bytes_at (mem (snd (@SetStringArray ILP32 0%nat ([72; 105] ++ 0 :: [116; 104]) 8
                        sample_state))) 3 (4096 + 8) = [72; 105; 0].
Proof.
  assert (Hvalid : address_of sample_state 0%nat <> 0) by (vm_compute; discriminate).
  assert (Hrange : 0 <= address_of sample_state 0%nat + 8 < @ULONG_MOD ILP32)
    by (vm_compute; split; congruence).
  assert (Hpre : Forall (fun b => 0 < b < 256) [72; 105])
    by (repeat constructor; lia).
  exact (proj1 (@SetStringArray_stops_at_NUL ILP32 0%nat [72; 105] [116; 104] 8
                  sample_state Hvalid Hrange Hpre)).
Defined.

(** ** Strings behind a pointer *)

Section String_pointers.
Context `{Arch}.

Lemma load_ulong_run a s :
  exists tr, load_ulong a s
             = (Returns (word_at (mem s) (Pos.to_nat sizeof_ulong) a),
                set_accesses (fun _ => tr) s).
Proof.
  unfold load_ulong. generalize (Pos.to_nat sizeof_ulong) as n.
  intros n. revert a s. induction n as [|k IH]; intros a s; cbn [load_le word_at].
  - exists (accesses s). by destruct s.
  - rewrite (bind_returns _ _ _ _ _ (eq_refl : load_byte a s = (_, _))).
    destruct (IH (a + 1) (set_accesses (cons (Load a)) s)) as [tr Hrun].
    rewrite (bind_returns _ _ _ _ _ Hrun). exists tr. by destruct s.
Qed.

Lemma SetStringPtr_run this text iOffset s :
  address_of s this <> 0 ->
  0 <= address_of s this + iOffset < ULONG_MOD ->
  exists tr,
    SetStringPtr this text iOffset s
      = (Returns tt,
         set_accesses (fun _ => tr)
           (set_mem (fun _ => bytes_stored (c_str text)
                                (word_at (mem s) (Pos.to_nat sizeof_ulong)
                                   (address_of s this + iOffset))
                                (mem s)) s)).
Proof.
  intros Hvalid Hrange. unfold SetStringPtr, IsValid. run_prefix.
  apply Z.eqb_neq in Hvalid. rewrite Hvalid. cbn [negb].
  rewrite ulong_small by done.
  destruct (load_ulong_run (address_of s this + iOffset) s) as [tr Hload].
  rewrite (bind_returns _ _ _ _ _ Hload). unfold strcpy.
  destruct (write_bytes_run (c_str text)
              (word_at (mem s) (Pos.to_nat sizeof_ulong) (address_of s this + iOffset))
              (set_accesses (fun _ => tr) s)) as [tr' ->].
  exists tr'. by destruct s.
Qed.

(** X6: [SetStringPtr] writes to where the word at address plus offset points,
    not to that word: a string without NUL bytes is afterwards what memory
    holds, terminator included, at the address which the word held before
    the call, and no byte outside these [length + 1] bytes has changed. *)
Theorem SetStringPtr_writes_pointee (this : ref) (text : list Z) (iOffset : Z)
    (s : state) :
  address_of s this <> 0 ->
  0 <= address_of s this + iOffset < ULONG_MOD ->
  Forall (fun b => 0 < b < 256) text ->
  fst (SetStringPtr this text iOffset s) = Returns tt /\
  bytes_at (mem (snd (SetStringPtr this text iOffset s))) (S (length text))
    (word_at (mem s) (Pos.to_nat sizeof_ulong) (address_of s this + iOffset))
    = text ++ [0] /\
  (forall x,
     x < word_at (mem s) (Pos.to_nat sizeof_ulong) (address_of s this + iOffset) \/
     word_at (mem s) (Pos.to_nat sizeof_ulong) (address_of s this + iOffset)
       + Z.of_nat (length text) + 1 <= x ->
     byte_at (snd (SetStringPtr this text iOffset s)) x = byte_at s x).
Proof.
  intros Hvalid Hrange Htext.
  destruct (SetStringPtr_run this text iOffset s Hvalid Hrange) as [tr ->].
  set (dst := word_at (mem s) (Pos.to_nat sizeof_ulong) (address_of s this + iOffset)).
  cbn [fst snd mem set_accesses set_mem]. split; [done|].
  rewrite c_str_without_NUL by done. split.
  - replace (S (length text)) with (length (text ++ [0]))
      by (rewrite length_app; cbn; lia).
    rewrite bytes_at_stored. by apply fmap_mod_bytes, string_bytes_in_range.
  - intros x Hx. unfold byte_at. cbn [mem set_accesses set_mem].
    rewrite bytes_stored_outside; [done|]. rewrite length_app. cbn [length]. lia.
Qed.


End String_pointers.

(** A witness: the sample memory is blank, so the word at 0x1000 points to
    address 0, and that is where "Hi" goes. *)
Lemma SetStringPtr_writes_pointee_witness :
  fst (@SetStringPtr ILP32 0%nat [72; 105] 0 sample_state) = Returns tt /\
  bytes_at (mem (snd (@SetStringPtr ILP32 0%nat [72; 105] 0 sample_state))) 3 0
    = [72; 105; 0].
Proof.
  assert (Hvalid : address_of sample_state 0%nat <> 0) by (vm_compute; discriminate).
  assert (Hrange : 0 <= address_of sample_state 0%nat + 0 < @ULONG_MOD ILP32)
    by (vm_compute; split; congruence).
  assert (Htext : Forall (fun b => 0 < b < 256) [72; 105])
    by (repeat constructor; lia).
  destruct (@SetStringPtr_writes_pointee ILP32 0%nat [72; 105] 0 sample_state
              Hvalid Hrange Htext) as (Hret & Hbytes & _).
  split; [exact Hret|exact Hbytes].
Defined.




(** ** Virtual functions *)

Section Virtual.
Context `{Arch}.

Lemma GetVirtualFunc_run this iIndex s :
  address_of s this <> 0 ->
  exists tr,
    GetVirtualFunc this iIndex s
      = (Returns (length (pointers s)),
         set_accesses (fun _ => tr)
           (set_pointers
              (fun l => l ++ [CPointer_new (vtable_entry (mem s) (address_of s this) iIndex)])
              s)).
Proof.
  intros Hvalid. unfold GetVirtualFunc, IsValid, vtable_entry. run_prefix.
  apply Z.eqb_neq in Hvalid. rewrite Hvalid. cbn [negb].
  destruct (load_ulong_run (address_of s this) s) as [tr Hload].
  rewrite (bind_returns _ _ _ _ _ Hload). cbv zeta.
  destruct (word_at (mem s) (Pos.to_nat sizeof_ulong) (address_of s this) =? 0).
  - exists tr. by destruct s.
  - destruct (load_ulong_run
                (word_at (mem s) (Pos.to_nat sizeof_ulong) (address_of s this)
                 + iIndex * Z.pos sizeof_ulong) (set_accesses (fun _ => tr) s))
      as [tr' Hload'].
    rewrite (bind_returns _ _ _ _ _ Hload'). exists tr'. by destruct s.
Qed.

(** X9: [GetVirtualFunc] on a valid pointer always returns a new pointer: to
    the entry of the virtual table that the word at the address points to,
    and to NULL when that word is 0; memory is only read. *)
Theorem GetVirtualFunc_result (this : ref) (iIndex : Z) (s : state) :
  address_of s this <> 0 ->
  exists r,
    fst (GetVirtualFunc this iIndex s) = Returns r /\
    pointers s !! r = None /\
    address_of (snd (GetVirtualFunc this iIndex s)) r
      = vtable_entry (mem s) (address_of s this) iIndex /\
    (word_at (mem s) (Pos.to_nat sizeof_ulong) (address_of s this) = 0 ->
       address_of (snd (GetVirtualFunc this iIndex s)) r = 0) /\
    mem (snd (GetVirtualFunc this iIndex s)) = mem s.
Proof.
  intros Hvalid. destruct (GetVirtualFunc_run this iIndex s Hvalid) as [tr ->].
  exists (length (pointers s)). cbn [fst snd]. split; [done|].
  split; [by apply lookup_ge_None|].
  assert (Haddr : address_of
                    (set_accesses (fun _ => tr)
                       (set_pointers
                          (fun l => l ++ [CPointer_new
                                            (vtable_entry (mem s) (address_of s this) iIndex)])
                          s)) (length (pointers s))
                  = vtable_entry (mem s) (address_of s this) iIndex).
  { unfold address_of. cbn [pointers set_accesses set_pointers].
    by rewrite lookup_app_r, Nat.sub_diag. }
  split; [exact Haddr|]. split; [|by destruct s].
  intros Hnull. rewrite Haddr. unfold vtable_entry. by rewrite Hnull.
Qed.

(** X10: [MakeVirtualFunction] on a valid pointer fails with "Pointer is NULL."
    exactly when the virtual table or its entry is NULL; otherwise it
    returns a new function at the address of the entry with the convention
    and signature given.  Either way the pointer it made for the entry
    stays in the store, and memory is only read. *)
Theorem MakeVirtualFunction_result (this : ref) (iIndex : Z) (eConv : Convention_t)
    (args : list Argument_t) (return_type : ReturnType_t) (s : state) :
  address_of s this <> 0 ->
  (raises_condition (fst (MakeVirtualFunction this iIndex eConv args return_type s))
     InvalidPointer <-> vtable_entry (mem s) (address_of s this) iIndex = 0) /\
  (vtable_entry (mem s) (address_of s this) iIndex <> 0 ->
     exists f,
       fst (MakeVirtualFunction this iIndex eConv args return_type s) = Returns f /\
       functions s !! f = None /\
       functions (snd (MakeVirtualFunction this iIndex eConv args return_type s)) !! f
         = Some (CFunction_new (vtable_entry (mem s) (address_of s this) iIndex)
                   eConv args return_type)) /\
  length (pointers (snd (MakeVirtualFunction this iIndex eConv args return_type s)))
    = S (length (pointers s)) /\
  mem (snd (MakeVirtualFunction this iIndex eConv args return_type s)) = mem s.
Proof.
  intros Hvalid. unfold MakeVirtualFunction.
  destruct (GetVirtualFunc_run this iIndex s Hvalid) as [tr Hget].
  rewrite (bind_returns _ _ _ _ _ Hget).
  set (entry := vtable_entry (mem s) (address_of s this) iIndex).
  set (s1 := set_accesses _ _).
  assert (Haddr : address_of s1 (length (pointers s)) = entry).
  { unfold address_of, s1. cbn [pointers set_accesses set_pointers].
    by rewrite lookup_app_r, Nat.sub_diag. }
  assert (Hlen : length (pointers s1) = S (length (pointers s))).
  { unfold s1. cbn [pointers set_accesses set_pointers].
    rewrite length_app. cbn. lia. }
  assert (Hmem : mem s1 = mem s) by (by destruct s).
  assert (Hfun : functions s1 = functions s) by (by destruct s).
  unfold MakeFunction, IsValid. run_prefix. rewrite Haddr.
  destruct (Z.eqb_spec entry 0) as [Hnull|Hentry]; cbn [negb].
  - cbn. split; [done|]. split; [done|]. done.
  - cbn [new_CFunction fst snd]. split; [split; [done|done]|].
    split; [|by destruct s1].
    intros _. exists (length (functions s1)). split; [done|].
    rewrite Hfun. split; [by apply lookup_ge_None|].
    cbn [functions set_functions]. rewrite Hfun.
    by rewrite lookup_app_r, Nat.sub_diag.
Qed.
End Virtual.

(** A witness: the sample memory is blank, so the object at 0x1000 has no
    virtual table and the result points to NULL. *)
Lemma GetVirtualFunc_result_witness :
  exists r,
    fst (@GetVirtualFunc ILP32 0%nat 3 sample_state) = Returns r /\
    address_of (snd (@GetVirtualFunc ILP32 0%nat 3 sample_state)) r = 0.
Proof.
  assert (Hvalid : address_of sample_state 0%nat <> 0) by (vm_compute; discriminate).
  destruct (@GetVirtualFunc_result ILP32 0%nat 3 sample_state Hvalid)
    as (r & Hret & _ & _ & Hnull & _).
  exists r. split; [exact Hret|]. apply Hnull. reflexivity.
Defined.

(** A witness: without a virtual table [MakeVirtualFunction] fails. *)
Lemma MakeVirtualFunction_result_witness :
  raises_condition
    (fst (@MakeVirtualFunction ILP32 0%nat 3 CONV_THISCALL [DC_SIGCHAR_POINTER]
            DC_SIGCHAR_VOID sample_state))
    InvalidPointer.
Proof.
  assert (Hvalid : address_of sample_state 0%nat <> 0) by (vm_compute; discriminate).
  destruct (@MakeVirtualFunction_result ILP32 0%nat 3 CONV_THISCALL [DC_SIGCHAR_POINTER]
              DC_SIGCHAR_VOID sample_state Hvalid) as [[_ Hnull] _].
  apply Hnull. reflexivity.
Defined.

(** ** The scan of SearchBytes *)

Section Scan.
Context `{Arch}.

Lemma read_only_SearchBytes_for bytes base i : read_only (SearchBytes_for bytes base i).
Proof.
  revert i. induction bytes as [|b rest IH]; intros i s; cbn [SearchBytes_for].
  - exists i, (accesses s). by destruct s.
  - rewrite (bind_returns _ _ _ _ _ (eq_refl : load_byte (base + i) s = (_, _))).
    assert (Hrest : exists j tr,
              SearchBytes_for rest base (i + 1) (set_accesses (cons (Load (base + i))) s)
                = (Returns j, set_accesses (fun _ => tr) s)).
    { destruct (IH (i + 1) (set_accesses (cons (Load (base + i))) s)) as (j & tr & Hrun).
      exists j, tr. rewrite Hrun. by destruct s. }
    destruct (_ =? 42); [exact Hrest|].
    destruct (negb _); [|exact Hrest].
    exists i, (Load (base + i) :: accesses s). by destruct s.
Qed.

Lemma SearchBytes_for_window bytes base s :
  fst (SearchBytes_for bytes base 0 s) = Returns (Z.of_nat (length bytes)) <->
  window_accepted s bytes base.
Proof.
  pose proof (SearchBytes_for_accepts bytes base 0 s) as Hacc.
  rewrite Z.add_0_l in Hacc. rewrite Hacc. unfold window_accepted.
  by setoid_rewrite Z.add_0_r.
Qed.

Lemma SearchBytes_while_first_match n bytes base s :
  mem (snd (SearchBytes_while n bytes (Z.of_nat (length bytes)) base s)) = mem s /\
  ((exists r,
      fst (SearchBytes_while n bytes (Z.of_nat (length bytes)) base s) = Returns (Some r) /\
      pointers s !! r = None /\
      base <= address_of (snd (SearchBytes_while n bytes (Z.of_nat (length bytes)) base s)) r
        < base + Z.of_nat n /\
      window_accepted s bytes
        (address_of (snd (SearchBytes_while n bytes (Z.of_nat (length bytes)) base s)) r) /\
      (forall q,
         base <= q
           < address_of (snd (SearchBytes_while n bytes (Z.of_nat (length bytes)) base s)) r ->
         ~ window_accepted s bytes q))
   \/ (fst (SearchBytes_while n bytes (Z.of_nat (length bytes)) base s) = Returns None /\
       forall q, base <= q < base + Z.of_nat n -> ~ window_accepted s bytes q)).
Proof.
  revert base s. induction n as [|k IH]; intros base s; cbn [SearchBytes_while].
  - split; [done|]. right. split; [done|]. intros q Hq. lia.
  - destruct (read_only_SearchBytes_for bytes base 0 s) as (j & tr & Hfor).
    pose proof (SearchBytes_for_window bytes base s) as Hwin.
    rewrite Hfor in Hwin. cbn [fst] in Hwin.
    rewrite (bind_returns _ _ _ _ _ Hfor).
    destruct (Z.eqb_spec j (Z.of_nat (length bytes))) as [Hfull|Hpart].
    + assert (Hacc : window_accepted s bytes base) by (apply Hwin; by rewrite Hfull).
      set (s1 := set_accesses (fun _ => tr) s).
      assert (Hnew : bind (new_CPointer base) (fun r => ret (Some r)) s1
                     = (Returns (Some (length (pointers s))),
                        set_pointers (fun l => l ++ [CPointer_new base]) s1))
        by (by destruct s).
      rewrite Hnew. cbn [fst snd].
      assert (Haddr : address_of (set_pointers (fun l => l ++ [CPointer_new base]) s1)
                        (length (pointers s)) = base).
      { unfold address_of, s1. cbn [pointers set_pointers set_accesses].
        by rewrite lookup_app_r, Nat.sub_diag. }
      split; [by destruct s|]. left. exists (length (pointers s)).
      rewrite Haddr.
      split; [done|]. split; [by apply lookup_ge_None|].
      split; [lia|]. split; [exact Hacc|]. intros q Hq. lia.
    + assert (Hrej : ~ window_accepted s bytes base).
      { intros Hacc. apply Hwin in Hacc. by simplify_eq. }
      destruct (IH (base + 1) (set_accesses (fun _ => tr) s)) as [Hmem Hcases].
      split; [rewrite Hmem; by destruct s|].
      destruct Hcases as [(r & Hret & Hfresh & Hrange & Hacc & Hfirst)|[Hret Hnone]].
      * left. exists r. split; [exact Hret|]. split; [by destruct s|].
        split; [lia|]. split; [exact Hacc|].
        intros q Hq. destruct (decide (q = base)) as [->|Hne]; [exact Hrej|].
        apply Hfirst. lia.
      * right. split; [exact Hret|].
        intros q Hq. destruct (decide (q = base)) as [->|Hne]; [exact Hrej|].
        apply Hnone. lia.
Qed.

Lemma SearchBytes_end a n (len : nat) :
  0 <= a -> Z.of_nat len <= n -> a + n + 1 < ULONG_MOD ->
  ulong (ulong (a + n) - ulong (Z.of_nat len - 1)) = a + n - Z.of_nat len + 1.
Proof.
  intros Ha Hlen Hn. rewrite (ulong_small (a + n)) by lia.
  destruct len as [|len'].
  - replace (ulong (Z.of_nat 0 - 1)) with (ULONG_MOD - 1).
    + unfold ulong. replace (a + n - (ULONG_MOD - 1)) with (a + n + 1 + (-1) * ULONG_MOD) by lia.
      rewrite Z.mod_add by lia. rewrite Z.mod_small; lia.
    + unfold ulong. replace (Z.of_nat 0 - 1) with (ULONG_MOD - 1 + (-1) * ULONG_MOD) by lia.
      rewrite Z.mod_add by lia. rewrite Z.mod_small; lia.
  - rewrite (ulong_small (Z.of_nat (S len') - 1)) by lia.
    rewrite ulong_small; lia.
Qed.

(** X11: What [SearchBytes] finds, for a pattern without NUL bytes (one that
    [PyArg_Parse] hands over) and a range that ends inside the address
    space: the scan visits the windows at [address], [address + 1], ... up
    to [address + n - length]; the result points to the first window that
    the inner loop runs through (every memory byte 0x2A or equal to its
    pattern byte), and is NULL exactly when there is none.  The pointer is
    new, and memory is only read. *)
Theorem SearchBytes_first_match (this : ref) (oBytes : list Z) (n : Z) (s : state) :
  address_of s this <> 0 -> 0 <= address_of s this ->
  Forall (fun b => 0 < b < 256) oBytes ->
  Z.of_nat (length oBytes) <= n ->
  address_of s this + n + 1 < ULONG_MOD ->
  mem (snd (SearchBytes this oBytes n s)) = mem s /\
  ((exists r,
      fst (SearchBytes this oBytes n s) = Returns (Some r) /\
      pointers s !! r = None /\
      address_of s this <= address_of (snd (SearchBytes this oBytes n s)) r
        <= address_of s this + n - Z.of_nat (length oBytes) /\
      window_accepted s oBytes (address_of (snd (SearchBytes this oBytes n s)) r) /\
      (forall q, address_of s this <= q < address_of (snd (SearchBytes this oBytes n s)) r ->
         ~ window_accepted s oBytes q))
   \/ (fst (SearchBytes this oBytes n s) = Returns None /\
       forall q, address_of s this <= q <= address_of s this + n - Z.of_nat (length oBytes) ->
         ~ window_accepted s oBytes q)).
Proof.
  intros Hvalid Hnonneg _ Hlen Hrange. unfold SearchBytes. run_prefix.
  apply Z.eqb_neq in Hvalid. rewrite Hvalid.
  destruct (Z.ltb_spec n (Z.of_nat (length oBytes))) as [?|_]; [lia|]. cbv zeta.
  rewrite SearchBytes_end by done.
  destruct (SearchBytes_while_first_match
              (Z.to_nat (address_of s this + n - Z.of_nat (length oBytes) + 1
                         - address_of s this))
              oBytes (address_of s this) s) as [Hmem Hcases].
  split; [exact Hmem|].
  destruct Hcases as [(r & Hret & Hfresh & Hin & Hacc & Hfirst)|[Hret Hnone]].
  - left. exists r. split; [exact Hret|]. split; [exact Hfresh|].
    split; [lia|]. split; [exact Hacc|exact Hfirst].
  - right. split; [exact Hret|]. intros q Hq. apply Hnone. lia.
Qed.

(** X12: The empty pattern is found at once: on a valid pointer, for a range
    that ends inside the address space, [SearchBytes] returns a new pointer
    to the address it was invoked on and reads no byte of memory. *)
Theorem SearchBytes_empty_pattern (this : ref) (n : Z) (s : state) :
  address_of s this <> 0 -> 0 <= address_of s this -> 0 <= n ->
  address_of s this + n + 1 < ULONG_MOD ->
  exists r,
    fst (SearchBytes this [] n s) = Returns (Some r) /\
    pointers s !! r = None /\
    address_of (snd (SearchBytes this [] n s)) r = address_of s this /\
    accesses (snd (SearchBytes this [] n s)) = accesses s /\
    mem (snd (SearchBytes this [] n s)) = mem s.
Proof.
  intros Hvalid Hnonneg Hn Hrange. unfold SearchBytes. run_prefix.
  apply Z.eqb_neq in Hvalid. rewrite Hvalid.
  destruct (Z.ltb_spec n (Z.of_nat (length (@nil Z)))) as [Hlt|_];
    [cbn in Hlt; lia|]. cbv zeta.
  rewrite SearchBytes_end by (cbn; lia). cbn [length].
  replace (Z.to_nat (address_of s this + n - Z.of_nat 0 + 1 - address_of s this))
    with (S (Z.to_nat n)) by lia.
  assert (Hrun : SearchBytes_while (S (Z.to_nat n)) [] (Z.of_nat 0) (address_of s this) s
                 = (Returns (Some (length (pointers s))),
                    set_pointers (fun l => l ++ [CPointer_new (address_of s this)]) s))
    by reflexivity.
  rewrite Hrun. cbn [fst snd]. exists (length (pointers s)).
  split; [done|]. split; [by apply lookup_ge_None|].
  split; [|by destruct s].
  unfold address_of at 1. cbn [pointers set_pointers].
  by rewrite lookup_app_r, Nat.sub_diag.
Qed.
End Scan.

(** A witness: in the memory with 0x2A at 0x1000 the pattern 0x07 is found
    there. *)
Lemma SearchBytes_first_match_witness :
  exists r,
    fst (@SearchBytes ILP32 0%nat [7] 1 asterisk_state) = Returns (Some r) /\
    window_accepted asterisk_state [7]
      (address_of (snd (@SearchBytes ILP32 0%nat [7] 1 asterisk_state)) r).
Proof.
  assert (Hvalid : address_of asterisk_state 0%nat <> 0) by (vm_compute; discriminate).
  assert (Hnonneg : 0 <= address_of asterisk_state 0%nat) by (vm_compute; discriminate).
  assert (Hbytes : Forall (fun b => 0 < b < 256) [7]) by (repeat constructor; lia).
  assert (Hlen : Z.of_nat (length [7]) <= 1) by (vm_compute; discriminate).
  assert (Hrange : address_of asterisk_state 0%nat + 1 + 1 < @ULONG_MOD ILP32)
    by (vm_compute; reflexivity).
  destruct (@SearchBytes_first_match ILP32 0%nat [7] 1 asterisk_state
              Hvalid Hnonneg Hbytes Hlen Hrange)
    as [_ [(r & Hret & _ & _ & Hacc & _)|[Hret _]]].
  - exists r. split; [exact Hret|exact Hacc].
  - vm_compute in Hret. discriminate Hret.
Defined.

(** A witness: the empty pattern searched over eight bytes from 0x1000. *)
Lemma SearchBytes_empty_pattern_witness :
  exists r,
    fst (@SearchBytes ILP32 0%nat [] 8 sample_state) = Returns (Some r) /\
    address_of (snd (@SearchBytes ILP32 0%nat [] 8 sample_state)) r = 4096.
Proof.
  assert (Hvalid : address_of sample_state 0%nat <> 0) by (vm_compute; discriminate).
  assert (Hnonneg : 0 <= address_of sample_state 0%nat) by (vm_compute; discriminate).
  assert (Hn : 0 <= 8) by lia.
  assert (Hrange : address_of sample_state 0%nat + 8 + 1 < @ULONG_MOD ILP32)
    by (vm_compute; reflexivity).
  destruct (@SearchBytes_empty_pattern ILP32 0%nat 8 sample_state
              Hvalid Hnonneg Hn Hrange) as (r & Hret & _ & Haddr & _).
  exists r. split; [exact Hret|exact Haddr].
Defined.

(** ** Marshalling in CFunction::Call *)

Ltac expected_exception :=
  apply list_elem_of_In;
  unfold Call_exceptions, marshalling_exceptions, conversion_error; cbn; auto 10.

Lemma marshalling_exception_expected e :
  e ∈ marshalling_exceptions -> e ∈ Call_exceptions.
Proof.
  intros Hin. apply list_elem_of_In in Hin. cbn in Hin.
  destruct Hin as [<-|[<-|[]]]; expected_exception.
Qed.

Lemma marshalling_exception_not_decoding e :
  e ∈ marshalling_exceptions -> e <> decoding_error.
Proof.
  intros Hin. apply list_elem_of_In in Hin. cbn in Hin.
  destruct Hin as [<-|[<-|[]]]; discriminate.
Qed.

Section Marshalling.
Context `{Arch} `{Native}.

Lemma pushes_dcArg a : pushes 1 (dcArg a).
Proof.
  intros s. cbn. split; [done|]. split; [done|]. split; [done|].
  intros _. by exists [a].
Qed.

Lemma pushes_raise exc msg :
  PyErr exc msg ∈ marshalling_exceptions -> pushes 1 (BOOST_RAISE_EXCEPTION exc msg).
Proof.
  intros Hin s. cbn. split; [done|]. split; [done|]. split; [|done].
  intros e He. by simplify_eq.
Qed.

Lemma conversion_error_expected : conversion_error ∈ marshalling_exceptions.
Proof. expected_exception. Qed.

Lemma pushes_extract_as t arg (k : Z -> M unit) :
  (forall v, pushes 1 (k v)) -> pushes 1 (bind (extract_as t arg) k).
Proof.
  intros Hk s. unfold bind, extract_as. destruct (extract t arg) as [v|]; [apply Hk|].
  cbn. split; [done|]. split; [done|]. split; [|done].
  intros e He. simplify_eq. apply conversion_error_expected.
Qed.

Lemma pushes_ExtractPyPtr_arg arg (k : Z -> M unit) :
  (forall v, pushes 1 (k v)) -> pushes 1 (bind (ExtractPyPtr_arg arg) k).
Proof.
  intros Hk s. destruct arg as [o|id]; cbn [ExtractPyPtr_arg].
  - rewrite (bind_returns _ _ _ _ _ (ExtractPyPtr_run _ _)). apply Hk.
  - unfold bind. cbn. split; [done|]. split; [done|]. split; [|done].
    intros e He. simplify_eq. apply conversion_error_expected.
Qed.

Lemma pushes_Call_push_arg t arg : pushes 1 (Call_push_arg t arg).
Proof.
  unfold Call_push_arg.
  repeat match goal with
         | |- context [if tag_is ?a ?b then _ else _] => destruct (tag_is a b)
         end;
    first [ apply pushes_extract_as; intros v; apply pushes_dcArg
          | apply pushes_ExtractPyPtr_arg; intros v; apply pushes_dcArg
          | apply pushes_raise; expected_exception ].
Qed.

Lemma Call_push_arg_supported t arg s :
  fst (Call_push_arg t arg s) = Returns tt -> supported_argument t = true.
Proof.
  unfold Call_push_arg, supported_argument, tag_is. cbn [existsb].
  repeat match goal with
         | |- context [if Ascii.eqb ?a ?b then _ else _] => destruct (Ascii.eqb a b)
         end; cbn [orb]; try reflexivity.
  intros Hret. discriminate Hret.
Qed.

Lemma pushes_ret : pushes 0 (ret tt).
Proof.
  intros s. cbn. split; [done|]. split; [done|]. split; [done|].
  intros _. exists []. by rewrite app_nil_r.
Qed.

Lemma pushes_seq k1 k2 (c1 c2 : M unit) :
  pushes k1 c1 -> pushes k2 c2 -> pushes (k1 + k2) (bind c1 (fun _ => c2)).
Proof.
  intros H1 H2 s. unfold bind.
  destruct (H1 s) as (Hcalls1 & Hmode1 & Hraise1 & Hret1).
  destruct (c1 s) as [[[]|e] s1]; cbn [fst snd] in *.
  - destruct (H2 s1) as (Hcalls2 & Hmode2 & Hraise2 & Hret2).
    split; [congruence|]. split; [congruence|]. split; [exact Hraise2|].
    intros Hret. destruct (Hret1 eq_refl) as (new1 & Hargs1 & Hlen1).
    destruct (Hret2 Hret) as (new2 & Hargs2 & Hlen2).
    exists (new1 ++ new2). rewrite Hargs2, Hargs1, <- app_assoc, length_app.
    split; [done|lia].
  - split; [done|]. split; [done|]. split; [exact Hraise1|done].
Qed.

Lemma pushes_Call_push_args args tags :
  pushes (Nat.min (length args) (length tags)) (Call_push_args args tags).
Proof.
  revert tags. induction args as [|arg args' IH]; intros tags; cbn [Call_push_args].
  - apply pushes_ret.
  - destruct tags as [|t tags']; [apply pushes_ret|].
    cbn [length Nat.min].
    apply (pushes_seq 1 (Nat.min (length args') (length tags'))).
    + apply pushes_Call_push_arg.
    + apply IH.
Qed.

Lemma Call_push_args_supported args tags s :
  length args = length tags ->
  fst (Call_push_args args tags s) = Returns tt ->
  Forall (fun t => supported_argument t = true) tags.
Proof.
  revert tags s. induction args as [|arg args' IH]; intros [|t tags'] s Hlen;
    cbn [Call_push_args]; try done.
  unfold bind. pose proof (Call_push_arg_supported t arg s) as Harg.
  destruct (Call_push_arg t arg s) as [[[]|e] s1]; cbn [fst] in *; [|done].
  intros Hrest. constructor; [by apply Harg|].
  apply (IH tags' s1); [by simplify_eq/=|exact Hrest].
Qed.

Lemma Call_invoke_run target r s :
  (forall v, fst (Call_invoke target r s) = Returns v ->
     supported_return r = true /\
     exists kind,
       native_calls (snd (Call_invoke target r s))
         = native_calls s ++ [(kind, g_pCallVM s, target)]) /\
  (forall e, fst (Call_invoke target r s) = Raises e ->
     (e = PyErr PyExc_TypeError "Unknown return type." /\
      supported_return r = false /\
      native_calls (snd (Call_invoke target r s)) = native_calls s) \/
     (e = decoding_error /\
      (r = DC_SIGCHAR_CHAR \/ r = DC_SIGCHAR_STRING) /\
      exists kind,
        native_calls (snd (Call_invoke target r s))
          = native_calls s ++ [(kind, g_pCallVM s, target)])).
Proof.
  unfold Call_invoke, supported_return, supported_argument, tag_is. cbn [existsb].
  repeat match goal with
         | |- context [if Ascii.eqb ?a ?b then _ else _] => destruct (Ascii.eqb_spec a b)
         end; cbn [orb];
    unfold bind, object_of_char, object_of_string;
    cbn [dcCall new_CPointer ret fst snd];
    repeat match goal with
           | |- context [if ?c then _ else _] => destruct c
           end;
    (split; [intros res Hres|intros exc Hexc]);
    cbn in *; try discriminate;
    try (split; [reflexivity|by eexists]).
  - right. simplify_eq. split; [done|]. split; [by left|by eexists].
  - right. simplify_eq. split; [done|]. split; [by right|by eexists].
  - left. by simplify_eq.
Qed.

Lemma Call_marshals this args s :
  f_ulAddr this <> 0 -> length args = length (m_Args this) ->
  Call this args s
  = bind (Call_push_args args (m_Args this))
      (fun _ => Call_invoke (f_ulAddr this) (m_ReturnType this))
      (set_vm (fun _ => mkVM (Some (m_eConv this)) []) s).
Proof.
  intros Hvalid Hlen. unfold Call, IsValid. fold (f_ulAddr this).
  apply Z.eqb_neq in Hvalid. rewrite Hvalid. cbn [negb].
  apply Nat.eqb_eq in Hlen. rewrite Hlen. cbn [negb].
  unfold bind at 1. cbn [dcReset modify]. unfold bind at 1. cbn [dcMode modify].
  by destruct s.
Qed.

Lemma Call_rejects this args s :
  f_ulAddr this = 0 \/ length args <> length (m_Args this) ->
  exists e, Call this args s = (Raises e, s) /\ e ∈ Call_exceptions /\
            e <> decoding_error.
Proof.
  intros Hbad. unfold Call, IsValid. fold (f_ulAddr this).
  destruct (Z.eqb_spec (f_ulAddr this) 0) as [Hnull|Hvalid]; cbn [negb].
  - eexists. split; [reflexivity|]. split; [expected_exception|discriminate].
  - destruct (Nat.eqb_spec (length args) (length (m_Args this))) as [Hlen|Hlen];
      cbn [negb]; [by destruct Hbad|].
    eexists. split; [reflexivity|]. split; [expected_exception|discriminate].
Qed.

(** X13: [Call] reaches native code at most once.  A call that returns has
    made exactly one native call, to the address of the function, in the
    convention of the function, from a call VM that holds one argument per
    argument passed, whatever the VM held before.  So has a call that ends
    in the decoding error: that one is raised after the native call, when
    the Python object of a [char] or C string result is built.  A call
    that raises anything else has made no native call. *)
Theorem Call_native_calls (this : CFunction) (args : list pyvalue) (s : state) :
  (forall v, fst (Call this args s) = Returns v ->
     one_native_call this args s (snd (Call this args s))) /\
  (forall e, fst (Call this args s) = Raises e ->
     (e = decoding_error -> one_native_call this args s (snd (Call this args s))) /\
     (e <> decoding_error -> native_calls (snd (Call this args s)) = native_calls s)).
Proof.
  destruct (decide (f_ulAddr this = 0 \/ length args <> length (m_Args this)))
    as [Hbad|Hgood].
  - destruct (Call_rejects this args s Hbad) as (e & -> & _ & Hne).
    split; [done|]. intros e' He'. cbn in He'. simplify_eq. by split.
  - assert (Hvalid : f_ulAddr this <> 0) by tauto.
    assert (Hlen : length args = length (m_Args this)) by lia.
    rewrite (Call_marshals this args s Hvalid Hlen).
    set (s0 := set_vm (fun _ => mkVM (Some (m_eConv this)) []) s).
    destruct (pushes_Call_push_args args (m_Args this) s0)
      as (Hcalls & Hmode & Hmarshal & Hargs).
    unfold bind.
    destruct (Call_push_args args (m_Args this) s0) as [[[]|e] s1]; cbn [fst snd] in *.
    + destruct (Call_invoke_run (f_ulAddr this) (m_ReturnType this) s1)
        as [Hret Hraise].
      assert (Hone : forall kind,
                native_calls (snd (Call_invoke (f_ulAddr this) (m_ReturnType this) s1))
                  = native_calls s1 ++ [(kind, g_pCallVM s1, f_ulAddr this)] ->
                one_native_call this args s
                  (snd (Call_invoke (f_ulAddr this) (m_ReturnType this) s1))).
      { intros kind Hlog. exists kind, (g_pCallVM s1). rewrite Hlog, Hcalls.
        split; [by destruct s|]. split; [by rewrite Hmode|].
        destruct (Hargs eq_refl) as (new & Hnew & Hlength).
        rewrite Hnew. cbn. lia. }
      split.
      * intros v Hv. destruct (Hret v Hv) as (_ & kind & Hlog). by apply (Hone kind).
      * intros e He.
        destruct (Hraise e He) as [(-> & _ & Hlog)|(-> & _ & kind & Hlog)].
        -- split; [discriminate|]. intros _. rewrite Hlog, Hcalls. by destruct s.
        -- split; [intros _; by apply (Hone kind)|done].
    + split; [done|]. intros e' He'. simplify_eq.
      split; [|intros _; rewrite Hcalls; by destruct s].
      intros ->. by destruct (marshalling_exception_not_decoding _ (Hmarshal _ eq_refl)).
Qed.

(** X14: A call that returns was made on a function with a non-zero address,
    with as many arguments as parameter tags, every parameter tag one of
    the fifteen [Call] has a case for (void is not one of them) and the
    return tag one of these or void. *)
Theorem Call_returns_supported (this : CFunction) (args : list pyvalue) (s : state)
    (v : pyresult) :
  fst (Call this args s) = Returns v ->
  f_ulAddr this <> 0 /\
  length args = length (m_Args this) /\
  Forall (fun t => supported_argument t = true) (m_Args this) /\
  supported_return (m_ReturnType this) = true /\
  supported_argument DC_SIGCHAR_VOID = false.
Proof.
  intros Hv.
  destruct (decide (f_ulAddr this = 0 \/ length args <> length (m_Args this)))
    as [Hbad|Hgood].
  { destruct (Call_rejects this args s Hbad) as (e & Hrun & _).
    rewrite Hrun in Hv. discriminate Hv. }
  assert (Hvalid : f_ulAddr this <> 0) by tauto.
  assert (Hlen : length args = length (m_Args this)) by lia.
  split; [exact Hvalid|]. split; [exact Hlen|].
  rewrite (Call_marshals this args s Hvalid Hlen) in Hv.
  set (s0 := set_vm (fun _ => mkVM (Some (m_eConv this)) []) s) in Hv.
  pose proof (Call_push_args_supported args (m_Args this) s0 Hlen) as Htags.
  unfold bind in Hv.
  destruct (Call_push_args args (m_Args this) s0) as [[[]|e] s1]; [|discriminate Hv].
  split; [by apply Htags|]. split; [|reflexivity].
  by destruct (Call_invoke_run (f_ulAddr this) (m_ReturnType this) s1) as [Hret _];
    destruct (Hret v Hv).
Qed.

(** X15: The exceptions of [Call] are six: the three ValueErrors "Function
    pointer is NULL.", "Number of passed arguments is not equal to the
    required number." and "Unknown argument type.", the TypeError "Unknown
    return type.", the failure of a conversion of an argument, and the
    decoding error of the result, which only a function that returns a
    [char] or a C string can end in. *)
Theorem Call_raises_only (this : CFunction) (args : list pyvalue) (s : state) (e : exn) :
  fst (Call this args s) = Raises e ->
  e ∈ Call_exceptions /\
  (e = decoding_error ->
     m_ReturnType this = DC_SIGCHAR_CHAR \/ m_ReturnType this = DC_SIGCHAR_STRING).
Proof.
  intros He.
  destruct (decide (f_ulAddr this = 0 \/ length args <> length (m_Args this)))
    as [Hbad|Hgood].
  { destruct (Call_rejects this args s Hbad) as (e' & Hrun & Hin & Hne).
    rewrite Hrun in He. by simplify_eq/=. }
  assert (Hvalid : f_ulAddr this <> 0) by tauto.
  assert (Hlen : length args = length (m_Args this)) by lia.
  rewrite (Call_marshals this args s Hvalid Hlen) in He.
  set (s0 := set_vm (fun _ => mkVM (Some (m_eConv this)) []) s) in He.
  destruct (pushes_Call_push_args args (m_Args this) s0) as (_ & _ & Hraise & _).
  unfold bind in He.
  destruct (Call_push_args args (m_Args this) s0) as [[[]|e'] s1]; cbn [fst] in *.
  - destruct (Call_invoke_run (f_ulAddr this) (m_ReturnType this) s1) as [_ Hinv].
    destruct (Hinv e He) as [(-> & _)|(-> & Htag & _)].
    + split; [expected_exception|discriminate].
    + split; [expected_exception|done].
  - simplify_eq. split; [by apply marshalling_exception_expected, Hraise|].
    intros ->. by destruct (marshalling_exception_not_decoding _ (Hraise _ eq_refl)).
Qed.
End Marshalling.

(** A witness: the two-argument call of the sample function returns. *)
Lemma Call_returns_supported_witness :
  f_ulAddr sample_function <> 0 /\
  length [PyAddressLike (PyLong 5); PyAddressLike (PyCPointer 0%nat)]
    = length (m_Args sample_function) /\
  Forall (fun t => supported_argument t = true) (m_Args sample_function) /\
  supported_return (m_ReturnType sample_function) = true /\
  supported_argument DC_SIGCHAR_VOID = false.
Proof.
  apply (@Call_returns_supported ILP32 sample_native sample_function
           [PyAddressLike (PyLong 5); PyAddressLike (PyCPointer 0%nat)] sample_state
           (PyOf c_int 2)).
  vm_compute. reflexivity.
Defined.

(** A witness: the sample native side answers a two-argument call with the
    number 2, where it has no UTF-8 string; a function that returns a C
    string ends in the decoding error, after its one native call. *)
Lemma Call_native_calls_witness :
  one_native_call string_function
    [PyAddressLike (PyLong 5); PyAddressLike (PyCPointer 0%nat)] sample_state
    (snd (@Call ILP32 sample_native string_function
            [PyAddressLike (PyLong 5); PyAddressLike (PyCPointer 0%nat)] sample_state)).
Proof.
  apply (proj2 (@Call_native_calls ILP32 sample_native string_function
                  [PyAddressLike (PyLong 5); PyAddressLike (PyCPointer 0%nat)]
                  sample_state) decoding_error).
  - vm_compute. reflexivity.
  - reflexivity.
Defined.

(** A witness: the same call raises the decoding error, and the function
    returns a C string. *)
Lemma Call_raises_only_witness :
  decoding_error ∈ Call_exceptions /\
  (decoding_error = decoding_error ->
   m_ReturnType string_function = DC_SIGCHAR_CHAR \/
   m_ReturnType string_function = DC_SIGCHAR_STRING).
Proof.
  apply (@Call_raises_only ILP32 sample_native string_function
           [PyAddressLike (PyLong 5); PyAddressLike (PyCPointer 0%nat)] sample_state).
  vm_compute. reflexivity.
Defined.

(** ** Functions with the address 0 *)

Section Null_function.
Context `{Arch} `{Native}.

(** X16: On a function whose address is 0 each of [Call], [CallTrampoline],
    [AddHook] and [RemoveHook] raises "Function pointer is NULL." and leaves
    the state as it was: nothing is printed, hooked, pushed or called. *)
Theorem null_function_rejected (this : CFunction) (args : list pyvalue)
    (eType : HookType_t) (pCallable : PyObject) (s : state) :
  f_ulAddr this = 0 ->
  Call this args s
    = (Raises (PyErr PyExc_ValueError "Function pointer is NULL."), s) /\
  CallTrampoline this args s
    = (Raises (PyErr PyExc_ValueError "Function pointer is NULL."), s) /\
  AddHook this eType pCallable s
    = (Raises (PyErr PyExc_ValueError "Function pointer is NULL."), s) /\
  RemoveHook this eType pCallable s
    = (Raises (PyErr PyExc_ValueError "Function pointer is NULL."), s).
Proof.
  intros Hnull.
  unfold Call, CallTrampoline, AddHook, RemoveHook, IsValid. fold (f_ulAddr this).
  rewrite Hnull. by cbn.
Qed.

(** ** CallTrampoline *)

Lemma Call_never_not_hooked this args s :
  ~ raises_condition (fst (Call this args s)) NotHooked.
Proof.
  destruct (decide (f_ulAddr this = 0 \/ length args <> length (m_Args this)))
    as [Hbad|Hgood].
  { destruct (Call_rejects this args s Hbad) as (e & -> & Hin & _).
    apply list_elem_of_In in Hin. cbn in Hin. intros Hcond.
    repeat (destruct Hin as [<-|Hin]; [vm_compute in Hcond; discriminate Hcond|]).
    destruct Hin. }
  assert (Hvalid : f_ulAddr this <> 0) by tauto.
  assert (Hlen : length args = length (m_Args this)) by lia.
  rewrite (Call_marshals this args s Hvalid Hlen).
  set (s0 := set_vm (fun _ => mkVM (Some (m_eConv this)) []) s).
  destruct (pushes_Call_push_args args (m_Args this) s0) as (_ & _ & Hraise & _).
  unfold bind.
  destruct (Call_push_args args (m_Args this) s0) as [[[]|e] s1]; cbn [fst] in *.
  - destruct (Call_invoke_run (f_ulAddr this) (m_ReturnType this) s1) as [_ Hinv].
    destruct (Call_invoke (f_ulAddr this) (m_ReturnType this) s1) as [[v|e] s2];
      cbn [fst] in *; [cbn; tauto|].
    destruct (Hinv e eq_refl) as [(-> & _)|(-> & _)]; vm_compute; discriminate.
  - specialize (Hraise e eq_refl). apply list_elem_of_In in Hraise. cbn in Hraise.
    destruct Hraise as [<-|[<-|[]]]; vm_compute; discriminate.
Qed.

(** X17: On a function with a non-zero address [CallTrampoline] fails with
    "Function was not hooked." exactly when the hook manager has no hook
    for the address, and then the state is as before; with a hook it is
    the [Call] of the same signature at the trampoline of that hook. *)
Theorem CallTrampoline_not_hooked (this : CFunction) (args : list pyvalue) (s : state) :
  f_ulAddr this <> 0 ->
  (raises_condition (fst (CallTrampoline this args s)) NotHooked <->
     find_hook_from 0 (g_pHookMngr s) (f_ulAddr this) = None) /\
  (find_hook_from 0 (g_pHookMngr s) (f_ulAddr this) = None ->
     snd (CallTrampoline this args s) = s) /\
  (forall pHook hook,
     find_hook_from 0 (g_pHookMngr s) (f_ulAddr this) = Some (pHook, hook) ->
     CallTrampoline this args s
       = Call (CFunction_new (m_pTrampoline hook) (m_eConv this) (m_Args this)
                 (m_ReturnType this)) args s).
Proof.
  intros Hvalid. unfold CallTrampoline, IsValid. fold (f_ulAddr this).
  apply Z.eqb_neq in Hvalid. rewrite Hvalid. cbn [negb].
  unfold bind, FindHook, gets.
  destruct (find_hook_from 0 (g_pHookMngr s) (f_ulAddr this)) as [[pHook hook]|].
  - split; [|split; [done|]].
    + split; [|done]. intros Hcond. by apply Call_never_not_hooked in Hcond.
    + intros ? ? ?. by simplify_eq.
  - by repeat split.
Qed.
End Null_function.

(** A witness: the function object at address 0. *)
Lemma null_function_rejected_witness :
  @Call ILP32 sample_native (CFunction_new 0 CONV_CDECL [] DC_SIGCHAR_VOID) [] sample_state
    = (Raises (PyErr PyExc_ValueError "Function pointer is NULL."), sample_state).
Proof.
  apply (@null_function_rejected ILP32 sample_native
           (CFunction_new 0 CONV_CDECL [] DC_SIGCHAR_VOID) [] HOOKTYPE_PRE 7 sample_state).
  reflexivity.
Defined.

(** A witness: the sample function is not hooked in the sample state. *)
Lemma CallTrampoline_not_hooked_witness :
  raises_condition
    (fst (@CallTrampoline ILP32 sample_native sample_function [] sample_state)) NotHooked /\
  snd (@CallTrampoline ILP32 sample_native sample_function [] sample_state) = sample_state.
Proof.
  assert (Hvalid : f_ulAddr sample_function <> 0) by (vm_compute; discriminate).
  destruct (@CallTrampoline_not_hooked ILP32 sample_native sample_function []
              sample_state Hvalid) as ([_ Hraise] & Hstate & _).
  split; [apply Hraise|apply Hstate]; reflexivity.
Defined.

(** ** Hooks: how the operations compose *)

Section Hook_composition.
Context `{Arch} `{Native}.

Lemma AddHook_state this eType pCallable s :
  f_ulAddr this <> 0 ->
  exists pHook hook s',
    AddHook this eType pCallable s = (Returns pCallable, s') /\
    find_hook_from 0 (g_pHookMngr s') (f_ulAddr this) = Some (pHook, hook) /\
    g_mapCallbacks s'
      = update_callbacks pHook eType (fun l => l ++ [pCallable]) (g_mapCallbacks s).
Proof.
  intros Hvalid.
  set (s0 := set_stdout
               (fun out => out ++ [signature_string (m_Args this) (m_ReturnType this)]) s).
  destruct (HookFunction_run (f_ulAddr this) (m_eConv this)
              (signature_string (m_Args this) (m_ReturnType this)) s0)
    as (pHook & hook & s1 & Hrun & Hfind & Hcb & _).
  set (register := fun h : CHook =>
         if decide ((eType, SP_HookHandler) ∈ m_hookHandler h) then h
         else mkCHook (m_pFunc h) (m_pTrampoline h) (m_eConvention h)
                (m_szParams h) (m_hookHandler h ++ [(eType, SP_HookHandler)])).
  destruct (find_hook_from_alter register 0 pHook (g_pHookMngr s1) (f_ulAddr this)
              pHook hook) as [hook' Hfind'];
    [by intros h0; unfold register; destruct (decide _)|exact Hfind|].
  exists pHook, hook',
    (set_callbacks (update_callbacks pHook eType (fun l => l ++ [pCallable]))
       (set_hooks (alter register pHook) s1)).
  split; [|split; [exact Hfind'|cbn; by rewrite Hcb]].
  unfold AddHook, IsValid. fold (f_ulAddr this).
  apply Z.eqb_neq in Hvalid. rewrite Hvalid. cbn [negb]. cbv zeta.
  rewrite (bind_returns _ _ _ _ _ (eq_refl : puts _ s = (Returns tt, s0))).
  rewrite (bind_returns _ _ _ _ _ Hrun). reflexivity.
Qed.

Lemma RemoveHook_state this eType pCallable s pHook hook :
  f_ulAddr this <> 0 ->
  find_hook_from 0 (g_pHookMngr s) (f_ulAddr this) = Some (pHook, hook) ->
  RemoveHook this eType pCallable s
    = (Returns tt, set_callbacks (update_callbacks pHook eType (list_remove pCallable)) s).
Proof.
  intros Hvalid Hfind. unfold RemoveHook, IsValid. fold (f_ulAddr this).
  apply Z.eqb_neq in Hvalid. rewrite Hvalid. cbn [negb].
  unfold bind, FindHook, gets. by rewrite Hfind.
Qed.

Lemma list_remove_app_self value l :
  list_remove value (l ++ [value]) = list_remove value l.
Proof.
  unfold list_remove. rewrite filter_app, filter_cons_False, filter_nil by tauto.
  apply app_nil_r.
Qed.

(** X18: [AddHook] followed by [RemoveHook] of the same handle, on a function
    with a non-zero address: the handle is gone from the list of the phase,
    which is the list from before the two calls without the entries equal
    to the handle (and that very list when the handle was not in it); the
    lists of other hooks and phases are as before; and the hook itself is
    still there: removing the last callback does not unhook the function. *)
Theorem AddHook_then_RemoveHook (this : CFunction) (eType : HookType_t)
    (pCallable : PyObject) (s : state) :
  f_ulAddr this <> 0 ->
  exists pHook hook,
    find_hook_from 0
      (g_pHookMngr (snd (RemoveHook this eType pCallable
                           (snd (AddHook this eType pCallable s)))))
      (f_ulAddr this) = Some (pHook, hook) /\
    callbacks_at
      (g_mapCallbacks (snd (RemoveHook this eType pCallable
                              (snd (AddHook this eType pCallable s)))))
      pHook eType
      = filter (fun x => x <> pCallable) (callbacks_at (g_mapCallbacks s) pHook eType) /\
    (pCallable ∉ callbacks_at (g_mapCallbacks s) pHook eType ->
     callbacks_at
       (g_mapCallbacks (snd (RemoveHook this eType pCallable
                               (snd (AddHook this eType pCallable s)))))
       pHook eType
       = callbacks_at (g_mapCallbacks s) pHook eType) /\
    (forall h t, (h, t) <> (pHook, eType) ->
       callbacks_at
         (g_mapCallbacks (snd (RemoveHook this eType pCallable
                                 (snd (AddHook this eType pCallable s)))))
         h t
         = callbacks_at (g_mapCallbacks s) h t).
Proof.
  intros Hvalid.
  destruct (AddHook_state this eType pCallable s Hvalid)
    as (pHook & hook & s1 & -> & Hfind & Hcb).
  cbn [snd]. rewrite (RemoveHook_state this eType pCallable s1 pHook hook Hvalid Hfind).
  cbn [snd]. exists pHook, hook. split; [exact Hfind|].
  cbn [g_mapCallbacks set_callbacks]. rewrite Hcb.
  rewrite callbacks_at_update_eq, callbacks_at_update_eq, list_remove_app_self.
  split; [done|]. split; [apply list_remove_absent|].
  intros h t Hne. by rewrite !callbacks_at_update_ne.
Qed.

(** X19: [RemoveHook] is idempotent: a second [RemoveHook] with the same
    arguments right after the first returns the same and changes nothing
    at all. *)
Theorem RemoveHook_idempotent (this : CFunction) (eType : HookType_t)
    (pCallable : PyObject) (s : state) :
  RemoveHook this eType pCallable (snd (RemoveHook this eType pCallable s))
  = (fst (RemoveHook this eType pCallable s), snd (RemoveHook this eType pCallable s)).
Proof.
  destruct (Z.eq_dec (f_ulAddr this) 0) as [Hnull|Hvalid].
  { unfold RemoveHook, IsValid. fold (f_ulAddr this). rewrite Hnull. by cbn. }
  destruct (find_hook_from 0 (g_pHookMngr s) (f_ulAddr this)) as [[pHook hook]|] eqn:Hfind.
  - rewrite (RemoveHook_state this eType pCallable s pHook hook Hvalid Hfind).
    cbn [fst snd].
    rewrite (RemoveHook_state this eType pCallable
               (set_callbacks (update_callbacks pHook eType (list_remove pCallable)) s)
               pHook hook Hvalid Hfind).
    f_equal. destruct s as [ptrs funs m tr vm calls hooks cbs out].
    unfold set_callbacks. cbn. f_equal.
    unfold update_callbacks at 1.
    rewrite callbacks_at_update_eq.
    rewrite list_remove_absent
      by (unfold list_remove; rewrite list_elem_of_filter; tauto).
    unfold update_callbacks. rewrite lookup_insert_eq. cbn [default from_option].
    unfold id. by rewrite !insert_insert_eq.
  - assert (Hrun : RemoveHook this eType pCallable s = (Returns tt, s)).
    { unfold RemoveHook, IsValid. fold (f_ulAddr this).
      apply Z.eqb_neq in Hvalid. rewrite Hvalid. cbn [negb].
      unfold bind, FindHook, gets. by rewrite Hfind. }
    rewrite Hrun. cbn [fst snd]. exact Hrun.
Qed.

(** X20: After [AddHook] on a function with a non-zero address the hook manager
    has a hook for it, and [CallTrampoline] is the [Call] of the same
    signature at the trampoline of that hook: it cannot fail for want of a
    hook. *)
Theorem AddHook_then_CallTrampoline (this : CFunction) (eType : HookType_t)
    (pCallable : PyObject) (args : list pyvalue) (s : state) :
  f_ulAddr this <> 0 ->
  exists pHook hook,
    find_hook_from 0 (g_pHookMngr (snd (AddHook this eType pCallable s))) (f_ulAddr this)
      = Some (pHook, hook) /\
    CallTrampoline this args (snd (AddHook this eType pCallable s))
      = Call (CFunction_new (m_pTrampoline hook) (m_eConv this) (m_Args this)
                (m_ReturnType this)) args (snd (AddHook this eType pCallable s)).
Proof.
  intros Hvalid.
  destruct (AddHook_state this eType pCallable s Hvalid)
    as (pHook & hook & s1 & -> & Hfind & _).
  cbn [snd]. exists pHook, hook. split; [exact Hfind|].
  unfold CallTrampoline, IsValid. fold (f_ulAddr this).
  apply Z.eqb_neq in Hvalid. rewrite Hvalid. cbn [negb].
  unfold bind at 1, FindHook, gets. by rewrite Hfind.
Qed.
End Hook_composition.

(** A witness: the handle 9 hooked on the sample function and removed. *)
Lemma AddHook_then_RemoveHook_witness :
  exists pHook hook,
    find_hook_from 0
      (g_pHookMngr (snd (RemoveHook sample_function HOOKTYPE_POST 9
                           (snd (@AddHook sample_native sample_function HOOKTYPE_POST 9
                                   sample_state)))))
      (f_ulAddr sample_function) = Some (pHook, hook) /\
    callbacks_at
      (g_mapCallbacks (snd (RemoveHook sample_function HOOKTYPE_POST 9
                              (snd (@AddHook sample_native sample_function HOOKTYPE_POST 9
                                      sample_state)))))
      pHook HOOKTYPE_POST
      = filter (fun x => x <> 9) (callbacks_at (g_mapCallbacks sample_state) pHook HOOKTYPE_POST).
Proof.
  assert (Hvalid : f_ulAddr sample_function <> 0) by (vm_compute; discriminate).
  destruct (@AddHook_then_RemoveHook sample_native sample_function HOOKTYPE_POST 9
              sample_state Hvalid) as (pHook & hook & Hfind & Hlist & _).
  by exists pHook, hook.
Defined.

(** A witness: the sample function hooked, then called at its trampoline. *)
Lemma AddHook_then_CallTrampoline_witness :
  exists pHook hook,
    find_hook_from 0
      (g_pHookMngr (snd (@AddHook sample_native sample_function HOOKTYPE_PRE 7 sample_state)))
      (f_ulAddr sample_function) = Some (pHook, hook) /\
    @CallTrampoline ILP32 sample_native sample_function []
      (snd (@AddHook sample_native sample_function HOOKTYPE_PRE 7 sample_state))
    = @Call ILP32 sample_native
        (CFunction_new (m_pTrampoline hook) (m_eConv sample_function)
           (m_Args sample_function) (m_ReturnType sample_function)) []
        (snd (@AddHook sample_native sample_function HOOKTYPE_PRE 7 sample_state)).
Proof.
  assert (Hvalid : f_ulAddr sample_function <> 0) by (vm_compute; discriminate).
  exact (@AddHook_then_CallTrampoline ILP32 sample_native sample_function HOOKTYPE_PRE 7 []
           sample_state Hvalid).
Defined.

(** ** From a pointer to a call *)

Section Pointer_to_call.
Context `{Arch} `{Native}.

Lemma Call_valid_not_null this args s :
  f_ulAddr this <> 0 ->
  ~ raises_condition (fst (Call this args s)) InvalidPointer.
Proof.
  intros Hvalid.
  destruct (decide (length args = length (m_Args this))) as [Hlen|Hlen].
  - rewrite (Call_marshals this args s Hvalid Hlen).
    set (s0 := set_vm (fun _ => mkVM (Some (m_eConv this)) []) s).
    destruct (pushes_Call_push_args args (m_Args this) s0) as (_ & _ & Hraise & _).
    unfold bind.
    destruct (Call_push_args args (m_Args this) s0) as [[[]|e] s1]; cbn [fst] in *.
    + destruct (Call_invoke_run (f_ulAddr this) (m_ReturnType this) s1) as [_ Hinv].
      destruct (Call_invoke (f_ulAddr this) (m_ReturnType this) s1) as [[v|e] s2];
        cbn [fst] in *; [cbn; tauto|].
      destruct (Hinv e eq_refl) as [(-> & _)|(-> & _)]; vm_compute; discriminate.
    + specialize (Hraise e eq_refl). apply list_elem_of_In in Hraise. cbn in Hraise.
      destruct Hraise as [<-|[<-|[]]]; vm_compute; discriminate.
  - unfold Call, IsValid. fold (f_ulAddr this).
    apply Z.eqb_neq in Hvalid. rewrite Hvalid. cbn [negb].
    apply Nat.eqb_neq in Hlen. rewrite Hlen. vm_compute. discriminate.
Qed.

(** X21: [MakeFunction] on a valid pointer returns a new function that has the
    address of the pointer and the convention and signature given, and
    [Call] never turns such a function away as a NULL pointer, whatever
    the arguments and the state it is called in. *)
Theorem MakeFunction_then_Call (this : ref) (eConv : Convention_t)
    (tags : list Argument_t) (return_type : ReturnType_t) (s : state) :
  address_of s this <> 0 ->
  exists f,
    fst (MakeFunction this eConv tags return_type s) = Returns f /\
    functions s !! f = None /\
    functions (snd (MakeFunction this eConv tags return_type s)) !! f
      = Some (CFunction_new (address_of s this) eConv tags return_type) /\
    pointers (snd (MakeFunction this eConv tags return_type s)) = pointers s /\
    mem (snd (MakeFunction this eConv tags return_type s)) = mem s /\
    (forall args s',
       ~ raises_condition
           (fst (Call (CFunction_new (address_of s this) eConv tags return_type) args s'))
           InvalidPointer).
Proof.
  intros Hvalid. unfold MakeFunction, IsValid. run_prefix.
  pose proof Hvalid as Hv. apply Z.eqb_neq in Hv. rewrite Hv. cbn [negb].
  exists (length (functions s)). cbn [new_CFunction fst snd].
  split; [done|]. split; [by apply lookup_ge_None|].
  split; [cbn; by rewrite lookup_app_r, Nat.sub_diag|].
  split; [by destruct s|]. split; [by destruct s|].
  intros args s'. by apply Call_valid_not_null.
Qed.

End Pointer_to_call.

(** A witness: a function made from the pointer to 0x1000. *)
Lemma MakeFunction_then_Call_witness :
  exists f,
    fst (MakeFunction 0%nat CONV_CDECL [DC_SIGCHAR_INT] DC_SIGCHAR_VOID sample_state)
      = Returns f /\
    functions (snd (MakeFunction 0%nat CONV_CDECL [DC_SIGCHAR_INT] DC_SIGCHAR_VOID
                      sample_state)) !! f
      = Some (CFunction_new 4096 CONV_CDECL [DC_SIGCHAR_INT] DC_SIGCHAR_VOID).
Proof.
  assert (Hvalid : address_of sample_state 0%nat <> 0) by (vm_compute; discriminate).
  destruct (@MakeFunction_then_Call ILP32 sample_native 0%nat CONV_CDECL [DC_SIGCHAR_INT]
              DC_SIGCHAR_VOID sample_state Hvalid) as (f & Hret & _ & Hfun & _).
  exists f. split; [exact Hret|exact Hfun].
Defined.


(** * Pointer objects that lie in memory *)

(** ** What a method does to memory is in its trace *)

Lemma effect_pure {A} w (c : M A) :
  (forall s, accesses (snd (c s)) = accesses s /\ mem (snd (c s)) = mem s) ->
  effect w c.
Proof.
  intros Hc s. destruct (Hc s) as [Htr Hmem]. exists [].
  split; [by rewrite Htr|]. split; [intros x _; by rewrite Hmem|].
  intros _ x. apply not_elem_of_nil.
Qed.

Lemma effect_ret {A} w (a : A) : effect w (ret a).
Proof. by apply effect_pure. Qed.

Lemma effect_raise {A} w exc msg : effect w (@BOOST_RAISE_EXCEPTION A exc msg).
Proof. by apply effect_pure. Qed.

Lemma effect_deref w r : effect w (deref r).
Proof. by apply effect_pure. Qed.

Lemma effect_new_CPointer w a : effect w (new_CPointer a).
Proof. by apply effect_pure. Qed.

Lemma effect_new_CFunction w f : effect w (new_CFunction f).
Proof. by apply effect_pure. Qed.

Lemma effect_ExtractPyPtr w o : effect w (ExtractPyPtr o).
Proof. apply effect_pure. intros s. by rewrite ExtractPyPtr_run. Qed.

Lemma effect_load_byte w a : effect w (load_byte a).
Proof.
  intros s. exists [Load a]. cbn. split; [done|]. split; [done|].
  intros _ x Hx. apply list_elem_of_singleton in Hx. discriminate Hx.
Qed.

Lemma effect_store_byte a v : effect true (store_byte a v).
Proof.
  intros s. exists [Store a]. cbn. split; [done|]. split; [|done].
  intros x Hx. apply lookup_insert_ne. intros ->. apply Hx.
  by apply list_elem_of_singleton.
Qed.

Lemma effect_bind {A B} w (c : M A) (k : A -> M B) :
  effect w c -> (forall a, effect w (k a)) -> effect w (bind c k).
Proof.
  intros Hc Hk s. unfold bind. destruct (Hc s) as (tr1 & Htr1 & Hmem1 & Hw1).
  destruct (c s) as [[a|e] s1]; cbn [snd] in *.
  - destruct (Hk a s1) as (tr2 & Htr2 & Hmem2 & Hw2).
    exists (tr2 ++ tr1). split; [by rewrite Htr2, Htr1, app_assoc|].
    split.
    + intros x Hx. apply not_elem_of_app in Hx as [Hx2 Hx1].
      by rewrite Hmem2, Hmem1.
    + intros Hw x. apply not_elem_of_app. split; [by apply Hw2|by apply Hw1].
  - by exists tr1.
Qed.

Lemma effect_if {A} w (b : bool) (c1 c2 : M A) :
  effect w c1 -> effect w c2 -> effect w (if b then c1 else c2).
Proof. by destruct b. Qed.

Create HintDb effect.
#[global] Hint Resolve effect_ret effect_raise effect_deref effect_new_CPointer
  effect_new_CFunction effect_ExtractPyPtr effect_load_byte effect_store_byte : effect.

Ltac effect_step :=
  lazymatch goal with
  | |- effect _ (bind _ _) => apply effect_bind; [|intros ?]
  | |- effect _ (if _ then _ else _) => apply effect_if
  | |- effect _ _ => solve [auto with effect]
  end.

Lemma effect_read_bytes w n a : effect w (read_bytes n a).
Proof.
  revert a. induction n as [|k IH]; intros a; cbn [read_bytes]; repeat effect_step.
Qed.

Lemma effect_write_bytes bs a : effect true (write_bytes bs a).
Proof.
  revert a. induction bs as [|b rest IH]; intros a; cbn [write_bytes];
    repeat effect_step.
Qed.

Lemma effect_load_le w n a : effect w (load_le n a).
Proof.
  revert a. induction n as [|k IH]; intros a; cbn [load_le]; repeat effect_step.
Qed.

Lemma effect_store_le n a v : effect true (store_le n a v).
Proof.
  revert a v. induction n as [|k IH]; intros a v; cbn [store_le]; repeat effect_step.
Qed.

Lemma effect_memcmp w p q n : effect w (memcmp p q n).
Proof.
  revert p q. induction n as [|k IH]; intros p q; cbn [memcmp]; repeat effect_step.
Qed.

#[global] Hint Resolve effect_read_bytes effect_write_bytes effect_load_le
  effect_store_le effect_memcmp : effect.

Lemma effect_memmove dst src n : effect true (memmove dst src n).
Proof. unfold memmove. repeat effect_step. Qed.

Lemma effect_memcpy dst src n : effect true (memcpy dst src n).
Proof. unfold memcpy. repeat effect_step. Qed.

Lemma effect_strcpy dst szText : effect true (strcpy dst szText).
Proof. unfold strcpy. repeat effect_step. Qed.

#[global] Hint Resolve effect_memmove effect_memcpy effect_strcpy : effect.

Section Effects.
Context `{Arch}.

Lemma effect_load_ulong w a : effect w (load_ulong a).
Proof. apply effect_load_le. Qed.

Lemma effect_store_ulong a v : effect true (store_ulong a v).
Proof. apply effect_store_le. Qed.

Lemma effect_IsOverlapping w this oOther n : effect w (IsOverlapping this oOther n).
Proof. apply effect_pure. intros s. by rewrite IsOverlapping_run. Qed.

Lemma effect_SearchBytes_for w bytes base i : effect w (SearchBytes_for bytes base i).
Proof.
  revert i. induction bytes as [|b rest IH]; intros i; cbn [SearchBytes_for];
    repeat effect_step.
Qed.

Lemma effect_SearchBytes_while w n bytes iByteLen base :
  effect w (SearchBytes_while n bytes iByteLen base).
Proof.
  revert base. induction n as [|k IH]; intros base; cbn [SearchBytes_while].
  - apply effect_ret.
  - apply effect_bind; [apply effect_SearchBytes_for|]. intros i.
    apply effect_if; [repeat effect_step|apply IH].
Qed.

Hint Resolve effect_load_ulong effect_store_ulong effect_IsOverlapping
  effect_SearchBytes_while : effect.

(** Every method accounts for its stores, and the methods that are not
    among the five writers make none. *)
Lemma effect_invoke m this : effect (writes_memory m) (invoke m this).
Proof.
  destruct m; cbn [invoke writes_memory]; unfold returning;
    unfold SetStringPtr, GetStringArray, SetStringArray, GetPtr, SetPtr,
      Compare, SearchBytes, Copy, Move, MakeVirtualFunction, GetVirtualFunc;
    cbv zeta; repeat effect_step;
    unfold MakeFunction; repeat effect_step.
Qed.
End Effects.

(** ** Objects read back from memory *)

Lemma word_at_frame (tr : list access) (m1 m2 : gmap Z Z) n a :
  (forall x, Store x ∉ tr -> m1 !! x = m2 !! x) ->
  word_at m1 n a = word_at m2 n a \/
  exists x, a <= x < a + Z.of_nat n /\ Store x ∈ tr.
Proof.
  intros Hm. revert a. induction n as [|k IH]; intros a; cbn [word_at]; [by left|].
  destruct (decide (Store a ∈ tr)) as [Hin|Hnotin].
  - right. exists a. split; [lia|done].
  - destruct (IH (a + 1)) as [Heq|(x & Hx & Hin)].
    + left. by rewrite Heq, (Hm a Hnotin).
    + right. exists x. split; [lia|done].
Qed.

Section Resident_facts.
Context `{Arch}.

Lemma reload_lookup lay s r p :
  pointers s !! r = Some p ->
  pointers (reload lay s) !! r
    = Some (match lay !! r with
            | Some a => CPointer_new (word_at (mem s) (Pos.to_nat sizeof_ulong) a)
            | None => p
            end).
Proof. intros Hr. unfold reload. cbn. by rewrite list_lookup_imap, Hr. Qed.

Lemma coherent_reload lay s0 s :
  coherent lay s0 -> pointers s0 `prefix_of` pointers s -> coherent lay (reload lay s).
Proof.
  intros Hcoh Hprefix r a Hlay. destruct (Hcoh r a Hlay) as (p & Hr & _).
  pose proof (prefix_lookup_Some _ _ _ _ Hr Hprefix) as Hr'.
  eexists. split; [by apply reload_lookup|]. by rewrite Hlay.
Qed.

(** An object made by the call lies outside the layout. *)
Lemma reload_new_object lay s s1 r :
  coherent lay s -> (length (pointers s) <= r)%nat ->
  address_of (reload lay s1) r = address_of s1 r.
Proof.
  intros Hcoh Hr. unfold address_of, reload, ref. cbn. rewrite list_lookup_imap.
  destruct (pointers s1 !! r) as [p|]; cbn; [|done].
  destruct (lay !! r) as [a|] eqn:Hlay; [|done].
  destruct (Hcoh r a Hlay) as (p' & Hp' & _). apply lookup_lt_Some in Hp'. lia.
Qed.

Lemma GetPtr_run this iOffset s :
  address_of s this <> 0 ->
  exists tr,
    GetPtr this iOffset s
      = (Returns (length (pointers s)),
         set_accesses (fun _ => tr)
           (set_pointers
              (fun l => l ++ [CPointer_new
                                (word_at (mem s) (Pos.to_nat sizeof_ulong)
                                   (ulong (address_of s this + iOffset)))])
              s)).
Proof.
  intros Hvalid. unfold GetPtr, IsValid. run_prefix.
  apply Z.eqb_neq in Hvalid. rewrite Hvalid. cbn [negb].
  destruct (load_ulong_run (ulong (address_of s this + iOffset)) s) as [tr Hload].
  rewrite (bind_returns _ _ _ _ _ Hload). exists tr. by destruct s.
Qed.

Lemma SearchBytes_accepts_at_once this oBytes n s :
  address_of s this <> 0 -> 0 <= address_of s this ->
  Z.of_nat (length oBytes) <= n ->
  address_of s this + n + 1 < ULONG_MOD ->
  window_accepted s oBytes (address_of s this) ->
  exists r,
    fst (SearchBytes this oBytes n s) = Returns (Some r) /\
    address_of (snd (SearchBytes this oBytes n s)) r = address_of s this.
Proof.
  intros Hvalid Hnonneg Hlen Hrange Hacc. unfold SearchBytes. run_prefix.
  apply Z.eqb_neq in Hvalid. rewrite Hvalid.
  destruct (Z.ltb_spec n (Z.of_nat (length oBytes))) as [?|_]; [lia|]. cbv zeta.
  rewrite SearchBytes_end by done.
  destruct (SearchBytes_while_first_match
              (Z.to_nat (address_of s this + n - Z.of_nat (length oBytes) + 1
                         - address_of s this))
              oBytes (address_of s this) s) as [_ Hcases].
  destruct Hcases as [(r & Hret & _ & Hin & _ & Hfirst)|[_ Hnone]].
  - exists r. split; [exact Hret|].
    destruct (decide (address_of
                        (snd (SearchBytes_while
                                (Z.to_nat (address_of s this + n - Z.of_nat (length oBytes)
                                           + 1 - address_of s this))
                                oBytes (Z.of_nat (length oBytes)) (address_of s this) s)) r
                      = address_of s this)) as [Heq|Hne]; [exact Heq|].
    destruct (Hfirst (address_of s this)); [lia|exact Hacc].
  - destruct (Hnone (address_of s this)); [lia|exact Hacc].
Qed.

(** C10, as amended: no method of [CPointer] assigns to [m_ulAddr].  For
    objects that lie in memory (any layout that agrees with the state) the
    address of an object changes only where a store of the call lands on
    the bytes of that object; the methods other than the five that store
    ([SetStringPtr], [SetStringArray], [SetPtr], [Copy], [Move]) make no
    store and change no object.  A pointer that a method returns is a
    newly made object, not one that existed before; and on a valid pointer
    [GetPtr] and [GetVirtualFunc] do return one, to the word read, as does
    [SearchBytes] to the address it is invoked on when the window there is
    accepted. *)
Theorem pointers_change_only_under_stores (lay : layout) (m : method) (this : ref)
    (s : state) :
  coherent lay s ->
  coherent lay (snd (resident lay (invoke m this) s)) /\
  (exists tr,
     accesses (snd (resident lay (invoke m this) s)) = tr ++ accesses s /\
     (writes_memory m = false -> forall x, Store x ∉ tr) /\
     (forall r p, pointers s !! r = Some p ->
        pointers (snd (resident lay (invoke m this) s)) !! r = Some p \/
        exists a x, lay !! r = Some a /\ a <= x < a + Z.pos sizeof_ulong /\
                    Store x ∈ tr)) /\
  (writes_memory m = false ->
     forall r p, pointers s !! r = Some p ->
       pointers (snd (resident lay (invoke m this) s)) !! r = Some p) /\
  (forall v r, fst (resident lay (invoke m this) s) = Returns v ->
     returned_pointer v = Some r ->
     pointers s !! r = None /\
     is_Some (pointers (snd (resident lay (invoke m this) s)) !! r)) /\
  (address_of s this <> 0 ->
     (forall iOffset, m = m_GetPtr iOffset ->
        exists r,
          fst (resident lay (invoke m this) s) = Returns (VPointer (Some r)) /\
          address_of (snd (resident lay (invoke m this) s)) r
            = word_at (mem s) (Pos.to_nat sizeof_ulong)
                (ulong (address_of s this + iOffset))) /\
     (forall iIndex, m = m_GetVirtualFunc iIndex ->
        exists r,
          fst (resident lay (invoke m this) s) = Returns (VPointer (Some r)) /\
          address_of (snd (resident lay (invoke m this) s)) r
            = vtable_entry (mem s) (address_of s this) iIndex) /\
     (forall oBytes n, m = m_SearchBytes oBytes n ->
        0 <= address_of s this -> Z.of_nat (length oBytes) <= n ->
        address_of s this + n + 1 < ULONG_MOD ->
        Forall (fun b => 0 < b < 256) oBytes ->
        window_accepted s oBytes (address_of s this) ->
        exists r,
          fst (resident lay (invoke m this) s) = Returns (VPointer (Some r)) /\
          address_of (snd (resident lay (invoke m this) s)) r = address_of s this)).
Proof.
  intros Hcoh.
  pose proof (grows_invoke m this s) as Hgrow.
  pose proof (fresh_invoke m this s) as Hfresh.
  destruct (effect_invoke m this s) as (tr & Htr & Hmem & Hro).
  assert (Hobj : forall r p, pointers s !! r = Some p ->
            pointers (reload lay (snd (invoke m this s))) !! r = Some p \/
            exists a x, lay !! r = Some a /\ a <= x < a + Z.pos sizeof_ulong /\
                        Store x ∈ tr).
  { intros r p Hr.
    rewrite (reload_lookup lay _ r p) by (by eapply prefix_lookup_Some).
    destruct (lay !! r) as [a|] eqn:Hlay; [|by left].
    destruct (Hcoh r a Hlay) as (p' & Hr' & Hword).
    assert (p' = p) by congruence. subst p'.
    destruct (word_at_frame tr (mem (snd (invoke m this s))) (mem s)
                (Pos.to_nat sizeof_ulong) a Hmem) as [Heq|(x & Hx & Hin)].
    - left. rewrite Heq, <- Hword. by destruct p.
    - right. exists a, x. rewrite positive_nat_Z in Hx. done. }
  pose proof (fun r => reload_new_object lay s (snd (invoke m this s)) r Hcoh) as Hnew.
  assert (Hfst : fst (resident lay (invoke m this) s) = fst (invoke m this s))
    by (unfold resident; by destruct (invoke m this s)).
  assert (Hsnd : snd (resident lay (invoke m this) s)
                 = reload lay (snd (invoke m this s)))
    by (unfold resident; by destruct (invoke m this s)).
  rewrite Hfst, Hsnd.
  split; [by apply (coherent_reload lay s)|].
  split.
  { exists tr. split; [exact Htr|]. split; [exact Hro|exact Hobj]. }
  split.
  { intros Hread r p Hr. destruct (Hobj r p Hr) as [Hsame|(a & x & _ & _ & Hin)];
      [exact Hsame|]. by destruct (Hro Hread x). }
  split.
  { intros v r Hv Hp. destruct (Hfresh v r Hv Hp) as [Hlo Hhi].
    split; [by apply lookup_ge_None|].
    apply lookup_lt_is_Some. unfold reload. cbn. by rewrite length_imap. }
  intros Hvalid. split; [|split].
  - intros iOffset ->. destruct (GetPtr_run this iOffset s Hvalid) as [trg Hrun].
    assert (Hinv : invoke (m_GetPtr iOffset) this s
                   = (Returns (VPointer (Some (length (pointers s)))),
                      set_accesses (fun _ => trg)
                        (set_pointers
                           (fun l => l ++ [CPointer_new
                                             (word_at (mem s) (Pos.to_nat sizeof_ulong)
                                                (ulong (address_of s this + iOffset)))])
                           s))).
    { cbn [invoke]. unfold returning. by rewrite (bind_returns _ _ _ _ _ Hrun). }
    exists (length (pointers s)). rewrite Hnew by done.
    rewrite Hinv. cbn [fst snd]. split; [done|].
    unfold address_of. cbn [pointers set_accesses set_pointers].
    by rewrite lookup_app_r, Nat.sub_diag.
  - intros iIndex ->. destruct (GetVirtualFunc_run this iIndex s Hvalid) as [trg Hrun].
    assert (Hinv : invoke (m_GetVirtualFunc iIndex) this s
                   = (Returns (VPointer (Some (length (pointers s)))),
                      set_accesses (fun _ => trg)
                        (set_pointers
                           (fun l => l ++ [CPointer_new
                                             (vtable_entry (mem s) (address_of s this)
                                                iIndex)])
                           s))).
    { cbn [invoke]. unfold returning. by rewrite (bind_returns _ _ _ _ _ Hrun). }
    exists (length (pointers s)). rewrite Hnew by done.
    rewrite Hinv. cbn [fst snd]. split; [done|].
    unfold address_of. cbn [pointers set_accesses set_pointers].
    by rewrite lookup_app_r, Nat.sub_diag.
  - intros oBytes n -> Hnonneg Hlen Hrange _ Hacc.
    destruct (SearchBytes_accepts_at_once this oBytes n s Hvalid Hnonneg Hlen Hrange Hacc)
      as (r & Hret & Haddr).
    assert (Hinv : invoke (m_SearchBytes oBytes n) this s
                   = (Returns (VPointer (Some r)), snd (SearchBytes this oBytes n s))).
    { cbn [invoke]. unfold returning, bind.
      destruct (SearchBytes this oBytes n s) as [[o|e] s1]; cbn [fst snd] in *;
        by simplify_eq. }
    exists r. rewrite Hnew.
    + rewrite Hinv. cbn [fst snd]. split; [done|exact Haddr].
    + apply (Hfresh (VPointer (Some r)) r); [by rewrite Hinv|done].
Qed.
End Resident_facts.

Lemma resident_state_coherent : @coherent ILP32 resident_layout resident_state.
Proof.
  intros r a Hlay. unfold resident_layout in Hlay.
  apply lookup_singleton_Some in Hlay as [<- <-].
  exists (CPointer_new 4096). split; [reflexivity|]. vm_compute. reflexivity.
Qed.

(** C10, as stated, fails for a pointer object that lies in memory.  The
    object invoked on lies at 0x3000 and points to 0x1000, where the word
    0x2000 is stored; the destination points to 0x3000.  [Move] of four
    bytes copies the word over the object: the pointer the method was
    invoked on now has the address 0x2000. *)
Lemma Move_changes_this :
  @coherent ILP32 resident_layout resident_state /\
  address_of resident_state 0%nat = 4096 /\
  address_like resident_state (PyCPointer 1%nat) = 12288 /\
  fst (@resident ILP32 _ resident_layout
         (@invoke ILP32 (m_Move (PyCPointer 1%nat) 4) 0%nat) resident_state)
    = Returns VVoid /\
  address_of
    (snd (@resident ILP32 _ resident_layout
            (@invoke ILP32 (m_Move (PyCPointer 1%nat) 4) 0%nat) resident_state))
    0%nat = 8192.
Proof.
  split; [exact resident_state_coherent|].
  split; [reflexivity|]. split; [reflexivity|].
  split; vm_compute; reflexivity.
Qed.

(** A witness of C10: [GetPtr(0)] on the same objects returns a new pointer
    to the word read, 0x2000, and the object it was invoked on is as
    before. *)
Lemma pointers_change_only_under_stores_witness :
  pointers
    (snd (@resident ILP32 _ resident_layout (@invoke ILP32 (m_GetPtr 0) 0%nat)
            resident_state)) !! 0%nat = Some (CPointer_new 4096) /\
  exists r,
    fst (@resident ILP32 _ resident_layout (@invoke ILP32 (m_GetPtr 0) 0%nat)
           resident_state) = Returns (VPointer (Some r)) /\
    address_of
      (snd (@resident ILP32 _ resident_layout (@invoke ILP32 (m_GetPtr 0) 0%nat)
              resident_state)) r
      = word_at (mem resident_state) 4 (@ulong ILP32 (4096 + 0)).
Proof.
  destruct (@pointers_change_only_under_stores ILP32 resident_layout (m_GetPtr 0) 0%nat
              resident_state resident_state_coherent)
    as (_ & _ & Hread & _ & Hnew).
  split; [apply Hread; reflexivity|].
  assert (Hvalid : address_of resident_state 0%nat <> 0) by (vm_compute; discriminate).
  destruct (Hnew Hvalid) as (Hget & _ & _).
  exact (Hget 0 eq_refl).
Defined.
